(** * The kernel launcher's server listener

    A shallow embedding of
    [remote_provisioners/kernel-launchers/shared/scripts/server_listener.py]:
    the port allocator, the payload codec, the handshake that pushes the
    connection descriptor to the server, and the loop that relays signal and
    shutdown requests to the kernel process.

    Python values are modelled as follows.
    - [int] is [Z]; [bytes] is [list byte]; [str] is [string], holding the
      UTF-8 encoding of the text, so that [encode] is the identity on the
      underlying bytes and [decode] validates them.
    - A JSON document is a [pyval]; a [dict] is an association list in
      insertion order.
    - Effects (sockets, signals, files, random numbers) act on a [World]; a
      raised exception is an outcome of the computation. *)

From Stdlib Require Import ZArith NArith List String Ascii Bool Lia DecimalString.
From Stdlib.Strings Require Import Byte.
From Stdlib.Floats Require Import SpecFloat.
Import ListNotations.

Local Open Scope Z_scope.
Local Open Scope list_scope.

Set Warnings "-register-all".

(** ** Exceptions *)

(** The exception classes that the modelled calls raise.  All of them derive
    from [Exception], so [except Exception] catches every one. *)
Inductive exn : Type :=
| socket_timeout
| JSONDecodeError
| UnicodeDecodeError
| AttributeError
| TypeError
| ValueError
| OverflowError
| FileNotFoundError
| ProcessLookupError
| PermissionError
| ConnectionRefusedError
| OSError
| binascii_Error
| RuntimeError (msg : string).

(** [type(ex) is socket.timeout] *)
Definition is_socket_timeout (ex : exn) : bool :=
  match ex with
  | socket_timeout => true
  | _ => false
  end.

(** ** JSON values *)

Inductive pyval : Type :=
| JNull
| JBool (b : bool)
| JInt (n : Z)
| JFloat (x : spec_float)
| JStr (s : string)
| JList (items : list pyval)
| JDict (items : list (string * pyval)).

Definition pydict : Type := list (string * pyval).

(** [d.get(key)]: the value stored under [key], [None] when there is none. *)
Fixpoint dict_get (key : string) (d : pydict) : option pyval :=
  match d with
  | [] => None
  | (k, v) :: rest => if String.eqb k key then Some v else dict_get key rest
  end.

(** [d[key] = value]: an existing key keeps its place and takes the new
    value; a new key is added after the others. *)
Fixpoint dict_set (key : string) (value : pyval) (d : pydict) : pydict :=
  match d with
  | [] => [(key, value)]
  | (k, v) :: rest =>
      if String.eqb k key then (k, value) :: rest
      else (k, v) :: dict_set key value rest
  end.

Definition dict_keys (d : pydict) : list string := map fst d.

(** Truth value of a float: zero (of either sign) is false, NaN is true. *)
Definition float_truth (x : spec_float) : bool :=
  match x with
  | S754_zero _ => false
  | _ => true
  end.

(** [bool(v)], also the test made by [if v:]. *)
Definition truthy (v : pyval) : bool :=
  match v with
  | JNull => false
  | JBool b => b
  | JInt n => negb (n =? 0)
  | JFloat x => float_truth x
  | JStr s => negb (String.eqb s EmptyString)
  | JList items => match items with [] => false | _ => true end
  | JDict items => match items with [] => false | _ => true end
  end.

(** [int(x)] on a float: truncation towards zero; infinities raise
    [OverflowError] and NaN raises [ValueError]. *)
Definition int_of_float (x : spec_float) : exn + Z :=
  match x with
  | S754_zero _ => inr 0
  | S754_infinity _ => inl OverflowError
  | S754_nan => inl ValueError
  | S754_finite s m e =>
      let mag := if 0 <=? e then Z.pos m * 2 ^ e else Z.pos m / 2 ^ (- e) in
      inr (if s then - mag else mag)
  end.

(** ** The Python library

    The builtins and standard-library functions the script calls and whose
    code is not part of it.  [None] stands for the exception the call raises
    ([ValueError] for [int], [JSONDecodeError] for [json.loads]). *)
Class PyLib : Type := {
  (** [int(s)] on a [str] *)
  int_of_str : string -> option Z;
  (** [json.loads(s)] *)
  json_loads : string -> option pyval;
  (** [json.dumps(v)] *)
  json_dumps : pyval -> string;
  (** [signal.SIGUSR2], whose number depends on the platform *)
  SIGUSR2 : Z
}.

(** [int(v)] on a value read from JSON ([v] is not [None]). *)
Definition py_int `{PyLib} (v : pyval) : exn + Z :=
  match v with
  | JNull => inl TypeError
  | JBool b => inr (if b then 1 else 0)
  | JInt n => inr n
  | JFloat x => int_of_float x
  | JStr s => match int_of_str s with Some n => inr n | None => inl ValueError end
  | JList _ => inl TypeError
  | JDict _ => inl TypeError
  end.

(** ** The world *)

(** What one [conn.recv(1024)] returns: some bytes (none when the peer has
    closed its side) or an exception. *)
Inductive recv_outcome : Type :=
| RecvBytes (buffer : list byte)
| RecvRaises (ex : exn).

(** What one [sock.accept()] on the control socket meets: the timeout set by
    [prepare_comm_socket] expires, a peer connects (and its successive [recv]
    results follow; after the last one the peer has closed), or the call
    fails. *)
Inductive accept_event : Type :=
| AcceptTimeout
| AcceptConnection (received : list recv_outcome)
| AcceptRaises (ex : exn).

Inductive log_level : Type := DEBUG | INFO | ERROR.

(** The observable actions, in the order they happen. *)
Inductive event : Type :=
| EvLog (level : log_level) (msg : string)
| EvSocket (fileno : nat)
| EvBind (fileno : nat) (port : Z) (bound : option Z)
| EvListen (fileno : nat) (backlog : Z)
| EvSetTimeout (fileno : nat) (seconds : Z)
| EvAccept (fileno : nat) (conn : nat)
| EvRecv (conn : nat) (received : recv_outcome)
| EvClose (fileno : nat)
| EvConnect (fileno : nat) (host : string) (port : Z) (failure : option exn)
| EvSend (fileno : nat) (payload : list byte)
| EvKill (pid : Z) (signum : Z) (failure : option exn).

(** The part of the world the script only reads. *)
Record Env : Type := {
  (** [int(os.getenv("MAX_PORT_RANGE_RETRIES", "5"))], read at import *)
  max_port_range_retries : Z;
  (** [os.getpid()] and [os.getpgid(pid)] *)
  own_pid : Z;
  own_pgid : Z;
  (** the text of each readable file *)
  files : string -> option string;
  (** ports held by sockets that are not ours *)
  foreign_ports : list Z;
  (** the order in which the system tries ports for a bind to port 0 *)
  ephemeral_ports : list Z;
  (** the successive draws of the [random] generator *)
  randint_draws : nat -> Z;
  (** the operating system's random bytes *)
  urandom : nat -> byte;
  (** [s.connect((host, port))]: [None] when the peer accepts *)
  connect_outcome : string -> Z -> option exn;
  (** [s.send(payload)]: [None] when the payload is sent *)
  send_outcome : list byte -> option exn;
  (** [os.kill(pid, signum)]: [None] when the signal is delivered *)
  kill_outcome : Z -> Z -> option exn
}.

Record World : Type := {
  env : Env;
  draws_used : nat;
  urandom_used : nat;
  (** our open sockets, each with the port it is bound to *)
  open_sockets : list (nat * option Z);
  next_fileno : nat;
  (** what the next calls to [accept] on the control socket will meet *)
  arrivals : list accept_event;
  trace : list event
}.

Definition set_draws_used (n : nat) (w : World) : World :=
  {| env := env w; draws_used := n; urandom_used := urandom_used w;
     open_sockets := open_sockets w; next_fileno := next_fileno w;
     arrivals := arrivals w; trace := trace w |}.

Definition set_urandom_used (n : nat) (w : World) : World :=
  {| env := env w; draws_used := draws_used w; urandom_used := n;
     open_sockets := open_sockets w; next_fileno := next_fileno w;
     arrivals := arrivals w; trace := trace w |}.

Definition set_open_sockets (l : list (nat * option Z)) (w : World) : World :=
  {| env := env w; draws_used := draws_used w; urandom_used := urandom_used w;
     open_sockets := l; next_fileno := next_fileno w;
     arrivals := arrivals w; trace := trace w |}.

Definition set_next_fileno (n : nat) (w : World) : World :=
  {| env := env w; draws_used := draws_used w; urandom_used := urandom_used w;
     open_sockets := open_sockets w; next_fileno := n;
     arrivals := arrivals w; trace := trace w |}.

Definition set_arrivals (l : list accept_event) (w : World) : World :=
  {| env := env w; draws_used := draws_used w; urandom_used := urandom_used w;
     open_sockets := open_sockets w; next_fileno := next_fileno w;
     arrivals := l; trace := trace w |}.

Definition emit (e : event) (w : World) : World :=
  {| env := env w; draws_used := draws_used w; urandom_used := urandom_used w;
     open_sockets := open_sockets w; next_fileno := next_fileno w;
     arrivals := arrivals w; trace := trace w ++ [e] |}.

(** ** Computations *)

(** How a call ends: it returns, it raises, it waits for ever in [accept]
    (no arrival is left), or the model's recursion bound was too small
    (which is proved never to happen for the bounds the model uses). *)
Inductive outcome (A : Type) : Type :=
| Ret (a : A)
| Raise (ex : exn)
| Blocked
| OutOfFuel.

Arguments Ret {A} a.
Arguments Raise {A} ex.
Arguments Blocked {A}.
Arguments OutOfFuel {A}.

Definition M (A : Type) : Type := World -> outcome A * World.

Definition ret {A} (a : A) : M A := fun w => (Ret a, w).

Definition raise {A} (ex : exn) : M A := fun w => (Raise ex, w).

Definition bind {A B} (m : M A) (k : A -> M B) : M B :=
  fun w =>
    match m w with
    | (Ret a, w') => k a w'
    | (Raise ex, w') => (Raise ex, w')
    | (Blocked, w') => (Blocked, w')
    | (OutOfFuel, w') => (OutOfFuel, w')
    end.

Declare Scope py_scope.
Delimit Scope py_scope with py.
Notation "x <- m ;; k" := (bind m (fun x => k))
  (at level 61, m at next level, right associativity) : py_scope.
Notation "m ;;; k" := (bind m (fun _ => k))
  (at level 61, right associativity) : py_scope.
Local Open Scope py_scope.

(** [try: m except Exception as ex: ...]: the exception, if [m] raised one,
    is handed to the caller as a value. *)
Definition try {A} (m : M A) : M (exn + A) :=
  fun w =>
    match m w with
    | (Ret a, w') => (Ret (inr a), w')
    | (Raise ex, w') => (Ret (inl ex), w')
    | (Blocked, w') => (Blocked, w')
    | (OutOfFuel, w') => (OutOfFuel, w')
    end.

Definition ask {A} (f : Env -> A) : M A := fun w => (Ret (f (env w)), w).

(** An action that always succeeds leaves its event in the trace. *)
Definition record (e : event) : M unit := fun w => (Ret tt, emit e w).

(** [logger.debug(msg)], [logger.info(msg)] and [logger.error(msg)].  A
    message that formats the [repr] of a [bytes] or [dict] value into its
    text is recorded by the words that come before that value. *)
Definition logger (level : log_level) (msg : string) : M unit :=
  record (EvLog level msg).

(** ** Sockets, signals and the random generator *)

Record socket : Type := { fileno : nat }.

(** A connection returned by [accept], with what its [recv] calls will
    return. *)
Record connection : Type := { conn_fileno : nat; incoming : list recv_outcome }.

Definition holds_port (p : Z) (s : nat * option Z) : bool :=
  match snd s with
  | Some q => p =? q
  | None => false
  end.

(** A port is taken when a socket of another process or one of ours is bound
    to it. *)
Definition port_in_use (w : World) (p : Z) : bool :=
  existsb (Z.eqb p) (foreign_ports (env w)) || existsb (holds_port p) (open_sockets w).

Fixpoint socket_entry (fd : nat) (l : list (nat * option Z)) : option (option Z) :=
  match l with
  | [] => None
  | (fd', p) :: rest => if Nat.eqb fd' fd then Some p else socket_entry fd rest
  end.

Fixpoint set_socket_port (fd : nat) (p : Z) (l : list (nat * option Z))
  : list (nat * option Z) :=
  match l with
  | [] => []
  | (fd', q) :: rest =>
      if Nat.eqb fd' fd then (fd', Some p) :: rest
      else (fd', q) :: set_socket_port fd p rest
  end.

Definition drop_socket (fd : nat) (l : list (nat * option Z)) : list (nat * option Z) :=
  filter (fun s => negb (Nat.eqb (fst s) fd)) l.

(** [socket.socket(socket.AF_INET, socket.SOCK_STREAM)] *)
Definition socket_socket : M socket :=
  fun w =>
    let fd := next_fileno w in
    (Ret {| fileno := fd |},
     emit (EvSocket fd)
       (set_next_fileno (S fd) (set_open_sockets (open_sockets w ++ [(fd, None)]) w))).

(** The port a bind to [port] gets on an unbound socket: for port 0 the first
    free port in the system's order, otherwise [port] itself when it is free. *)
Definition grant_port (w : World) (port : Z) : option Z :=
  if port =? 0 then find (fun p => negb (port_in_use w p)) (ephemeral_ports (env w))
  else if port_in_use w port then None
  else Some port.

(** [sock.bind(("0.0.0.0", port))] *)
Definition sock_bind (sock : socket) (port : Z) : M unit :=
  fun w =>
    let fd := fileno sock in
    let failed (ex : exn) := (Raise ex, emit (EvBind fd port None) w) in
    if (port <? 0) || (65535 <? port) then failed OverflowError
    else
      match socket_entry fd (open_sockets w) with
      | Some None =>
          match grant_port w port with
          | Some p =>
              (Ret tt,
               emit (EvBind fd port (Some p))
                 (set_open_sockets (set_socket_port fd p (open_sockets w)) w))
          | None => failed OSError
          end
      | _ => failed OSError
      end.

(** [sock.getsockname()[1]] *)
Definition sock_getsockname_port (sock : socket) : M Z :=
  fun w =>
    match socket_entry (fileno sock) (open_sockets w) with
    | Some (Some p) => (Ret p, w)
    | Some None => (Ret 0, w)
    | None => (Raise OSError, w)
    end.

Definition sock_listen (sock : socket) (backlog : Z) : M unit :=
  record (EvListen (fileno sock) backlog).

Definition sock_settimeout (sock : socket) (seconds : Z) : M unit :=
  record (EvSetTimeout (fileno sock) seconds).

(** [sock.close()], also for a connection *)
Definition close_fileno (fd : nat) : M unit :=
  fun w =>
    (Ret tt, emit (EvClose fd) (set_open_sockets (drop_socket fd (open_sockets w)) w)).

(** [sock.accept()]: on [None] the attribute lookup fails; on the control
    socket the call meets the next arrival and waits when there is none. *)
Definition sock_accept (sock : option socket) : M connection :=
  fun w =>
    match sock with
    | None => (Raise AttributeError, w)
    | Some s =>
        match arrivals w with
        | [] => (Blocked, w)
        | AcceptTimeout :: rest => (Raise socket_timeout, set_arrivals rest w)
        | AcceptRaises ex :: rest => (Raise ex, set_arrivals rest w)
        | AcceptConnection received :: rest =>
            let fd := next_fileno w in
            (Ret {| conn_fileno := fd; incoming := received |},
             emit (EvAccept (fileno s) fd)
               (set_next_fileno (S fd)
                  (set_open_sockets (open_sockets w ++ [(fd, None)])
                     (set_arrivals rest w))))
        end
    end.

(** [os.kill(pid, signum)] *)
Definition os_kill (pid signum : Z) : M unit :=
  fun w =>
    let failure := kill_outcome (env w) pid signum in
    (match failure with None => Ret tt | Some ex => Raise ex end,
     emit (EvKill pid signum failure) w).

(** [random.randint(a, b)]: a number of [a..b]; [ValueError] on an empty
    range. *)
Definition random_randint (a b : Z) : M Z :=
  fun w =>
    if b <? a then (Raise ValueError, w)
    else
      (Ret (a + randint_draws (env w) (draws_used w) mod (b - a + 1)),
       set_draws_used (S (draws_used w)) w).

(** ** The port allocator *)

Definition decimal (n : Z) : string := NilZero.string_of_int (Z.to_int n).

(** [_get_candidate_port] *)
Definition _get_candidate_port (lower_port upper_port : Z) : M Z :=
  let range_size := upper_port - lower_port in
  if range_size =? 0 then ret 0
  else random_randint lower_port upper_port.

Definition port_range_message (lower_port upper_port retries : Z) : string :=
  ("Failed to locate port within range " ++ decimal lower_port ++ ".."
     ++ decimal upper_port ++ " after " ++ decimal retries ++ " retries!")%string.

(** The [while not found_port] loop of [_select_socket]; [fuel] bounds the
    number of passes. *)
Fixpoint _select_socket_loop (fuel : nat) (sock : socket) (retries : Z)
    (lower_port upper_port : Z) : M unit :=
  match fuel with
  | O => fun w => (OutOfFuel, w)
  | S fuel' =>
      attempt <- try (port <- _get_candidate_port lower_port upper_port ;;
                      sock_bind sock port) ;;
      match attempt with
      | inr _ => ret tt
      | inl _ =>
          let retries := retries + 1 in
          max_retries <- ask max_port_range_retries ;;
          if retries >? max_retries then
            raise (RuntimeError (port_range_message lower_port upper_port max_retries))
          else _select_socket_loop fuel' sock retries lower_port upper_port
      end
  end.

(** [_select_socket] *)
Definition _select_socket (lower_port upper_port : Z) : M socket :=
  sock <- socket_socket ;;
  max_retries <- ask max_port_range_retries ;;
  _select_socket_loop (S (Z.to_nat max_retries)) sock 0 lower_port upper_port ;;;
  ret sock.

Fixpoint close_all (sockets : list socket) : M unit :=
  match sockets with
  | [] => ret tt
  | sock :: rest => close_fileno (fileno sock) ;;; close_all rest
  end.

(** The [for _ in range(count)] loop of [_select_ports]. *)
Fixpoint _select_ports_loop (n : nat) (lower_port upper_port : Z)
    (ports : list Z) (sockets : list socket) : M (list Z * list socket) :=
  match n with
  | O => ret (ports, sockets)
  | S n' =>
      sock <- _select_socket lower_port upper_port ;;
      port <- sock_getsockname_port sock ;;
      _select_ports_loop n' lower_port upper_port (ports ++ [port]) (sockets ++ [sock])
  end.

(** [_select_ports] *)
Definition _select_ports (count lower_port upper_port : Z) : M (list Z) :=
  r <- _select_ports_loop (Z.to_nat count) lower_port upper_port [] [] ;;
  close_all (snd r) ;;;
  ret (fst r).

(** [prepare_comm_socket] *)
Definition prepare_comm_socket (lower_port upper_port : Z) : M socket :=
  sock <- _select_socket lower_port upper_port ;;
  port <- sock_getsockname_port sock ;;
  logger INFO ("Signal socket bound to host: 0.0.0.0, port: " ++ decimal port) ;;;
  sock_listen sock 1 ;;;
  sock_settimeout sock 5 ;;;
  ret sock.

(** ** The payload codec *)

Definition byte_of_N (n : N) : byte :=
  match Byte.of_N n with
  | Some b => b
  | None => "000"%byte
  end.

(** *** Base64, as [base64.b64encode] and [base64.b64decode] compute it *)

Definition b64_alphabet : list byte :=
  list_byte_of_string
    "ABCDEFGHIJKLMNOPQRSTUVWXYZabcdefghijklmnopqrstuvwxyz0123456789+/".

Definition b64_pad : byte := "="%byte.

Definition b64_char (sextet : N) : byte := nth (N.to_nat sextet) b64_alphabet b64_pad.

Fixpoint index_from (i : N) (c : byte) (l : list byte) : option N :=
  match l with
  | [] => None
  | x :: rest => if Byte.eqb x c then Some i else index_from (N.succ i) c rest
  end.

(** The sextet a character stands for; [None] for a character outside the
    alphabet. *)
Definition b64_index (c : byte) : option N := index_from 0%N c b64_alphabet.

(** Three bytes give four sextets (written with [/] and [mod] for the
    shifts and masks); a last group of one or two bytes is padded with [=]. *)
Fixpoint b64encode (data : list byte) : list byte :=
  match data with
  | [] => []
  | [a] =>
      let a := Byte.to_N a in
      [b64_char (a / 4); b64_char (a mod 4 * 16); b64_pad; b64_pad]
  | [a; b] =>
      let a := Byte.to_N a in
      let b := Byte.to_N b in
      [b64_char (a / 4); b64_char (a mod 4 * 16 + b / 16);
       b64_char (b mod 16 * 4); b64_pad]
  | a :: b :: c :: rest =>
      let a := Byte.to_N a in
      let b := Byte.to_N b in
      let c := Byte.to_N c in
      b64_char (a / 4) :: b64_char (a mod 4 * 16 + b / 16)
        :: b64_char (b mod 16 * 4 + c / 64) :: b64_char (c mod 64)
        :: b64encode rest
  end%N.

(** The decoder's pass over the characters: [quad_pos] counts the sextets
    of the current group, [leftchar] holds the bits not yet written and
    [pads] counts the [=] seen since the last sextet.  Characters outside
    the alphabet are skipped; [None] stands for [binascii.Error]. *)
Fixpoint a2b_base64 (input : list byte) (quad_pos leftchar : N) (pads : N)
    (out : list byte) : option (list byte) :=
  match input with
  | [] => if (quad_pos =? 0)%N then Some out else None
  | this_ch :: rest =>
      if Byte.eqb this_ch b64_pad then
        if (2 <=? quad_pos)%N then
          if (4 <=? quad_pos + (pads + 1))%N then Some out
          else a2b_base64 rest quad_pos leftchar (pads + 1)%N out
        else a2b_base64 rest quad_pos leftchar pads out
      else
        match b64_index this_ch with
        | None => a2b_base64 rest quad_pos leftchar pads out
        | Some v =>
            if (quad_pos =? 0)%N then a2b_base64 rest 1%N v 0%N out
            else if (quad_pos =? 1)%N then
              a2b_base64 rest 2%N (v mod 16)%N 0%N
                (out ++ [byte_of_N (leftchar * 4 + v / 16)%N])
            else if (quad_pos =? 2)%N then
              a2b_base64 rest 3%N (v mod 4)%N 0%N
                (out ++ [byte_of_N (leftchar * 16 + v / 4)%N])
            else
              a2b_base64 rest 0%N 0%N 0%N
                (out ++ [byte_of_N (leftchar * 64 + v)%N])
        end
  end.

Definition b64decode (s : list byte) : option (list byte) :=
  a2b_base64 s 0%N 0%N 0%N [].

(** *** Padding, as [Cryptodome.Util.Padding] computes it (PKCS#7) *)

Definition pad (data_to_pad : list byte) (block_size : nat) : list byte :=
  let padding_len := (block_size - List.length data_to_pad mod block_size)%nat in
  data_to_pad ++ repeat (byte_of_N (N.of_nat padding_len)) padding_len.

Definition unpad (padded_data : list byte) (block_size : nat) : option (list byte) :=
  let pdata_len := List.length padded_data in
  if (pdata_len =? 0)%nat then None
  else if negb (pdata_len mod block_size =? 0)%nat then None
  else
    let last_byte := last padded_data "000"%byte in
    let padding_len := Byte.to_nat last_byte in
    if (padding_len <? 1)%nat || (Nat.min block_size pdata_len <? padding_len)%nat
    then None
    else if forallb (Byte.eqb last_byte) (skipn (pdata_len - padding_len) padded_data)
    then Some (firstn (pdata_len - padding_len) padded_data)
    else None.

(** *** The ciphers

    The block cipher and the public-key cipher are the cryptography
    library's.  [PKCS1_v1_5_encrypt] is given the random bytes that follow
    and says how many it used; [None] stands for [ValueError]. *)
Class CryptoLib : Type := {
  public_key_t : Type;
  private_key_t : Type;
  (** [RSA.importKey(der)] *)
  RSA_importKey : list byte -> option public_key_t;
  (** [PKCS1_v1_5.new(key).encrypt(message)] *)
  PKCS1_v1_5_encrypt : public_key_t -> list byte -> (nat -> byte) -> option (list byte * nat);
  (** [PKCS1_v1_5.new(key).decrypt(ciphertext, sentinel)] *)
  PKCS1_v1_5_decrypt : private_key_t -> list byte -> option (list byte);
  (** AES on one block of 16 bytes under a key *)
  AES_encrypt_block : list byte -> list byte -> list byte;
  AES_decrypt_block : list byte -> list byte -> list byte
}.

(** ECB: each block of 16 bytes goes through the block function on its own. *)
Fixpoint ecb_blocks (f : list byte -> list byte) (n : nat) (data : list byte) : list byte :=
  match n with
  | O => []
  | S n' => f (firstn 16 data) ++ ecb_blocks f n' (skipn 16 data)
  end.

(** [AES.new(key, mode=AES.MODE_ECB).encrypt(data)]: [ValueError] when the
    data is not made of whole blocks. *)
Definition AES_ECB_encrypt `{CryptoLib} (key data : list byte) : option (list byte) :=
  if (List.length data mod 16 =? 0)%nat
  then Some (ecb_blocks (AES_encrypt_block key) (List.length data / 16) data)
  else None.

Definition AES_ECB_decrypt `{CryptoLib} (key data : list byte) : option (list byte) :=
  if (List.length data mod 16 =? 0)%nat
  then Some (ecb_blocks (AES_decrypt_block key) (List.length data / 16) data)
  else None.

(** [get_random_bytes(n)] *)
Definition get_random_bytes (n : nat) : M (list byte) :=
  fun w =>
    (Ret (map (urandom (env w)) (seq (urandom_used w) n)),
     set_urandom_used (urandom_used w + n) w).

Definition or_raise {A} (ex : exn) (o : option A) : M A :=
  match o with
  | Some a => ret a
  | None => raise ex
  end.

Definition LAUNCHER_VERSION : Z := 1.

(** The dictionary [_encrypt] serializes. *)
Definition envelope (encrypted_key b64_connection_info : list byte) : pyval :=
  JDict [("version"%string, JInt LAUNCHER_VERSION);
         ("key"%string, JStr (string_of_list_byte encrypted_key));
         ("conn_info"%string, JStr (string_of_list_byte b64_connection_info))].

(** [_encrypt] *)
Definition _encrypt `{PyLib} `{CryptoLib}
    (connection_info_bytes : list byte) (public_key : string) : M (list byte) :=
  aes_key <- get_random_bytes 16 ;;
  encrypted_connection_info <-
    or_raise ValueError (AES_ECB_encrypt aes_key (pad connection_info_bytes 16)) ;;
  let b64_connection_info := b64encode encrypted_connection_info in
  der <- or_raise binascii_Error (b64decode (list_byte_of_string public_key)) ;;
  imported_public_key <- or_raise ValueError (RSA_importKey der) ;;
  wrapped <-
    (fun w =>
       match PKCS1_v1_5_encrypt imported_public_key aes_key
               (fun i => urandom (env w) (urandom_used w + i)) with
       | Some (ciphertext, used) =>
           (Ret ciphertext, set_urandom_used (urandom_used w + used) w)
       | None => (Raise ValueError, w)
       end) ;;
  let encrypted_key := b64encode wrapped in
  let payload := envelope encrypted_key b64_connection_info in
  ret (b64encode (list_byte_of_string (json_dumps payload))).

(** ** Text *)

Definition continuation (b : byte) : bool :=
  let n := Byte.to_N b in ((128 <=? n) && (n <=? 191))%N.

Definition between (lo hi : N) (b : byte) : bool :=
  let n := Byte.to_N b in ((lo <=? n) && (n <=? hi))%N.

(** Well-formed UTF-8: the shortest encoding of each code point, no
    surrogates, nothing above U+10FFFF. *)
Fixpoint utf8_valid (l : list byte) : bool :=
  match l with
  | [] => true
  | b0 :: rest =>
      let n := Byte.to_N b0 in
      if (n <=? 127)%N then utf8_valid rest
      else if ((194 <=? n) && (n <=? 223))%N then
        match rest with
        | b1 :: rest1 => continuation b1 && utf8_valid rest1
        | _ => false
        end
      else if ((224 <=? n) && (n <=? 239))%N then
        match rest with
        | b1 :: b2 :: rest2 =>
            (if (n =? 224)%N then between 160 191 b1
             else if (n =? 237)%N then between 128 159 b1
             else continuation b1)
            && continuation b2 && utf8_valid rest2
        | _ => false
        end
      else if ((240 <=? n) && (n <=? 244))%N then
        match rest with
        | b1 :: b2 :: b3 :: rest3 =>
            (if (n =? 240)%N then between 144 191 b1
             else if (n =? 244)%N then between 128 143 b1
             else continuation b1)
            && continuation b2 && continuation b3 && utf8_valid rest3
        | _ => false
        end
      else false
  end.

(** [buffer.decode("utf-8")] *)
Definition decode_utf8 (buffer : list byte) : M string :=
  if utf8_valid buffer then ret (string_of_list_byte buffer)
  else raise UnicodeDecodeError.

(** [s.split(sep)] for a separator of one character. *)
Fixpoint split (sep : ascii) (s : string) : list string :=
  match s with
  | EmptyString => [EmptyString]
  | String c rest =>
      if Ascii.eqb c sep then EmptyString :: split sep rest
      else
        match split sep rest with
        | part :: parts => String c part :: parts
        | [] => [String c EmptyString]
        end
  end.

(** ** The handshake *)

(** [with open(connection_file) as fp: cf_json = json.load(fp)] *)
Definition load_connection_file `{PyLib} (connection_file : string) : M pyval :=
  text <- (fun w =>
             match files (env w) connection_file with
             | Some text => (Ret text, w)
             | None => (Raise FileNotFoundError, w)
             end) ;;
  or_raise JSONDecodeError (json_loads text).

(** [cf_json[key] = value]: only a dictionary takes the assignment. *)
Definition setitem (cf_json : pyval) (key : string) (value : pyval) : M pyval :=
  match cf_json with
  | JDict d => ret (JDict (dict_set key value d))
  | _ => raise TypeError
  end.

(** [s.connect((host, port))] *)
Definition sock_connect (s : socket) (host : string) (port : Z) : M unit :=
  fun w =>
    let failure := connect_outcome (env w) host port in
    (match failure with None => Ret tt | Some ex => Raise ex end,
     emit (EvConnect (fileno s) host port failure) w).

(** [s.send(payload)] *)
Definition sock_send (s : socket) (payload : list byte) : M unit :=
  fun w =>
    match send_outcome (env w) payload with
    | None => (Ret tt, emit (EvSend (fileno s) payload) w)
    | Some ex => (Raise ex, w)
    end.

(** [with socket.socket(...) as s: body]: the socket is closed when the
    block is left, also by an exception. *)
Definition with_socket {A} (body : socket -> M A) : M A :=
  s <- socket_socket ;;
  r <- try (body s) ;;
  close_fileno (fileno s) ;;;
  match r with
  | inr a => ret a
  | inl ex => raise ex
  end.

(** [return_connection_info]; the result is [None] where the function
    returns without a value. *)
Definition return_connection_info `{PyLib} `{CryptoLib}
    (connection_file response_addr : string) (lower_port upper_port : Z)
    (kernel_id public_key : string) : M (option socket) :=
  let response_parts := split ":" response_addr in
  if negb (List.length response_parts =? 2)%nat then
    logger ERROR
      ("Invalid format for response address '" ++ response_addr
         ++ "'. Assuming 'pull' mode...") ;;;
    ret None
  else
    let response_ip := nth 0 response_parts EmptyString in
    match int_of_str (nth 1 response_parts EmptyString) with
    | None =>
        logger ERROR
          ("Invalid port component found in response address '" ++ response_addr
             ++ "'. Assuming 'pull' mode...") ;;;
        ret None
    | Some response_port =>
        cf_json <- load_connection_file connection_file ;;
        pid <- ask own_pid ;;
        cf_json <- setitem cf_json "pid" (JInt pid) ;;
        pgid <- ask own_pgid ;;
        cf_json <- setitem cf_json "pgid" (JInt pgid) ;;
        comm_sock <- prepare_comm_socket lower_port upper_port ;;
        comm_port <- sock_getsockname_port comm_sock ;;
        cf_json <- setitem cf_json "comm_port" (JInt comm_port) ;;
        cf_json <- setitem cf_json "kernel_id" (JStr kernel_id) ;;
        with_socket (fun s =>
          sock_connect s response_ip response_port ;;;
          let json_content := list_byte_of_string (json_dumps cf_json) in
          logger DEBUG "JSON Payload" ;;;
          payload <- _encrypt json_content public_key ;;
          logger DEBUG "Encrypted Payload" ;;;
          sock_send s payload) ;;;
        ret (Some comm_sock)
    end.

(** ** The control listener *)

(** The [while True] loop of [get_server_request]: one pass per [recv]. *)
Fixpoint drain_connection `{PyLib} (conn : nat) (received : list recv_outcome)
    (data : string) : M pyval :=
  let send_is_complete : M pyval :=
    if (0 <? String.length data)%nat then or_raise JSONDecodeError (json_loads data)
    else
      logger INFO "DEBUG: get_server_request: no data received - returning None" ;;;
      ret JNull in
  match received with
  | [] =>
      record (EvRecv conn (RecvBytes [])) ;;;
      send_is_complete
  | RecvRaises ex :: _ =>
      record (EvRecv conn (RecvRaises ex)) ;;;
      raise ex
  | RecvBytes buffer :: rest =>
      record (EvRecv conn (RecvBytes buffer)) ;;;
      match buffer with
      | [] => send_is_complete
      | _ =>
          logger INFO "DEBUG: get_server_request: received buffer" ;;;
          text <- decode_utf8 buffer ;;
          drain_connection conn rest (data ++ text)%string
      end
  end.

(** The [except] clause of [get_server_request]: a timeout leaves
    [request_info] as it was, [None]; anything else is raised again. *)
Definition except_clause (ex : exn) : M pyval :=
  if negb (is_socket_timeout ex) then raise ex else ret JNull.

(** [get_server_request]; the result is [JNull] where it is [None]. *)
Definition get_server_request `{PyLib} (sock : option socket) : M pyval :=
  logger INFO "DEBUG: get_server_request: waiting for socket accept" ;;;
  accepted <- try (sock_accept sock) ;;
  match accepted with
  | inl ex => except_clause ex
  | inr conn =>
      drained <- try (logger INFO "DEBUG: get_server_request: socket accepted" ;;;
                      drain_connection (conn_fileno conn) (incoming conn) EmptyString) ;;
      close_fileno (conn_fileno conn) ;;;
      match drained with
      | inl ex => except_clause ex
      | inr request_info => ret request_info
      end
  end.

(** [request.get(key)] *)
Definition request_get (request : pyval) (key : string) : M pyval :=
  match request with
  | JDict d =>
      ret (match dict_get key d with
           | Some v => v
           | None => JNull
           end)
  | _ => raise AttributeError
  end.

Definition is_None (v : pyval) : bool :=
  match v with
  | JNull => true
  | _ => false
  end.

Definition lift {A} (r : exn + A) : M A :=
  match r with
  | inr a => ret a
  | inl ex => raise ex
  end.

(** The body of [if request:] in [server_listener]; the result is the new
    value of [shutdown]. *)
Definition process_request `{PyLib} (request : pyval) (parent_pid : Z)
    (cluster_type : option string) : M bool :=
  let signum := -1 in
  field <- request_get request "signum" ;;
  signum <-
    (if negb (is_None field) then
       field <- request_get request "signum" ;;
       signum <- lift (py_int field) ;;
       os_kill parent_pid signum ;;;
       (if (signum =? 2)
           && match cluster_type with
              | Some t => String.eqb t "spark"
              | None => false
              end
        then os_kill parent_pid SIGUSR2
        else ret tt) ;;;
       ret signum
     else ret signum) ;;
  field <- request_get request "shutdown" ;;
  shutdown <-
    (if negb (is_None field) then
       field <- request_get request "shutdown" ;;
       ret (truthy field)
     else ret false) ;;
  (if negb (signum =? 0) then logger INFO "server_listener got request"
   else ret tt) ;;;
  ret shutdown.

(** The [while not shutdown] loop of [server_listener]; [fuel] bounds the
    number of passes. *)
Fixpoint listener_loop `{PyLib} (fuel : nat) (comm_socket : option socket)
    (parent_pid : Z) (cluster_type : option string) : M unit :=
  match fuel with
  | O => fun w => (OutOfFuel, w)
  | S fuel' =>
      request <- get_server_request comm_socket ;;
      shutdown <-
        (if truthy request then process_request request parent_pid cluster_type
         else ret false) ;;
      if shutdown then ret tt
      else listener_loop fuel' comm_socket parent_pid cluster_type
  end.

(** What the interpreter does to a socket when the last reference to it
    goes away: the object is finalised, which closes the socket. *)
Definition finalize (sock : option socket) : M unit :=
  match sock with
  | Some s => close_fileno (fileno s)
  | None => ret tt
  end.

(** [server_listener]: each pass of the loop takes one arrival or ends the
    call, so one pass more than there are arrivals is enough.  When the
    loop is left by a request to shut down the function returns: its local
    [comm_socket] held the only reference to the control socket, which is
    finalised. *)
Definition server_listener `{PyLib} `{CryptoLib}
    (connection_file response_addr : string) (lower_port upper_port : Z)
    (kernel_id public_key : string) (parent_pid : Z)
    (cluster_type : option string) : M unit :=
  comm_socket <-
    return_connection_info connection_file response_addr lower_port upper_port
      kernel_id public_key ;;
  (fun w =>
     listener_loop (S (List.length (arrivals w))) comm_socket parent_pid cluster_type w) ;;;
  finalize comm_socket.

(** ** The controller's side of the codec *)

Definition obind {A B} (o : option A) (k : A -> option B) : option B :=
  match o with
  | Some a => k a
  | None => None
  end.

(** Modelled from the spec: the decryption that the server performs (the
    test-only decrypt helper), which the script does not contain.  It
    base64-decodes the envelope, parses the JSON object with the fields
    [version], [key] and [conn_info], unwraps the AES key with the private
    key, decrypts [conn_info] with it and removes the padding. *)
Definition decrypt `{PyLib} `{CryptoLib} (payload : list byte)
    (private_key : private_key_t) : option (list byte) :=
  obind (b64decode payload) (fun text =>
  obind (json_loads (string_of_list_byte text)) (fun parsed =>
  match parsed with
  | JDict d =>
      match dict_get "version" d, dict_get "key" d, dict_get "conn_info" d with
      | Some _, Some (JStr key), Some (JStr conn_info) =>
          obind (b64decode (list_byte_of_string key)) (fun wrapped =>
          obind (PKCS1_v1_5_decrypt private_key wrapped) (fun aes_key =>
          obind (b64decode (list_byte_of_string conn_info)) (fun encrypted =>
          obind (AES_ECB_decrypt aes_key encrypted) (fun padded =>
          unpad padded 16))))
      | _, _, _ => None
      end
  | _ => None
  end)).

(** ** What the properties speak of *)

Arguments port_range_message : simpl never.

Definition emit_all (events : list event) (w : World) : World :=
  fold_left (fun w e => emit e w) events w.

(** The calls of [bind] in a trace. *)
Fixpoint bind_attempts (t : list event) : nat :=
  match t with
  | [] => 0
  | EvBind _ _ _ :: rest => S (bind_attempts rest)
  | _ :: rest => bind_attempts rest
  end.

(** A bind to [port] fails on every unbound socket. *)
Definition unbindable (w : World) (port : Z) : bool :=
  (port <? 0) || (65535 <? port)
  || match grant_port w port with Some _ => false | None => true end.

(** The ports [_get_candidate_port] can return for a range. *)
Definition candidate (lower_port upper_port port : Z) : Prop :=
  if upper_port - lower_port =? 0 then port = 0
  else lower_port <= port <= upper_port.

(** The signals delivered, in order. *)
Fixpoint delivered (t : list event) : list (Z * Z) :=
  match t with
  | [] => []
  | EvKill pid signum None :: rest => (pid, signum) :: delivered rest
  | _ :: rest => delivered rest
  end.

(** The signals whose delivery failed, in order. *)
Fixpoint undelivered (t : list event) : list (Z * Z * exn) :=
  match t with
  | [] => []
  | EvKill pid signum (Some ex) :: rest => (pid, signum, ex) :: undelivered rest
  | _ :: rest => undelivered rest
  end.

(** The connections accepted. *)
Fixpoint accepts (t : list event) : nat :=
  match t with
  | [] => 0
  | EvAccept _ _ :: rest => S (accepts rest)
  | _ :: rest => accepts rest
  end.

(** The outbound connections attempted. *)
Fixpoint connects (t : list event) : nat :=
  match t with
  | [] => 0
  | EvConnect _ _ _ _ :: rest => S (connects rest)
  | _ :: rest => connects rest
  end.

(** The text a connection delivers in the given chunks. *)
Definition request_text (chunks : list (list byte)) : string :=
  fold_right (fun b text => (string_of_list_byte b ++ text)%string) EmptyString chunks.

(** A chunk as [recv] returns it while the peer is sending: not empty, and
    decodable on its own. *)
Definition sound_chunk (buffer : list byte) : Prop :=
  buffer <> [] /\ utf8_valid buffer = true.

Definition received_buffer_events (conn : nat) (chunks : list (list byte)) : list event :=
  flat_map (fun b => [EvRecv conn (RecvBytes b);
                      EvLog INFO "DEBUG: get_server_request: received buffer"]) chunks.

(** What [get_server_request] does once the peer has closed its side. *)
Definition send_is_complete `{PyLib} (data : string) : M pyval :=
  if (0 <? String.length data)%nat then or_raise JSONDecodeError (json_loads data)
  else
    logger INFO "DEBUG: get_server_request: no data received - returning None" ;;;
    ret JNull.

(** What [get_server_request] returns for the text a peer has sent. *)
Definition request_of `{PyLib} (text : string) : outcome pyval :=
  if (0 <? String.length text)%nat then
    match json_loads text with
    | Some v => Ret v
    | None => Raise JSONDecodeError
    end
  else Ret JNull.

(** The events of one call of [get_server_request] that accepts a
    connection [conn] delivering [chunks]. *)
Definition connection_events (listener conn : nat) (chunks : list (list byte))
  : list event :=
  [EvLog INFO "DEBUG: get_server_request: waiting for socket accept";
   EvAccept listener conn;
   EvLog INFO "DEBUG: get_server_request: socket accepted"]
  ++ received_buffer_events conn chunks
  ++ [EvRecv conn (RecvBytes [])]
  ++ (if (0 <? String.length (request_text chunks))%nat then []
      else [EvLog INFO "DEBUG: get_server_request: no data received - returning None"])
  ++ [EvClose conn].

(** [d.get(key)] *)
Definition field (key : string) (d : pydict) : pyval :=
  match dict_get key d with
  | Some v => v
  | None => JNull
  end.

(** [cluster_type == "spark"] *)
Definition is_spark (cluster_type : option string) : bool :=
  match cluster_type with
  | Some t => String.eqb t "spark"
  | None => false
  end.

(** The addresses for which [return_connection_info] assumes pull mode. *)
Definition pull_mode `{PyLib} (response_addr : string) : Prop :=
  let response_parts := split ":" response_addr in
  List.length response_parts <> 2%nat
  \/ int_of_str (nth 1 response_parts EmptyString) = None.

(** The dictionary of the connection file after the four assignments of
    [return_connection_info]. *)
Definition add_launcher_fields (cf_json : pydict) (pid pgid comm_port : Z)
    (kernel_id : string) : pydict :=
  dict_set "kernel_id" (JStr kernel_id)
    (dict_set "comm_port" (JInt comm_port)
       (dict_set "pgid" (JInt pgid)
          (dict_set "pid" (JInt pid) cf_json))).

Definition launcher_fields : list string :=
  ["pid"; "pgid"; "comm_port"; "kernel_id"]%string.

(** A computation that ends (it returns or raises) and leaves the arrivals
    alone. *)
Definition ends_quietly {A} (m : M A) : Prop :=
  forall w,
    fst (m w) <> Blocked /\ fst (m w) <> OutOfFuel
    /\ arrivals (snd (m w)) = arrivals w.

(** A computation that ends: it returns or raises. *)
Definition ends {A} (m : M A) : Prop :=
  forall w, fst (m w) <> Blocked /\ fst (m w) <> OutOfFuel.

(** ** A small instance of the libraries

    Enough of [int], [json] and the ciphers to run the model on concrete
    inputs: decimal integers, JSON objects whose values are integers,
    strings, booleans or null, and stand-ins for the two ciphers. *)
Module Sample.

Definition dquote : ascii := ascii_of_nat 34.
Definition backslash : ascii := ascii_of_nat 92.

Definition is_space (c : ascii) : bool :=
  Ascii.eqb c " " || Ascii.eqb c "009" || Ascii.eqb c "010" || Ascii.eqb c "013".

Definition is_digit (c : ascii) : bool :=
  let n := N_of_ascii c in ((48 <=? n) && (n <=? 57))%N.

Fixpoint lstrip (s : string) : string :=
  match s with
  | String c rest => if is_space c then lstrip rest else s
  | EmptyString => s
  end.

Fixpoint rstrip (s : string) : string :=
  match s with
  | EmptyString => EmptyString
  | String c rest =>
      match rstrip rest with
      | EmptyString => if is_space c then EmptyString else String c EmptyString
      | kept => String c kept
      end
  end.

Fixpoint digits_value (s : string) (acc : Z) : option Z :=
  match s with
  | EmptyString => Some acc
  | String c rest =>
      if is_digit c then digits_value rest (acc * 10 + Z.of_N (N_of_ascii c - 48))
      else None
  end.

Definition natural (s : string) : option Z :=
  match s with
  | EmptyString => None
  | _ => digits_value s 0
  end.

(** [int(s)] for an optional sign and decimal digits between blanks. *)
Definition int_of_str (s : string) : option Z :=
  match rstrip (lstrip s) with
  | String "-" rest => option_map Z.opp (natural rest)
  | String "+" rest => natural rest
  | digits => natural digits
  end.

Definition quote (s : string) : string :=
  String dquote (s ++ String dquote EmptyString).

(** The characters up to the closing quote; an escape or a control
    character is outside the sample. *)
Fixpoint scan_string (s : string) : option (string * string) :=
  match s with
  | EmptyString => None
  | String c rest =>
      if Ascii.eqb c dquote then Some (EmptyString, rest)
      else if Ascii.eqb c backslash || (N_of_ascii c <? 32)%N then None
      else
        match scan_string rest with
        | Some (text, rest') => Some (String c text, rest')
        | None => None
        end
  end.

Fixpoint span_digits (s : string) : string * string :=
  match s with
  | String c rest =>
      if is_digit c then
        let (digits, rest') := span_digits rest in (String c digits, rest')
      else (EmptyString, s)
  | EmptyString => (EmptyString, EmptyString)
  end.

Definition starts_fraction (s : string) : bool :=
  match s with
  | String c _ => Ascii.eqb c "." || Ascii.eqb c "e" || Ascii.eqb c "E"
  | EmptyString => false
  end.

(** An integer literal: no leading zero, no fraction or exponent after. *)
Definition scan_integer (s : string) : option (Z * string) :=
  let (negative, body) :=
    match s with
    | String "-" rest => (true, rest)
    | _ => (false, s)
    end in
  let (digits, rest) := span_digits body in
  match digits with
  | EmptyString => None
  | String "0" (String _ _) => None
  | _ =>
      if starts_fraction rest then None
      else
        match digits_value digits 0 with
        | Some n => Some (if negative then - n else n, rest)
        | None => None
        end
  end.

Fixpoint strip_prefix (prefix s : string) : option string :=
  match prefix, s with
  | EmptyString, _ => Some s
  | String p prefix', String c rest =>
      if Ascii.eqb p c then strip_prefix prefix' rest else None
  | String _ _, EmptyString => None
  end.

(** A value that is not an object or an array. *)
Definition scan_scalar (s : string) : option (pyval * string) :=
  match s with
  | String c rest =>
      if Ascii.eqb c dquote then
        match scan_string rest with
        | Some (text, rest') => Some (JStr text, rest')
        | None => None
        end
      else
        match strip_prefix "true" s, strip_prefix "false" s, strip_prefix "null" s with
        | Some rest', _, _ => Some (JBool true, rest')
        | _, Some rest', _ => Some (JBool false, rest')
        | _, _, Some rest' => Some (JNull, rest')
        | _, _, _ =>
            match scan_integer s with
            | Some (n, rest') => Some (JInt n, rest')
            | None => None
            end
        end
  | EmptyString => None
  end.

(** The members of an object, from the first key on; a key given twice
    keeps its place and takes the later value. *)
Fixpoint scan_members (fuel : nat) (s : string) (members : pydict)
  : option (pydict * string) :=
  match fuel with
  | O => None
  | S fuel' =>
      match lstrip s with
      | String c rest =>
          if Ascii.eqb c dquote then
            match scan_string rest with
            | Some (key, rest) =>
                match lstrip rest with
                | String ":" rest =>
                    match scan_scalar (lstrip rest) with
                    | Some (value, rest) =>
                        let members := dict_set key value members in
                        match lstrip rest with
                        | String "," rest => scan_members fuel' rest members
                        | String "}" rest => Some (members, rest)
                        | _ => None
                        end
                    | None => None
                    end
                | _ => None
                end
            | None => None
            end
          else None
      | EmptyString => None
      end
  end.

Definition scan_value (s : string) : option (pyval * string) :=
  match s with
  | String "{" rest =>
      match lstrip rest with
      | String "}" rest' => Some (JDict [], rest')
      | _ =>
          match scan_members (String.length rest) rest [] with
          | Some (members, rest') => Some (JDict members, rest')
          | None => None
          end
      end
  | _ => scan_scalar s
  end.

(** [json.loads(s)] on the texts of the sample. *)
Definition json_loads (s : string) : option pyval :=
  match scan_value (lstrip s) with
  | Some (v, rest) =>
      match lstrip rest with
      | EmptyString => Some v
      | _ => None
      end
  | None => None
  end.

Definition dumps_scalar (v : pyval) : string :=
  match v with
  | JNull => "null"
  | JBool true => "true"
  | JBool false => "false"
  | JInt n => decimal n
  | JStr s => quote s
  | _ => "null"
  end.

Fixpoint dumps_members (members : pydict) : string :=
  match members with
  | [] => EmptyString
  | [(k, v)] => quote k ++ ": " ++ dumps_scalar v
  | (k, v) :: rest => quote k ++ ": " ++ dumps_scalar v ++ ", " ++ dumps_members rest
  end.

(** [json.dumps(v)] on the values of the sample. *)
Definition json_dumps (v : pyval) : string :=
  match v with
  | JDict members => "{" ++ dumps_members members ++ "}"
  | _ => dumps_scalar v
  end.

(** Linux numbers [SIGUSR2] 12. *)
Definition python : PyLib :=
  Build_PyLib int_of_str json_loads json_dumps 12.

Definition xor_byte (a b : byte) : byte :=
  byte_of_N (N.lxor (Byte.to_N a) (Byte.to_N b)).

Fixpoint xor_bytes (block key : list byte) : list byte :=
  match block, key with
  | b :: block', k :: key' => xor_byte b k :: xor_bytes block' key'
  | _, _ => block
  end.

(** Stand-ins for the ciphers: a block is combined with the key byte by
    byte, and a key is wrapped by writing the public key in front of it. *)
Definition crypto : CryptoLib :=
  {| public_key_t := list byte;
     private_key_t := list byte;
     RSA_importKey := fun der => Some der;
     PKCS1_v1_5_encrypt := fun key message _ => Some (key ++ message, 0%nat);
     PKCS1_v1_5_decrypt := fun key ciphertext =>
       if forallb (fun p => Byte.eqb (fst p) (snd p))
            (combine key (firstn (List.length key) ciphertext))
          && (List.length key <=? List.length ciphertext)%nat
       then Some (skipn (List.length key) ciphertext)
       else None;
     AES_encrypt_block := fun key block => xor_bytes block key;
     AES_decrypt_block := fun key block => xor_bytes block key |}.

(** A text that [scan_string] reads to its end: no quote, no backslash,
    no control character. *)
Definition plain_char (c : ascii) : bool :=
  negb (Ascii.eqb c dquote)
  && negb (Ascii.eqb c backslash || (N_of_ascii c <? 32)%N).

Fixpoint plain (s : string) : bool :=
  match s with
  | EmptyString => true
  | String c rest => plain_char c && plain rest
  end.

End Sample.

(** ** Scenarios

    Concrete worlds on which the model is run: a host with free ports, a
    server at 10.0.0.5:8877 that accepts the push, and a supervised kernel
    process 1000. *)
Module Scenario.

Definition interrupt_request : string :=
  ("{" ++ Sample.quote "signum" ++ ": 2}")%string.

Definition terminate_request : string :=
  ("{" ++ Sample.quote "signum" ++ ": 15}")%string.

Definition shutdown_request : string :=
  ("{" ++ Sample.quote "shutdown" ++ ": true}")%string.

Definition malformed_request : string :=
  ("{" ++ Sample.quote "signum" ++ ": ")%string.

Definition connection_file_text : string :=
  ("{" ++ Sample.quote "shell_port" ++ ": 51001, "
       ++ Sample.quote "iopub_port" ++ ": 51002, "
       ++ Sample.quote "stdin_port" ++ ": 51003, "
       ++ Sample.quote "hb_port" ++ ": 51004, "
       ++ Sample.quote "control_port" ++ ": 51005, "
       ++ Sample.quote "ip" ++ ": " ++ Sample.quote "0.0.0.0" ++ ", "
       ++ Sample.quote "key" ++ ": " ++ Sample.quote "5c1f7d2e-9a4b" ++ "}")%string.

Definition public_key : string := "c2VjcmV0LWtleQ==".

Definition connection (text : string) : accept_event :=
  AcceptConnection [RecvBytes (list_byte_of_string text)].

Definition supervised : Z := 1000.

Definition host (foreign : list Z) (draws : nat -> Z)
    (kill : Z -> Z -> option exn) : Env :=
  {| max_port_range_retries := 5;
     own_pid := 4242;
     own_pgid := 4200;
     files := fun path =>
                if String.eqb path "/tmp/kernel.json" then Some connection_file_text
                else None;
     foreign_ports := foreign;
     ephemeral_ports := [49152; 49153; 49154; 49155; 49156];
     randint_draws := draws;
     urandom := fun i => byte_of_N (N.of_nat (i mod 256));
     connect_outcome := fun host port =>
                          if String.eqb host "10.0.0.5" && (port =? 8877) then None
                          else Some ConnectionRefusedError;
     send_outcome := fun _ => None;
     kill_outcome := kill |}.

Definition alive (pid signum : Z) : option exn :=
  if pid =? supervised then None else Some ProcessLookupError.

Definition gone (pid signum : Z) : option exn := Some ProcessLookupError.

(** The state of a process that has opened nothing yet. *)
Definition fresh (e : Env) (arrivals : list accept_event) : World :=
  {| env := e; draws_used := 0; urandom_used := 0; open_sockets := [];
     next_fileno := 3; arrivals := arrivals; trace := [] |}.

(** The state once the control socket 3 listens on port 5000. *)
Definition listening (e : Env) (arrivals : list accept_event) : World :=
  {| env := e; draws_used := 1; urandom_used := 0; open_sockets := [(3%nat, Some 5000)];
     next_fileno := 4; arrivals := arrivals; trace := [] |}.

Definition control_socket : socket := {| fileno := 3 |}.

(** [server_listener] as the launcher starts it. *)
Definition serve (response_addr : string) (cluster_type : option string) : M unit :=
  @server_listener Sample.python Sample.crypto "/tmp/kernel.json" response_addr
    5000 5001 "kernel-1" public_key supervised cluster_type.

End Scenario.

(** ** What the further properties speak of *)

(** The calls of [close] in a trace. *)
Fixpoint closes (t : list event) : nat :=
  match t with
  | [] => 0
  | EvClose _ :: rest => S (closes rest)
  | _ :: rest => closes rest
  end.

(** The descriptors of the open sockets are among those handed out so
    far: the next one is new. *)
Definition descriptors_allocated (w : World) : Prop :=
  Forall (fun s => (fst s < next_fileno w)%nat) (open_sockets w).

(** The candidate port of the attempt that follows [i] earlier ones, for a
    range of more than one port. *)
Definition drawn_port (w : World) (lower_port upper_port : Z) (i : nat) : Z :=
  lower_port
  + randint_draws (env w) (draws_used w + i) mod (upper_port - lower_port + 1).

(** An arrival that brings no request: the timeout of [accept], or a peer
    that closes its side without having sent anything. *)
Definition idle (a : accept_event) : bool :=
  match a with
  | AcceptTimeout => true
  | AcceptConnection [] => true
  | AcceptConnection (RecvBytes [] :: _) => true
  | _ => false
  end.

(** The signals that the listener sends for the requested ones, in order:
    each signal, and [SIGUSR2] after each signal 2 under the spark
    profile. *)
Definition relayed `{PyLib} (parent_pid : Z) (cluster_type : option string)
    (signums : list Z) : list (Z * Z) :=
  flat_map (fun signum =>
              (parent_pid, signum)
              :: (if (signum =? 2) && is_spark cluster_type
                  then [(parent_pid, SIGUSR2)] else []))
    signums.

(** A connection that delivers, in sound chunks, a request to send
    [signum] and not to shut down, on a host where the signals reach the
    process. *)
Definition signal_request `{PyLib} (e : Env) (parent_pid : Z)
    (cluster_type : option string) (r : list (list byte) * Z) : Prop :=
  Forall sound_chunk (fst r) /\ fst r <> []
  /\ exists d v,
      json_loads (request_text (fst r)) = Some (JDict d)
      /\ dict_get "signum" d = Some v
      /\ is_None v = false
      /\ py_int v = inr (snd r)
      /\ truthy (field "shutdown" d) = false
      /\ kill_outcome e parent_pid (snd r) = None
      /\ ((snd r =? 2) && is_spark cluster_type = true ->
          kill_outcome e parent_pid SIGUSR2 = None).

(** The requests that [server_listener] has logged. *)
Fixpoint logged_requests (t : list event) : nat :=
  match t with
  | [] => 0
  | EvLog INFO msg :: rest =>
      if String.eqb msg "server_listener got request" then S (logged_requests rest)
      else logged_requests rest
  | _ :: rest => logged_requests rest
  end.

(** The colons of an address. *)
Fixpoint colons (s : string) : nat :=
  match s with
  | EmptyString => 0
  | String c rest => if Ascii.eqb c ":" then S (colons rest) else colons rest
  end.

(** Further requests for the scenarios. *)
Definition poll_request : string :=
  ("{" ++ Sample.quote "signum" ++ ": 0}")%string.

Definition empty_request : string := "{}".

Definition number_request : string := "7".

Definition worded_signal_request : string :=
  ("{" ++ Sample.quote "signum" ++ ": " ++ Sample.quote "abc" ++ "}")%string.

Definition worded_shutdown_request : string :=
  ("{" ++ Sample.quote "shutdown" ++ ": " ++ Sample.quote "false" ++ "}")%string.

(** A computation that does nothing but leave events in the trace. *)
Definition only_emits {A} (m : M A) : Prop :=
  forall w, exists o events, m w = (o, emit_all events w).

(** * Properties *)

(** ** The port allocator *)

Lemma bind_attempts_app (t u : list event) :
  bind_attempts (t ++ u) = (bind_attempts t + bind_attempts u)%nat.
Proof.
  induction t as [|e t IH]; simpl; [reflexivity|].
  destruct e; simpl; rewrite IH; reflexivity.
Qed.

Lemma holds_port_unbound (p : Z) (fd : nat) : holds_port p (fd, None) = false.
Proof. reflexivity. Qed.

Lemma port_in_use_emit (e : event) (w : World) (p : Z) :
  port_in_use (emit e w) p = port_in_use w p.
Proof. reflexivity. Qed.

Lemma grant_port_ext (w w' : World) (port : Z) :
  env w' = env w ->
  (forall p, port_in_use w' p = port_in_use w p) ->
  grant_port w' port = grant_port w port.
Proof.
  intros He Hu. unfold grant_port. rewrite He, Hu.
  destruct (port =? 0); [|reflexivity].
  induction (ephemeral_ports (env w)) as [|q l IH]; simpl; [reflexivity|].
  rewrite Hu, IH. reflexivity.
Qed.

Lemma unbindable_ext (w w' : World) (port : Z) :
  env w' = env w ->
  (forall p, port_in_use w' p = port_in_use w p) ->
  unbindable w' port = unbindable w port.
Proof.
  intros He Hu. unfold unbindable. rewrite (grant_port_ext _ _ port He Hu). reflexivity.
Qed.

Lemma sock_bind_unbindable (sock : socket) (port : Z) (w : World) :
  unbindable w port = true ->
  exists ex, sock_bind sock port w = (Raise ex, emit (EvBind (fileno sock) port None) w).
Proof.
  unfold unbindable, sock_bind. intros H.
  destruct ((port <? 0) || (65535 <? port)) eqn:Hr; simpl in *.
  - eexists; reflexivity.
  - destruct (socket_entry (fileno sock) (open_sockets w)) as [[q|]|];
      try (eexists; reflexivity).
    destruct (grant_port w port); [discriminate|]. eexists; reflexivity.
Qed.

Lemma get_candidate_port_candidate (lower upper : Z) (w : World) :
  lower <= upper ->
  exists port w',
    _get_candidate_port lower upper w = (Ret port, w') /\ candidate lower upper port
    /\ env w' = env w /\ open_sockets w' = open_sockets w /\ trace w' = trace w.
Proof.
  intros Hle. unfold _get_candidate_port, candidate.
  destruct (upper - lower =? 0) eqn:Hz.
  - exists 0, w. repeat split.
  - unfold random_randint. destruct (upper <? lower) eqn:Hlt; [lia|].
    eexists _, _. split; [reflexivity|]. repeat split; simpl.
    + pose proof (Z.mod_pos_bound (randint_draws (env w) (draws_used w)) (upper - lower + 1)).
      lia.
    + pose proof (Z.mod_pos_bound (randint_draws (env w) (draws_used w)) (upper - lower + 1)).
      lia.
Qed.

Lemma grant_port_free (w : World) (port p : Z) :
  grant_port w port = Some p -> port_in_use w p = false.
Proof.
  unfold grant_port. destruct (port =? 0).
  - intros H. apply find_some in H. destruct H as [_ H].
    now apply negb_true_iff in H.
  - destruct (port_in_use w port) eqn:Hu; [discriminate|].
    intros H. now inversion H; subst.
Qed.

Lemma grant_port_nonzero (w : World) (port p : Z) :
  grant_port w port = Some p -> port <> 0 -> p = port.
Proof.
  unfold grant_port. destruct (port =? 0) eqn:Hz; [lia|].
  destruct (port_in_use w port); [discriminate|]. intros H _. now inversion H.
Qed.

Lemma holds_port_set_socket_port (fd : nat) (p q : Z) (l : list (nat * option Z)) :
  socket_entry fd l = Some None ->
  existsb (holds_port q) (set_socket_port fd p l)
  = existsb (holds_port q) l || (q =? p).
Proof.
  induction l as [|[fd' e] l IH]; simpl; [discriminate|].
  destruct (Nat.eqb fd' fd) eqn:Hfd.
  - intros H. inversion H; subst. simpl. unfold holds_port at 1 3. simpl.
    now rewrite orb_comm.
  - intros H. simpl. rewrite (IH H). now rewrite orb_assoc.
Qed.

Lemma socket_entry_set_socket_port (fd : nat) (p : Z) (l : list (nat * option Z)) :
  socket_entry fd l = Some None ->
  socket_entry fd (set_socket_port fd p l) = Some (Some p).
Proof.
  induction l as [|[fd' e] l IH]; simpl; [discriminate|].
  destruct (Nat.eqb fd' fd) eqn:Hfd; simpl; rewrite Hfd; auto.
Qed.

(** One pass of the loop of [_select_socket]: the candidate is bound, or the
    pass fails and leaves the sockets as they were. *)
Lemma bind_attempt_cases (sock : socket) (lower upper : Z) (w : World) :
  (exists port p w',
      try (port <- _get_candidate_port lower upper ;; sock_bind sock port) w
      = (Ret (inr tt), w')
      /\ grant_port w port = Some p
      /\ socket_entry (fileno sock) (open_sockets w) = Some None
      /\ open_sockets w' = set_socket_port (fileno sock) p (open_sockets w)
      /\ env w' = env w
      /\ bind_attempts (trace w') = S (bind_attempts (trace w))
      /\ (upper - lower <> 0 -> lower <= port <= upper))
  \/ (exists ex w',
      try (port <- _get_candidate_port lower upper ;; sock_bind sock port) w
      = (Ret (inl ex), w')
      /\ env w' = env w
      /\ open_sockets w' = open_sockets w
      /\ (bind_attempts (trace w') <= S (bind_attempts (trace w)))%nat).
Proof.
  unfold try, bind, _get_candidate_port.
  assert (Hbind : forall port w1,
             env w1 = env w -> open_sockets w1 = open_sockets w -> trace w1 = trace w ->
             (upper - lower <> 0 -> lower <= port <= upper) ->
             (exists p w',
                 sock_bind sock port w1 = (Ret tt, w')
                 /\ grant_port w port = Some p
                 /\ socket_entry (fileno sock) (open_sockets w) = Some None
                 /\ open_sockets w' = set_socket_port (fileno sock) p (open_sockets w)
                 /\ env w' = env w
                 /\ bind_attempts (trace w') = S (bind_attempts (trace w)))
             \/ (exists ex w',
                 sock_bind sock port w1 = (Raise ex, w')
                 /\ env w' = env w
                 /\ open_sockets w' = open_sockets w
                 /\ bind_attempts (trace w') = S (bind_attempts (trace w)))).
  { intros port w1 He Ho Ht Hr. unfold sock_bind.
    assert (Hg : grant_port w1 port = grant_port w port).
    { apply grant_port_ext; [exact He|]. intros q. unfold port_in_use. now rewrite He, Ho. }
    assert (Hc : bind_attempts (trace (emit (EvBind (fileno sock) port None) w1))
                 = S (bind_attempts (trace w))).
    { simpl. rewrite bind_attempts_app, Ht. simpl. lia. }
    destruct ((port <? 0) || (65535 <? port)).
    { right. eexists _, _. split; [reflexivity|]. now repeat split. }
    rewrite Ho. destruct (socket_entry (fileno sock) (open_sockets w)) as [[q|]|] eqn:Hs;
      try (right; eexists _, _; split; [reflexivity|]; now repeat split).
    rewrite Hg. destruct (grant_port w port) as [p|] eqn:Hp;
      try (right; eexists _, _; split; [reflexivity|]; now repeat split).
    left. exists p. eexists. split; [reflexivity|].
    repeat split; simpl; auto. rewrite bind_attempts_app, Ht. simpl. lia. }
  destruct (upper - lower =? 0) eqn:Hz.
  - unfold ret.
    destruct (Hbind 0 w eq_refl eq_refl eq_refl) as [(p & w' & H & H')|(ex & w' & H & H')];
      [lia| |]; rewrite H.
    + left. exists 0, p, w'. split; [reflexivity|].
      destruct H' as (?&?&?&?&?). repeat split; auto; lia.
    + right. exists ex, w'. split; [reflexivity|]. destruct H' as (?&?&?). repeat split; auto; lia.
  - unfold random_randint. destruct (upper <? lower) eqn:Hlt.
    + right. eexists _, _. split; [reflexivity|]. repeat split. lia.
    + set (port := lower + randint_draws (env w) (draws_used w) mod (upper - lower + 1)).
      assert (Hr : lower <= port <= upper).
      { pose proof (Z.mod_pos_bound (randint_draws (env w) (draws_used w)) (upper - lower + 1)).
        unfold port. lia. }
      destruct (Hbind port (set_draws_used (S (draws_used w)) w) eq_refl eq_refl eq_refl)
        as [(p & w' & H & H')|(ex & w' & H & H')]; [lia| |]; rewrite H.
      * left. exists port, p, w'. split; [reflexivity|].
        destruct H' as (?&?&?&?&?). repeat split; auto; lia.
      * right. exists ex, w'. split; [reflexivity|]. destruct H' as (?&?&?).
        repeat split; auto; lia.
Qed.

(** The loop of [_select_socket] ends, by binding the socket or by the
    [RuntimeError] that names the range. *)
Lemma select_socket_loop_spec (fuel : nat) (sock : socket) (lower upper : Z) :
  forall (retries : Z) (w : World),
    (0 < fuel)%nat ->
    max_port_range_retries (env w) - retries < Z.of_nat fuel ->
    match _select_socket_loop fuel sock retries lower upper w with
    | (Ret _, w') =>
        exists port p,
          grant_port w port = Some p
          /\ socket_entry (fileno sock) (open_sockets w) = Some None
          /\ open_sockets w' = set_socket_port (fileno sock) p (open_sockets w)
          /\ env w' = env w
          /\ (upper - lower <> 0 -> lower <= port <= upper)
    | (Raise ex, w') =>
        ex = RuntimeError (port_range_message lower upper (max_port_range_retries (env w)))
        /\ env w' = env w
        /\ open_sockets w' = open_sockets w
    | _ => False
    end.
Proof.
  induction fuel as [|fuel IH]; intros retries w Hpos Hfuel.
  - lia.
  - cbn [_select_socket_loop]. unfold bind at 1.
    destruct (bind_attempt_cases sock lower upper w)
      as [(port & p & w' & H & Hg & Hs & Ho & He & _ & Hr)|(ex & w' & H & He & Ho & _)];
      rewrite H.
    + cbn. exists port, p. auto.
    + cbn. unfold bind, ask. rewrite He.
      destruct (retries + 1 >? max_port_range_retries (env w)) eqn:Hgt.
      * cbn. auto.
      * specialize (IH (retries + 1) w'). rewrite He in IH.
        assert (Hf : max_port_range_retries (env w) - (retries + 1) < Z.of_nat fuel) by lia.
        assert (Hp : (0 < fuel)%nat) by lia.
        specialize (IH Hp Hf).
        destruct (_select_socket_loop fuel sock (retries + 1) lower upper w') as [[[]|ex'| |] w''].
        -- destruct IH as (port & p & Hg & Hs & Ho' & He' & Hr). exists port, p.
           rewrite <- Ho. split; [|split; [exact Hs|split; [exact Ho'|split; [congruence|exact Hr]]]].
           rewrite <- Hg. symmetry. apply grant_port_ext; [exact He|].
           intros q. unfold port_in_use. now rewrite He, Ho.
        -- destruct IH as (? & ? & ?). repeat split; congruence.
        -- exact IH.
        -- exact IH.
Qed.

(** It makes at most [max_port_range_retries + 1] attempts in all. *)
Lemma select_socket_loop_attempts (fuel : nat) (sock : socket) (lower upper : Z) :
  forall (retries : Z) (w : World),
    retries <= max_port_range_retries (env w) ->
    (bind_attempts (trace (snd (_select_socket_loop fuel sock retries lower upper w)))
     <= bind_attempts (trace w) + Z.to_nat (max_port_range_retries (env w) - retries + 1))%nat.
Proof.
  induction fuel as [|fuel IH]; intros retries w Hle.
  - simpl. lia.
  - cbn [_select_socket_loop]. unfold bind at 1.
    destruct (bind_attempt_cases sock lower upper w)
      as [(port & p & w' & H & _ & _ & _ & _ & Hc & _)|(ex & w' & H & He & _ & Hc)];
      rewrite H.
    + cbn. lia.
    + cbn. unfold bind, ask. rewrite He.
      destruct (retries + 1 >? max_port_range_retries (env w)) eqn:Hgt.
      * cbn. lia.
      * specialize (IH (retries + 1) w'). rewrite He in IH.
        assert (Hle' : retries + 1 <= max_port_range_retries (env w)) by lia.
        specialize (IH Hle'). lia.
Qed.

(** When no candidate can be bound, it makes exactly that many attempts and
    raises. *)
Lemma select_socket_loop_exhausted (fuel : nat) (sock : socket) (lower upper : Z) :
  forall (retries : Z) (w : World),
    lower <= upper ->
    retries <= max_port_range_retries (env w) ->
    max_port_range_retries (env w) - retries < Z.of_nat fuel ->
    (forall p, candidate lower upper p -> unbindable w p = true) ->
    exists w',
      _select_socket_loop fuel sock retries lower upper w
      = (Raise (RuntimeError
                  (port_range_message lower upper (max_port_range_retries (env w)))), w')
      /\ bind_attempts (trace w')
         = (bind_attempts (trace w)
            + Z.to_nat (max_port_range_retries (env w) - retries + 1))%nat.
Proof.
  induction fuel as [|fuel IH]; intros retries w Hrange Hle Hfuel Hall; [lia|].
  cbn [_select_socket_loop]. unfold bind at 1, try, bind at 1.
  destruct (get_candidate_port_candidate lower upper w Hrange)
    as (port & w1 & Hc & Hcand & He1 & Ho1 & Ht1).
  rewrite Hc.
  assert (Hu1 : unbindable w1 port = true).
  { rewrite <- (Hall port Hcand). apply unbindable_ext; [exact He1|].
    intros q. unfold port_in_use. now rewrite He1, Ho1. }
  destruct (sock_bind_unbindable sock port w1 Hu1) as (ex & Hb). rewrite Hb.
  cbn. unfold bind, ask. cbn. rewrite He1.
  destruct (retries + 1 >? max_port_range_retries (env w)) eqn:Hgt.
  - eexists. split; [reflexivity|]. cbn. rewrite bind_attempts_app, Ht1. simpl.
    replace (max_port_range_retries (env w) - retries + 1) with 1 by lia. reflexivity.
  - set (w2 := emit (EvBind (fileno sock) port None) w1).
    assert (He2 : env w2 = env w) by exact He1.
    assert (Ho2 : open_sockets w2 = open_sockets w) by exact Ho1.
    destruct (IH (retries + 1) w2 Hrange) as (w' & Hloop & Hcount).
    + rewrite He2. lia.
    + rewrite He2. lia.
    + intros q Hq. rewrite <- (Hall q Hq). apply unbindable_ext; [exact He2|].
      intros r. unfold port_in_use. now rewrite He2, Ho2.
    + exists w'. rewrite He2 in Hloop, Hcount. split; [exact Hloop|].
      rewrite Hcount. unfold w2. cbn. rewrite bind_attempts_app, Ht1. simpl. lia.
Qed.

Lemma port_in_use_new_socket (w : World) (q : Z) :
  port_in_use
    (emit (EvSocket (next_fileno w))
       (set_next_fileno (S (next_fileno w))
          (set_open_sockets (open_sockets w ++ [(next_fileno w, None)]) w))) q
  = port_in_use w q.
Proof.
  unfold port_in_use. cbn. rewrite existsb_app. cbn.
  now rewrite !orb_false_r.
Qed.

(** [_select_socket] returns a socket bound to a port that was free, or
    raises the [RuntimeError] that names the range. *)
Lemma select_socket_spec (lower upper : Z) (w : World) :
  match _select_socket lower upper w with
  | (Ret sock, w') =>
      exists port p,
        port_in_use w p = false
        /\ socket_entry (fileno sock) (open_sockets w') = Some (Some p)
        /\ (forall q, port_in_use w' q = port_in_use w q || (q =? p))
        /\ env w' = env w
        /\ (port <> 0 -> p = port)
        /\ (upper - lower <> 0 -> lower <= port <= upper)
  | (Raise ex, w') =>
      ex = RuntimeError (port_range_message lower upper (max_port_range_retries (env w)))
      /\ env w' = env w
  | _ => False
  end.
Proof.
  unfold _select_socket, bind at 1, socket_socket.
  set (w0 := emit _ _). unfold bind at 1, ask. unfold bind at 1.
  assert (Hu0 : forall q, port_in_use w0 q = port_in_use w q)
    by (intros q; apply port_in_use_new_socket).
  assert (He0 : env w0 = env w) by reflexivity.
  pose proof (select_socket_loop_spec (S (Z.to_nat (max_port_range_retries (env w0))))
                {| fileno := next_fileno w |} lower upper 0 w0) as Hloop.
  destruct (_select_socket_loop _ _ 0 lower upper w0) as [[[]|ex| |] w'].
  - destruct Hloop as (port & p & Hg & Hs & Ho & He & Hr); [lia|lia|].
    cbn. exists port, p. split; [|split; [|split; [|split; [|split]]]].
    + rewrite <- Hu0. eapply grant_port_free; eauto.
    + rewrite Ho. now apply socket_entry_set_socket_port.
    + intros q. unfold port_in_use at 1. rewrite He, Ho.
      rewrite (holds_port_set_socket_port _ p q _ Hs), orb_assoc.
      fold (port_in_use w0 q). now rewrite Hu0.
    + congruence.
    + intros Hnz. eapply grant_port_nonzero; eauto.
    + exact Hr.
  - destruct Hloop as (Hex & He & _); [lia|lia|]. cbn. split; congruence.
  - apply Hloop; lia.
  - apply Hloop; lia.
Qed.

Lemma close_all_returns (sockets : list socket) :
  forall w, exists w', close_all sockets w = (Ret tt, w') /\ env w' = env w.
Proof.
  induction sockets as [|s l IH]; intros w; cbn.
  - now exists w.
  - unfold bind, close_fileno. destruct (IH (emit (EvClose (fileno s))
      (set_open_sockets (drop_socket (fileno s) (open_sockets w)) w))) as (w' & H & He).
    exists w'. split; [exact H|]. rewrite He. reflexivity.
Qed.

(** The loop of [_select_ports] keeps the ports it has gathered distinct:
    each one stays bound while the next is selected. *)
Lemma select_ports_loop_spec (n : nat) (lower upper : Z) :
  forall (ports : list Z) (sockets : list socket) (w : World),
    NoDup ports ->
    (forall p, In p ports -> port_in_use w p = true) ->
    match _select_ports_loop n lower upper ports sockets w with
    | (Ret r, w') =>
        List.length (fst r) = (List.length ports + n)%nat
        /\ NoDup (fst r)
        /\ (forall p, In p (fst r) ->
              In p ports \/ (0 < lower -> lower < upper -> lower <= p <= upper))
    | (Raise ex, w') =>
        ex = RuntimeError (port_range_message lower upper (max_port_range_retries (env w)))
    | _ => False
    end.
Proof.
  induction n as [|n IH]; intros ports sockets w Hnd Huse.
  - cbn. repeat split; auto.
  - cbn [_select_ports_loop]. unfold bind at 1.
    pose proof (select_socket_spec lower upper w) as Hsel.
    destruct (_select_socket lower upper w) as [[sock|ex| |] w1]; try (exact Hsel).
    + destruct Hsel as (port & p & Hfree & Hs & Hu & He & Hp & Hr).
      unfold bind at 1, sock_getsockname_port. rewrite Hs.
      assert (Hnew : ~ In p ports).
      { intros Hin. apply Huse in Hin. congruence. }
      specialize (IH (ports ++ [p]) (sockets ++ [sock]) w1).
      destruct (_select_ports_loop n lower upper (ports ++ [p]) (sockets ++ [sock]) w1)
        as [[r|ex| |] w2].
      * destruct IH as (Hlen & Hnd' & Hin).
        { apply NoDup_app; [exact Hnd|repeat constructor; auto|].
          intros x Hx [Hx'|[]]. subst. contradiction. }
        { intros q Hq. rewrite Hu. apply in_app_or in Hq. destruct Hq as [Hq|[Hq|[]]].
          - now rewrite (Huse q Hq).
          - subst. rewrite Z.eqb_refl. apply orb_true_r. }
        split; [|split]; auto.
        { rewrite Hlen, length_app. simpl. lia. }
        { intros q Hq. destruct (Hin q Hq) as [Hq'|Hq']; [|now right].
          apply in_app_or in Hq'. destruct Hq' as [Hq'|[Hq'|[]]]; [now left|].
          right. intros Hpos Hlt. subst q. rewrite Hp; [apply Hr|]; lia. }
      * rewrite He in IH. apply IH.
        { apply NoDup_app; [exact Hnd|repeat constructor; auto|].
          intros x Hx [Hx'|[]]. subst. contradiction. }
        { intros q Hq. rewrite Hu. apply in_app_or in Hq. destruct Hq as [Hq|[Hq|[]]].
          - now rewrite (Huse q Hq).
          - subst. rewrite Z.eqb_refl. apply orb_true_r. }
      * apply IH.
        { apply NoDup_app; [exact Hnd|repeat constructor; auto|].
          intros x Hx [Hx'|[]]. subst. contradiction. }
        { intros q Hq. rewrite Hu. apply in_app_or in Hq. destruct Hq as [Hq|[Hq|[]]].
          - now rewrite (Huse q Hq).
          - subst. rewrite Z.eqb_refl. apply orb_true_r. }
      * apply IH.
        { apply NoDup_app; [exact Hnd|repeat constructor; auto|].
          intros x Hx [Hx'|[]]. subst. contradiction. }
        { intros q Hq. rewrite Hu. apply in_app_or in Hq. destruct Hq as [Hq|[Hq|[]]].
          - now rewrite (Huse q Hq).
          - subst. rewrite Z.eqb_refl. apply orb_true_r. }
    + destruct Hsel as (Hex & _). exact Hex.
Qed.

(** [_select_socket] leaves the trace of its socket and of at most
    [max_port_range_retries + 1] attempts. *)
Lemma select_socket_attempts (lower upper : Z) (w : World) :
  0 <= max_port_range_retries (env w) ->
  (bind_attempts (trace (snd (_select_socket lower upper w)))
   <= bind_attempts (trace w) + Z.to_nat (max_port_range_retries (env w) + 1))%nat.
Proof.
  intros Hmax. unfold _select_socket, bind at 1, socket_socket.
  set (w0 := emit _ _). unfold bind at 1, ask. unfold bind at 1.
  pose proof (select_socket_loop_attempts (S (Z.to_nat (max_port_range_retries (env w0))))
                {| fileno := next_fileno w |} lower upper 0 w0 Hmax) as Hloop.
  assert (Ht0 : bind_attempts (trace w0) = bind_attempts (trace w)).
  { unfold w0. cbn. rewrite bind_attempts_app. cbn. lia. }
  change (env w0) with (env w) in *. rewrite Ht0, Z.sub_0_r in Hloop.
  destruct (_select_socket_loop _ _ 0 lower upper w0) as [[[]|ex| |] w']; exact Hloop.
Qed.

(** C6. When no candidate of the range can be bound, [_select_socket]
    raises the [RuntimeError] that names the range after exactly
    [max_port_range_retries + 1] calls of [bind]; and whatever the ports
    are, it never calls [bind] more often than that. *)
Theorem select_socket_exhausted (lower_port upper_port : Z) (w : World) :
  lower_port <= upper_port ->
  0 <= max_port_range_retries (env w) ->
  (forall port, candidate lower_port upper_port port -> unbindable w port = true) ->
  (exists w',
      _select_socket lower_port upper_port w
      = (Raise (RuntimeError
                  (port_range_message lower_port upper_port
                     (max_port_range_retries (env w)))), w')
      /\ bind_attempts (trace w')
         = (bind_attempts (trace w) + Z.to_nat (max_port_range_retries (env w) + 1))%nat)
  /\ forall w0,
      0 <= max_port_range_retries (env w0) ->
      (bind_attempts (trace (snd (_select_socket lower_port upper_port w0)))
       <= bind_attempts (trace w0) + Z.to_nat (max_port_range_retries (env w0) + 1))%nat.
Proof.
  intros Hrange Hmax Hall. split; [|intros w0; apply select_socket_attempts].
  unfold _select_socket, bind at 1, socket_socket.
  set (w0 := emit _ _). unfold bind at 1, ask. unfold bind at 1.
  assert (Ht0 : bind_attempts (trace w0) = bind_attempts (trace w)).
  { unfold w0. cbn. rewrite bind_attempts_app. cbn. lia. }
  destruct (select_socket_loop_exhausted
              (S (Z.to_nat (max_port_range_retries (env w0))))
              {| fileno := next_fileno w |} lower_port upper_port 0 w0 Hrange)
    as (w' & Hloop & Hcount).
  - exact Hmax.
  - change (env w0) with (env w). lia.
  - intros p Hp. rewrite <- (Hall p Hp). apply unbindable_ext; [reflexivity|].
    intros q. apply port_in_use_new_socket.
  - rewrite Hloop. exists w'. split; [reflexivity|].
    rewrite Hcount, Ht0. change (env w0) with (env w). now rewrite Z.sub_0_r.
Qed.

(** C5 (as amended). [_select_ports] either raises the [RuntimeError] of
    the port allocator (some socket found no free candidate within its
    attempts), or returns exactly [count] ports, all distinct; and for a
    range of more than one port, [0 < lower_port < upper_port], each port
    returned lies within the range. *)
Theorem select_ports_distinct_or_exhausted (count lower_port upper_port : Z)
    (w : World) :
  match fst (_select_ports count lower_port upper_port w) with
  | Ret ports =>
      List.length ports = Z.to_nat count
      /\ NoDup ports
      /\ (0 < lower_port -> lower_port < upper_port ->
          Forall (fun port => lower_port <= port <= upper_port) ports)
  | Raise ex =>
      ex = RuntimeError
             (port_range_message lower_port upper_port (max_port_range_retries (env w)))
  | _ => False
  end.
Proof.
  unfold _select_ports, bind at 1.
  pose proof (select_ports_loop_spec (Z.to_nat count) lower_port upper_port [] [] w
                (NoDup_nil Z) (fun p (Hin : In p []) => match Hin with end)) as Hloop.
  destruct (_select_ports_loop (Z.to_nat count) lower_port upper_port [] [] w)
    as [[[ports sockets]|ex| |] w1]; cbn [fst snd] in *; try exact Hloop.
  destruct Hloop as (Hlen & Hnd & Hin).
  unfold bind at 1. destruct (close_all_returns sockets w1) as (w2 & Hclose & _).
  rewrite Hclose. cbn. split; [exact Hlen|]. split; [exact Hnd|].
  intros Hpos Hlt. apply Forall_forall. intros p Hp.
  destruct (Hin p Hp) as [[]|Hr]. now apply Hr.
Qed.

(** ** The control listener *)


Lemma append_assoc (a b c : string) : ((a ++ b) ++ c = a ++ (b ++ c))%string.
Proof. induction a as [|x a IH]; simpl; [reflexivity|now rewrite IH]. Qed.

Lemma append_empty_r (a : string) : (a ++ "" = a)%string.
Proof. induction a as [|x a IH]; simpl; [reflexivity|now rewrite IH]. Qed.

Lemma trace_emit_all (events : list event) :
  forall w, trace (emit_all events w) = trace w ++ events.
Proof.
  induction events as [|e l IH]; intros w; simpl.
  - now rewrite app_nil_r.
  - unfold emit_all in IH. rewrite IH. simpl. now rewrite <- app_assoc.
Qed.

Lemma emit_all_frame (events : list event) :
  forall w,
    env (emit_all events w) = env w
    /\ arrivals (emit_all events w) = arrivals w
    /\ open_sockets (emit_all events w) = open_sockets w
    /\ next_fileno (emit_all events w) = next_fileno w
    /\ draws_used (emit_all events w) = draws_used w
    /\ urandom_used (emit_all events w) = urandom_used w.
Proof.
  induction events as [|e l IH]; intros w; simpl; [now repeat split|].
  apply (IH (emit e w)).
Qed.

Lemma emit_all_app (l1 l2 : list event) (w : World) :
  emit_all (l1 ++ l2) w = emit_all l2 (emit_all l1 w).
Proof. unfold emit_all. apply fold_left_app. Qed.

Lemma bind_ret_l {A B} (a : A) (k : A -> M B) (w : World) :
  bind (ret a) k w = k a w.
Proof. reflexivity. Qed.

Lemma bind_bind {A B C} (m : M A) (f : A -> M B) (g : B -> M C) (w : World) :
  bind (bind m f) g w = bind m (fun a => bind (f a) g) w.
Proof. unfold bind. destruct (m w) as [[a|ex| |] w']; reflexivity. Qed.

Lemma bind_record {B} (e : event) (k : unit -> M B) (w : World) :
  bind (record e) k w = k tt (emit e w).
Proof. reflexivity. Qed.

Lemma bind_logger {B} (level : log_level) (msg : string) (k : unit -> M B) (w : World) :
  bind (logger level msg) k w = k tt (emit (EvLog level msg) w).
Proof. reflexivity. Qed.

Lemma bind_os_kill_delivered {B} (pid signum : Z) (k : unit -> M B) (w : World) :
  kill_outcome (env w) pid signum = None ->
  bind (os_kill pid signum) k w = k tt (emit (EvKill pid signum None) w).
Proof. intros Hk. unfold bind, os_kill. now rewrite Hk. Qed.

Lemma bind_os_kill_fails {B} (pid signum : Z) (ex : exn) (k : unit -> M B) (w : World) :
  kill_outcome (env w) pid signum = Some ex ->
  bind (os_kill pid signum) k w = (Raise ex, emit (EvKill pid signum (Some ex)) w).
Proof. intros Hk. unfold bind, os_kill. now rewrite Hk. Qed.

Ltac mnorm := repeat (rewrite bind_bind || rewrite bind_ret_l || rewrite bind_logger); cbv beta.

Lemma delivered_app (t u : list event) : delivered (t ++ u) = delivered t ++ delivered u.
Proof.
  induction t as [|e t IH]; simpl; [reflexivity|].
  destruct e as [| | | | | | | | | |pid signum [ex|]]; simpl; now rewrite IH.
Qed.

Lemma undelivered_app (t u : list event) :
  undelivered (t ++ u) = undelivered t ++ undelivered u.
Proof.
  induction t as [|e t IH]; simpl; [reflexivity|].
  destruct e as [| | | | | | | | | |pid signum [ex|]]; simpl; now rewrite IH.
Qed.

Lemma accepts_app (t u : list event) : accepts (t ++ u) = (accepts t + accepts u)%nat.
Proof.
  induction t as [|e t IH]; simpl; [reflexivity|].
  destruct e; simpl; now rewrite IH.
Qed.

Lemma received_buffer_events_quiet (conn : nat) (chunks : list (list byte)) :
  delivered (received_buffer_events conn chunks) = []
  /\ undelivered (received_buffer_events conn chunks) = []
  /\ accepts (received_buffer_events conn chunks) = 0%nat.
Proof. induction chunks as [|b l IH]; simpl; auto. Qed.

Lemma socket_entry_In (fd : nat) (e : option Z) (l : list (nat * option Z)) :
  socket_entry fd l = Some e -> In (fd, e) l.
Proof.
  induction l as [|[fd' e'] l IH]; simpl; [discriminate|].
  destruct (Nat.eqb fd' fd) eqn:Hfd.
  - intros Heq. inversion Heq; subst. apply Nat.eqb_eq in Hfd. subst. now left.
  - intros Heq. right. now apply IH.
Qed.

Lemma socket_entry_drop_same (fd : nat) (l : list (nat * option Z)) :
  socket_entry fd (drop_socket fd l) = None.
Proof.
  induction l as [|[fd' e] l IH]; simpl; [reflexivity|].
  destruct (Nat.eqb fd' fd) eqn:Hfd; simpl; [exact IH|]. now rewrite Hfd.
Qed.

Lemma socket_entry_drop_other (fd c : nat) (l : list (nat * option Z)) :
  fd <> c ->
  socket_entry fd (drop_socket c (l ++ [(c, None)])) = socket_entry fd l.
Proof.
  intros Hne. induction l as [|[fd' e] l IH]; simpl.
  - now rewrite Nat.eqb_refl.
  - destruct (Nat.eqb fd' c) eqn:Hc; simpl.
    + apply Nat.eqb_eq in Hc. subst fd'.
      destruct (Nat.eqb c fd) eqn:Hfd; [apply Nat.eqb_eq in Hfd; congruence|exact IH].
    + destruct (Nat.eqb fd' fd); [reflexivity|exact IH].
Qed.

Lemma socket_entry_holds_port (fd : nat) (p : Z) (l : list (nat * option Z)) :
  socket_entry fd l = Some (Some p) -> existsb (holds_port p) l = true.
Proof.
  intros Hs. apply existsb_exists. exists (fd, Some p). split.
  - now apply socket_entry_In.
  - unfold holds_port. simpl. apply Z.eqb_refl.
Qed.

Section Listener.
Context `{PyLib}.

Lemma drain_connection_chunks (conn : nat) (chunks : list (list byte)) :
  Forall sound_chunk chunks ->
  forall (data : string) (w : World),
    drain_connection conn (map RecvBytes chunks) data w
    = send_is_complete (data ++ request_text chunks)
        (emit (EvRecv conn (RecvBytes []))
           (emit_all (received_buffer_events conn chunks) w)).
Proof.
  induction 1 as [|b l [Hne Hv] _ IH]; intros data w.
  - cbn. now rewrite append_empty_r.
  - cbn [map drain_connection]. rewrite bind_record.
    destruct b as [|b0 b]; [congruence|].
    rewrite bind_logger. unfold bind at 1, decode_utf8. rewrite Hv.
    unfold ret at 1. cbn beta iota.
    rewrite IH. cbn [request_text fold_right]. rewrite append_assoc. reflexivity.
Qed.


Lemma get_server_request_None (w : World) :
  get_server_request None w
  = (Raise AttributeError,
     emit (EvLog INFO "DEBUG: get_server_request: waiting for socket accept") w).
Proof. reflexivity. Qed.

Lemma get_server_request_waits (sock : socket) (w : World) :
  arrivals w = [] ->
  get_server_request (Some sock) w
  = (Blocked, emit (EvLog INFO "DEBUG: get_server_request: waiting for socket accept") w).
Proof.
  intros Ha. unfold get_server_request. rewrite bind_logger.
  unfold bind, try, sock_accept. cbn [arrivals emit]. now rewrite Ha.
Qed.

Lemma get_server_request_timeout (sock : socket) (rest : list accept_event) (w : World) :
  arrivals w = AcceptTimeout :: rest ->
  get_server_request (Some sock) w
  = (Ret JNull,
     set_arrivals rest
       (emit (EvLog INFO "DEBUG: get_server_request: waiting for socket accept") w)).
Proof.
  intros Ha. unfold get_server_request. rewrite bind_logger.
  unfold bind, try, sock_accept. cbn [arrivals emit]. now rewrite Ha.
Qed.

(** One call of [get_server_request] that accepts a connection: the text
    is parsed, and the connection is closed whatever the parse gives. *)
Lemma get_server_request_connection (sock : socket) (chunks : list (list byte))
    (rest : list accept_event) (w : World) :
  arrivals w = AcceptConnection (map RecvBytes chunks) :: rest ->
  Forall sound_chunk chunks ->
  exists w',
    get_server_request (Some sock) w = (request_of (request_text chunks), w')
    /\ env w' = env w
    /\ arrivals w' = rest
    /\ trace w' = trace w ++ connection_events (fileno sock) (next_fileno w) chunks
    /\ open_sockets w'
       = drop_socket (next_fileno w) (open_sockets w ++ [(next_fileno w, None)]).
Proof.
  intros Ha Hc.
  unfold get_server_request. rewrite bind_logger.
  unfold bind at 1, try at 1, sock_accept. cbn [arrivals emit]. rewrite Ha.
  cbn beta iota. cbn [conn_fileno incoming].
  unfold bind at 1, try at 1. rewrite bind_logger.
  rewrite (drain_connection_chunks _ chunks Hc). cbn [append].
  change (next_fileno (emit (EvLog INFO
            "DEBUG: get_server_request: waiting for socket accept") w))
    with (next_fileno w).
  change (open_sockets (emit (EvLog INFO
            "DEBUG: get_server_request: waiting for socket accept") w))
    with (open_sockets w).
  set (w0 := emit (EvLog INFO "DEBUG: get_server_request: socket accepted") _).
  set (w1 := emit (EvRecv _ _) _).
  assert (Hw1 : env w1 = env w /\ arrivals w1 = rest
                /\ open_sockets w1 = open_sockets w ++ [(next_fileno w, None)]
                /\ trace w1 = trace w
                     ++ [EvLog INFO "DEBUG: get_server_request: waiting for socket accept";
                         EvAccept (fileno sock) (next_fileno w);
                         EvLog INFO "DEBUG: get_server_request: socket accepted"]
                     ++ received_buffer_events (next_fileno w) chunks
                     ++ [EvRecv (next_fileno w) (RecvBytes [])]).
  { destruct (emit_all_frame (received_buffer_events (next_fileno w) chunks) w0)
      as (He & Har & Ho & _).
    unfold w1. cbn [env arrivals open_sockets trace emit].
    rewrite He, Har, Ho, trace_emit_all. unfold w0. cbn.
    repeat split; auto. rewrite <- !app_assoc. reflexivity. }
  destruct Hw1 as (He1 & Ha1 & Ho1 & Ht1). clearbody w1. clear w0.
  unfold send_is_complete, request_of, connection_events.
  destruct (0 <? String.length (request_text chunks))%nat.
  - destruct (json_loads (request_text chunks)) as [v|]; cbn;
      (eexists; split; [reflexivity|]; cbn; rewrite He1, Ha1, Ho1, Ht1;
       repeat split; auto; now rewrite <- !app_assoc).
  - cbn. eexists; split; [reflexivity|]. cbn. rewrite He1, Ha1, Ho1, Ht1.
    repeat split; auto. now rewrite <- !app_assoc.
Qed.


Lemma request_text_not_empty (chunks : list (list byte)) :
  Forall sound_chunk chunks -> chunks <> [] ->
  (0 <? String.length (request_text chunks))%nat = true.
Proof.
  intros Hc Hne. destruct Hc as [|b l [Hb _] _]; [congruence|].
  destruct b as [|b0 b]; [congruence|]. reflexivity.
Qed.

Lemma request_of_parsed (chunks : list (list byte)) (v : pyval) :
  Forall sound_chunk chunks -> chunks <> [] ->
  json_loads (request_text chunks) = Some v ->
  request_of (request_text chunks) = Ret v.
Proof.
  intros Hc Hne Hj. unfold request_of.
  now rewrite (request_text_not_empty chunks Hc Hne), Hj.
Qed.

Lemma request_of_malformed (chunks : list (list byte)) :
  Forall sound_chunk chunks -> chunks <> [] ->
  json_loads (request_text chunks) = None ->
  request_of (request_text chunks) = Raise JSONDecodeError.
Proof.
  intros Hc Hne Hj. unfold request_of.
  now rewrite (request_text_not_empty chunks Hc Hne), Hj.
Qed.

(** A request without [signum]: nothing is sent. *)
Lemma process_request_no_signal (d : pydict) (parent_pid : Z)
    (cluster_type : option string) (w : World) :
  field "signum" d = JNull ->
  process_request (JDict d) parent_pid cluster_type w
  = (Ret (truthy (field "shutdown" d)),
     emit (EvLog INFO "server_listener got request") w).
Proof.
  intros Hs. unfold process_request, request_get. fold (field "signum" d).
  fold (field "shutdown" d). rewrite Hs. cbn.
  destruct (field "shutdown" d); reflexivity.
Qed.

(** A request whose [signum] is delivered (and, for an interrupt under
    the spark profile, [SIGUSR2] after it). *)
Lemma process_request_signal (d : pydict) (v : pyval) (signum parent_pid : Z)
    (cluster_type : option string) (w : World) :
  dict_get "signum" d = Some v ->
  is_None v = false ->
  py_int v = inr signum ->
  kill_outcome (env w) parent_pid signum = None ->
  ((signum =? 2) && is_spark cluster_type = true ->
   kill_outcome (env w) parent_pid SIGUSR2 = None) ->
  process_request (JDict d) parent_pid cluster_type w
  = (Ret (truthy (field "shutdown" d)),
     emit_all
       ([EvKill parent_pid signum None]
        ++ (if (signum =? 2) && is_spark cluster_type
            then [EvKill parent_pid SIGUSR2 None] else [])
        ++ (if negb (signum =? 0) then [EvLog INFO "server_listener got request"]
            else []))
       w).
Proof.
  intros Hd Hn Hi Hk Hk2. unfold process_request, request_get.
  fold (field "shutdown" d). fold (is_spark cluster_type). rewrite Hd.
  rewrite bind_ret_l, Hn. cbn [negb]. mnorm. rewrite Hi. cbn [lift]. mnorm.
  rewrite (bind_os_kill_delivered _ _ _ _ Hk).
  destruct ((signum =? 2) && is_spark cluster_type) eqn:Hsp.
  - rewrite bind_bind, bind_os_kill_delivered by (apply Hk2; reflexivity).
    mnorm. destruct (field "shutdown" d), (signum =? 0); reflexivity.
  - mnorm. destruct (field "shutdown" d), (signum =? 0); reflexivity.
Qed.

(** A request whose [signum] cannot be delivered: [os.kill] raises and
    nothing else of the request is looked at. *)
Lemma process_request_kill_fails (d : pydict) (v : pyval) (signum parent_pid : Z)
    (cluster_type : option string) (ex : exn) (w : World) :
  dict_get "signum" d = Some v ->
  is_None v = false ->
  py_int v = inr signum ->
  kill_outcome (env w) parent_pid signum = Some ex ->
  process_request (JDict d) parent_pid cluster_type w
  = (Raise ex, emit (EvKill parent_pid signum (Some ex)) w).
Proof.
  intros Hd Hn Hi Hk. unfold process_request, request_get. rewrite Hd.
  rewrite bind_ret_l, Hn. cbn [negb]. mnorm. rewrite Hi. cbn [lift]. mnorm.
  now rewrite (bind_os_kill_fails _ _ _ _ _ Hk).
Qed.

(** One pass of the loop of [server_listener] over a request that is a
    dictionary with at least one key. *)
Lemma listener_loop_request (fuel : nat) (sock : socket) (parent_pid : Z)
    (cluster_type : option string) (chunks : list (list byte)) (d : pydict)
    (rest : list accept_event) (w : World) :
  arrivals w = AcceptConnection (map RecvBytes chunks) :: rest ->
  Forall sound_chunk chunks -> chunks <> [] ->
  json_loads (request_text chunks) = Some (JDict d) ->
  d <> [] ->
  exists w1,
    env w1 = env w
    /\ arrivals w1 = rest
    /\ trace w1 = trace w ++ connection_events (fileno sock) (next_fileno w) chunks
    /\ open_sockets w1
       = drop_socket (next_fileno w) (open_sockets w ++ [(next_fileno w, None)])
    /\ listener_loop (S fuel) (Some sock) parent_pid cluster_type w
       = match process_request (JDict d) parent_pid cluster_type w1 with
         | (Ret true, w2) => (Ret tt, w2)
         | (Ret false, w2) => listener_loop fuel (Some sock) parent_pid cluster_type w2
         | (Raise ex, w2) => (Raise ex, w2)
         | (Blocked, w2) => (Blocked, w2)
         | (OutOfFuel, w2) => (OutOfFuel, w2)
         end.
Proof.
  intros Ha Hc Hne Hj Hd.
  destruct (get_server_request_connection sock chunks rest w Ha Hc)
    as (w1 & Hg & He & Har & Ht & Ho).
  exists w1. repeat (split; [assumption|]).
  cbn [listener_loop]. unfold bind at 1. rewrite Hg, (request_of_parsed chunks _ Hc Hne Hj).
  assert (Htruthy : truthy (JDict d) = true) by (destruct d; [congruence|reflexivity]).
  rewrite Htruthy. unfold bind at 1.
  destruct (process_request (JDict d) parent_pid cluster_type w1) as [[[]|ex| |] w2];
    reflexivity.
Qed.


Lemma connection_events_quiet (listener conn : nat) (chunks : list (list byte)) :
  delivered (connection_events listener conn chunks) = []
  /\ undelivered (connection_events listener conn chunks) = []
  /\ accepts (connection_events listener conn chunks) = 1%nat.
Proof.
  unfold connection_events.
  destruct (received_buffer_events_quiet conn chunks) as (Hd & Hu & Ha).
  rewrite !delivered_app, !undelivered_app, !accepts_app, Hd, Hu, Ha.
  destruct (0 <? String.length (request_text chunks))%nat; repeat split.
Qed.

(** With no arrival left the loop waits in [accept]. *)
Lemma listener_loop_waits (fuel : nat) (sock : socket) (parent_pid : Z)
    (cluster_type : option string) (w : World) :
  arrivals w = [] ->
  listener_loop (S fuel) (Some sock) parent_pid cluster_type w
  = (Blocked, emit (EvLog INFO "DEBUG: get_server_request: waiting for socket accept") w).
Proof.
  intros Ha. cbn [listener_loop]. unfold bind at 1.
  now rewrite (get_server_request_waits sock w Ha).
Qed.

(** C3. A request with ["signum": 2] makes a listener under the spark
    profile deliver two signals to the supervised process, signal 2 and
    then [SIGUSR2]; under any other profile it delivers signal 2 alone.
    (The process exists: [os.kill] succeeds.) *)
Theorem interrupt_signal_deliveries (sock : socket) (parent_pid : Z)
    (chunks : list (list byte)) (d : pydict) (w : World) :
  arrivals w = [AcceptConnection (map RecvBytes chunks)] ->
  Forall sound_chunk chunks -> chunks <> [] ->
  json_loads (request_text chunks) = Some (JDict d) ->
  dict_get "signum" d = Some (JInt 2) ->
  kill_outcome (env w) parent_pid 2 = None ->
  kill_outcome (env w) parent_pid SIGUSR2 = None ->
  let run cluster_type :=
    listener_loop (S (List.length (arrivals w))) (Some sock) parent_pid cluster_type w in
  delivered (trace (snd (run (Some "spark"%string))))
  = delivered (trace w) ++ [(parent_pid, 2); (parent_pid, SIGUSR2)]
  /\ forall cluster_type,
       is_spark cluster_type = false ->
       delivered (trace (snd (run cluster_type)))
       = delivered (trace w) ++ [(parent_pid, 2)].
Proof.
  intros Ha Hc Hne Hj Hd Hk Hk2 run.
  assert (Hd' : d <> []) by (destruct d; [discriminate|congruence]).
  assert (Hrun : forall cluster_type,
             delivered (trace (snd (run cluster_type)))
             = delivered (trace w)
               ++ (parent_pid, 2)
                  :: (if is_spark cluster_type then [(parent_pid, SIGUSR2)] else [])).
  { intros cluster_type. unfold run. rewrite Ha. cbn [List.length].
    destruct (listener_loop_request 1 sock parent_pid cluster_type chunks d [] w
                Ha Hc Hne Hj Hd') as (w1 & He & Har & Ht & _ & Hloop).
    rewrite Hloop.
    rewrite (process_request_signal d (JInt 2) 2 parent_pid cluster_type w1 Hd eq_refl
               eq_refl); [|now rewrite He|intros _; now rewrite He].
    set (events := [EvKill parent_pid 2 None] ++ _).
    assert (Hev : delivered events
                  = (parent_pid, 2)
                    :: (if is_spark cluster_type then [(parent_pid, SIGUSR2)] else [])).
    { unfold events. cbn. destruct (is_spark cluster_type); reflexivity. }
    assert (Hw2 : delivered (trace (emit_all events w1))
                  = delivered (trace w)
                    ++ (parent_pid, 2)
                       :: (if is_spark cluster_type then [(parent_pid, SIGUSR2)] else [])).
    { rewrite trace_emit_all, Ht, !delivered_app, Hev.
      destruct (connection_events_quiet (fileno sock) (next_fileno w) chunks) as (Hq & _).
      now rewrite Hq, app_nil_r. }
    destruct (truthy (field "shutdown" d)); [exact Hw2|].
    rewrite listener_loop_waits.
    - cbn [snd trace emit]. rewrite delivered_app, Hw2. cbn. now rewrite app_nil_r.
    - destruct (emit_all_frame events w1) as (_ & Har' & _). now rewrite Har'. }
  split.
  - now rewrite Hrun.
  - intros cluster_type Hsp. now rewrite Hrun, Hsp.
Qed.


(** Draining a connection only adds events, and ends. *)
Lemma drain_connection_events (conn : nat) (received : list recv_outcome) :
  forall (data : string) (w : World),
  exists o events,
    drain_connection conn received data w = (o, emit_all events w)
    /\ o <> Blocked /\ o <> OutOfFuel.
Proof.
  assert (Hcomplete : forall data w,
             exists o events,
               send_is_complete data w = (o, emit_all events w)
               /\ o <> Blocked /\ o <> OutOfFuel).
  { intros data w. unfold send_is_complete.
    destruct (0 <? String.length data)%nat.
    - destruct (json_loads data) as [v|]; eexists _, []; cbn; repeat split; discriminate.
    - eexists _, [_]. rewrite bind_logger. cbn. repeat split; discriminate. }
  induction received as [|r l IH]; intros data w.
  - cbn [drain_connection]. rewrite bind_record.
    destruct (Hcomplete data (emit (EvRecv conn (RecvBytes [])) w))
      as (o & events & Hs & Ho).
    exists o, (EvRecv conn (RecvBytes []) :: events). split; [exact Hs|exact Ho].
  - destruct r as [buffer|ex]; cbn [drain_connection]; rewrite bind_record.
    + destruct buffer as [|b0 b].
      * destruct (Hcomplete data (emit (EvRecv conn (RecvBytes [])) w))
          as (o & events & Hs & Ho).
        exists o, (EvRecv conn (RecvBytes []) :: events). split; [exact Hs|exact Ho].
      * rewrite bind_logger. unfold bind at 1, decode_utf8.
        destruct (utf8_valid (b0 :: b)).
        -- unfold ret at 1. cbn beta iota.
           destruct (IH (data ++ string_of_list_byte (b0 :: b))%string
                       (emit (EvLog INFO "DEBUG: get_server_request: received buffer")
                          (emit (EvRecv conn (RecvBytes (b0 :: b))) w)))
             as (o & events & Hs & Ho).
           exists o, (EvRecv conn (RecvBytes (b0 :: b))
                      :: EvLog INFO "DEBUG: get_server_request: received buffer"
                      :: events).
           split; [exact Hs|exact Ho].
        -- eexists _, [_; _]. cbn. repeat split; discriminate.
    + eexists _, [_]. cbn. repeat split; discriminate.
Qed.

(** Every accepted connection is closed before [get_server_request] is
    left, whatever was received and however the call ends. *)
Lemma accepted_connection_closed (sock : socket) (received : list recv_outcome)
    (rest : list accept_event) (w : World) :
  arrivals w = AcceptConnection received :: rest ->
  exists o events w',
    get_server_request (Some sock) w = (o, w')
    /\ o <> Blocked /\ o <> OutOfFuel
    /\ trace w' = trace w ++ events ++ [EvClose (next_fileno w)]
    /\ socket_entry (next_fileno w) (open_sockets w') = None
    /\ arrivals w' = rest.
Proof.
  intros Ha. unfold get_server_request. rewrite bind_logger.
  unfold bind at 1, try at 1, sock_accept. cbn [arrivals emit]. rewrite Ha.
  cbn beta iota. cbn [conn_fileno incoming].
  unfold bind at 1, try at 1. rewrite bind_logger.
  change (next_fileno (emit (EvLog INFO
            "DEBUG: get_server_request: waiting for socket accept") w))
    with (next_fileno w).
  set (w0 := emit (EvLog INFO "DEBUG: get_server_request: socket accepted") _).
  destruct (drain_connection_events (next_fileno w) received EmptyString w0)
    as (o & events & Hd & Hb & Hf).
  rewrite Hd.
  destruct (emit_all_frame events w0) as (_ & Har & Hos & _).
  assert (Ht : trace (emit_all events w0)
               = trace w
                 ++ [EvLog INFO "DEBUG: get_server_request: waiting for socket accept";
                     EvAccept (fileno sock) (next_fileno w);
                     EvLog INFO "DEBUG: get_server_request: socket accepted"] ++ events).
  { rewrite trace_emit_all. unfold w0. cbn. now rewrite <- !app_assoc. }
  assert (Har0 : arrivals w0 = rest) by reflexivity.
  clearbody w0.
  destruct o as [v|ex| |]; try congruence; cbn beta iota;
    unfold bind, close_fileno, except_clause, ret, raise;
    [|destruct (is_socket_timeout ex); cbn [negb]];
    (eexists _,
       ([EvLog INFO "DEBUG: get_server_request: waiting for socket accept";
         EvAccept (fileno sock) (next_fileno w);
         EvLog INFO "DEBUG: get_server_request: socket accepted"] ++ events), _;
     split; [reflexivity|];
     split; [discriminate|]; split; [discriminate|];
     cbn [trace emit open_sockets arrivals set_open_sockets]; rewrite Ht, Har;
     split; [|split; [apply socket_entry_drop_same|exact Har0]];
     now rewrite <- !app_assoc).
Qed.

(** C1 (as amended). When the text received on a connection is not JSON,
    the connection is closed and the [JSONDecodeError] leaves
    [get_server_request] and the loop of [server_listener]: the listener
    ends with it, and the arrivals that follow are never accepted. *)
Theorem malformed_request_ends_listener (fuel : nat) (sock : socket) (parent_pid : Z)
    (cluster_type : option string) (chunks : list (list byte))
    (rest : list accept_event) (w : World) :
  arrivals w = AcceptConnection (map RecvBytes chunks) :: rest ->
  Forall sound_chunk chunks -> chunks <> [] ->
  json_loads (request_text chunks) = None ->
  exists w',
    get_server_request (Some sock) w = (Raise JSONDecodeError, w')
    /\ listener_loop (S fuel) (Some sock) parent_pid cluster_type w
       = (Raise JSONDecodeError, w')
    /\ trace w' = trace w ++ connection_events (fileno sock) (next_fileno w) chunks
    /\ last (trace w') (EvClose (fileno sock)) = EvClose (next_fileno w)
    /\ socket_entry (next_fileno w) (open_sockets w') = None
    /\ arrivals w' = rest.
Proof.
  intros Ha Hc Hne Hj.
  destruct (get_server_request_connection sock chunks rest w Ha Hc)
    as (w' & Hg & He & Har & Ht & Ho).
  rewrite (request_of_malformed chunks Hc Hne Hj) in Hg.
  exists w'. split; [exact Hg|]. split; [|split; [exact Ht|split; [|split]]].
  - cbn [listener_loop]. unfold bind at 1. now rewrite Hg.
  - rewrite Ht. unfold connection_events. rewrite !app_assoc. apply last_last.
  - rewrite Ho. apply socket_entry_drop_same.
  - exact Har.
Qed.

(** C2 (as amended). When [os.kill] fails for the signal of a request
    (the supervised process does not exist), the exception leaves the
    loop of [server_listener]: the failure is recorded once, the listener
    ends with it, and the arrivals that follow (a second request with the
    same signal among them) are never accepted. *)
Theorem failed_signal_ends_listener (fuel : nat) (sock : socket) (parent_pid : Z)
    (cluster_type : option string) (chunks : list (list byte)) (d : pydict)
    (v : pyval) (signum : Z) (ex : exn) (rest : list accept_event) (w : World) :
  arrivals w = AcceptConnection (map RecvBytes chunks) :: rest ->
  Forall sound_chunk chunks -> chunks <> [] ->
  json_loads (request_text chunks) = Some (JDict d) ->
  dict_get "signum" d = Some v ->
  is_None v = false ->
  py_int v = inr signum ->
  kill_outcome (env w) parent_pid signum = Some ex ->
  exists w',
    listener_loop (S fuel) (Some sock) parent_pid cluster_type w = (Raise ex, w')
    /\ undelivered (trace w') = undelivered (trace w) ++ [(parent_pid, signum, ex)]
    /\ delivered (trace w') = delivered (trace w)
    /\ accepts (trace w') = S (accepts (trace w))
    /\ arrivals w' = rest.
Proof.
  intros Ha Hc Hne Hj Hd Hn Hi Hk.
  assert (Hd' : d <> []) by (destruct d; [discriminate|congruence]).
  destruct (listener_loop_request fuel sock parent_pid cluster_type chunks d rest w
              Ha Hc Hne Hj Hd') as (w1 & He & Har & Ht & _ & Hloop).
  rewrite Hloop.
  rewrite (process_request_kill_fails d v signum parent_pid cluster_type ex w1 Hd Hn Hi)
    by (now rewrite He).
  eexists. split; [reflexivity|].
  destruct (connection_events_quiet (fileno sock) (next_fileno w) chunks)
    as (Hq1 & Hq2 & Hq3).
  cbn [trace emit arrivals]. rewrite Ht.
  rewrite !undelivered_app, !delivered_app, !accepts_app, Hq1, Hq2, Hq3. cbn.
  rewrite !app_nil_r. repeat split; auto. lia.
Qed.


(** A request with ["shutdown": true] (whose signal, if it names one, is
    delivered) ends the loop of [server_listener]: the arrivals that
    follow are never accepted.  The loop itself does not close the control
    socket, which is open and holds its port when the loop is left. *)
Lemma shutdown_request_ends_loop (fuel : nat) (sock : socket) (parent_pid : Z)
    (cluster_type : option string) (chunks : list (list byte)) (d : pydict)
    (rest : list accept_event) (port : Z) (w : World) :
  arrivals w = AcceptConnection (map RecvBytes chunks) :: rest ->
  Forall sound_chunk chunks -> chunks <> [] ->
  json_loads (request_text chunks) = Some (JDict d) ->
  dict_get "shutdown" d = Some (JBool true) ->
  (field "signum" d = JNull
   \/ exists signum,
        py_int (field "signum" d) = inr signum
        /\ kill_outcome (env w) parent_pid signum = None
        /\ ((signum =? 2) && is_spark cluster_type = true ->
            kill_outcome (env w) parent_pid SIGUSR2 = None)) ->
  socket_entry (fileno sock) (open_sockets w) = Some (Some port) ->
  fileno sock <> next_fileno w ->
  exists w',
    listener_loop (S fuel) (Some sock) parent_pid cluster_type w = (Ret tt, w')
    /\ arrivals w' = rest
    /\ accepts (trace w') = S (accepts (trace w))
    /\ socket_entry (fileno sock) (open_sockets w') = Some (Some port)
    /\ port_in_use w' port = true.
Proof.
  intros Ha Hc Hne Hj Hsd Hsig Hsock Hfd.
  assert (Hd' : d <> []) by (destruct d; [discriminate|congruence]).
  destruct (listener_loop_request fuel sock parent_pid cluster_type chunks d rest w
              Ha Hc Hne Hj Hd') as (w1 & He & Har & Ht & Ho & Hloop).
  assert (Hshut : truthy (field "shutdown" d) = true)
    by (unfold field; now rewrite Hsd).
  assert (Hproc : exists events,
             process_request (JDict d) parent_pid cluster_type w1
             = (Ret true, emit_all events w1) /\ accepts events = 0%nat).
  { destruct Hsig as [Hnone|(signum & Hi & Hk & Hk2)].
    - rewrite (process_request_no_signal d parent_pid cluster_type w1 Hnone), Hshut.
      now exists [EvLog INFO "server_listener got request"].
    - unfold field in Hi. destruct (dict_get "signum" d) as [v|] eqn:Hv;
        [|discriminate].
      assert (Hn : is_None v = false) by (destruct v; [discriminate|..]; reflexivity).
      rewrite (process_request_signal d v signum parent_pid cluster_type w1 Hv Hn Hi),
        Hshut; [|now rewrite He|now rewrite He].
      eexists. split; [reflexivity|].
      rewrite !accepts_app.
      destruct ((signum =? 2) && is_spark cluster_type), (negb (signum =? 0));
        reflexivity. }
  destruct Hproc as (events & Hproc & Hacc). rewrite Hproc in Hloop.
  exists (emit_all events w1). split; [exact Hloop|].
  destruct (emit_all_frame events w1) as (_ & Har' & Ho' & _).
  destruct (connection_events_quiet (fileno sock) (next_fileno w) chunks)
    as (_ & _ & Hq).
  assert (Hentry : socket_entry (fileno sock) (open_sockets (emit_all events w1))
                   = Some (Some port)).
  { rewrite Ho', Ho, socket_entry_drop_other by exact Hfd. exact Hsock. }
  split; [congruence|]. split; [|split; [exact Hentry|]].
  - rewrite trace_emit_all, Ht, !accepts_app, Hq, Hacc. lia.
  - unfold port_in_use. rewrite (socket_entry_holds_port _ _ _ Hentry).
    apply orb_true_r.
Qed.

Context `{CryptoLib}.

(** On an address that does not parse, [return_connection_info] logs the
    fact and returns [None]; it does nothing else. *)
Lemma return_connection_info_pull_mode (connection_file response_addr : string)
    (lower_port upper_port : Z) (kernel_id public_key : string) (w : World) :
  pull_mode response_addr ->
  exists msg,
    return_connection_info connection_file response_addr lower_port upper_port
      kernel_id public_key w
    = (Ret None, emit (EvLog ERROR msg) w).
Proof.
  unfold pull_mode, return_connection_info. intros [Hlen|Hport].
  - apply Nat.eqb_neq in Hlen. rewrite Hlen. cbn [negb]. rewrite bind_logger.
    eexists. reflexivity.
  - destruct (negb (List.length (split ":" response_addr) =? 2)%nat).
    + rewrite bind_logger. eexists. reflexivity.
    + rewrite Hport, bind_logger. eexists. reflexivity.
Qed.

(** C10. After the pull-mode fallback [server_listener] still enters its
    loop with [None] for the socket.  Every call of [get_server_request]
    on [None] fails with [AttributeError] before any [accept], so the
    listener ends with that exception: no connection is accepted and no
    arrival is consumed. *)
Theorem pull_mode_listener_inoperative (connection_file response_addr : string)
    (lower_port upper_port : Z) (kernel_id public_key : string) (parent_pid : Z)
    (cluster_type : option string) (w : World) :
  pull_mode response_addr ->
  (forall w0,
      fst (get_server_request None w0) = Raise AttributeError
      /\ arrivals (snd (get_server_request None w0)) = arrivals w0
      /\ accepts (trace (snd (get_server_request None w0))) = accepts (trace w0))
  /\ exists w',
      server_listener connection_file response_addr lower_port upper_port
        kernel_id public_key parent_pid cluster_type w
      = (Raise AttributeError, w')
      /\ arrivals w' = arrivals w
      /\ accepts (trace w') = accepts (trace w)
      /\ delivered (trace w') = delivered (trace w)
      /\ open_sockets w' = open_sockets w.
Proof.
  intros Hpull. split.
  - intros w0. rewrite get_server_request_None. cbn [fst snd arrivals trace emit].
    rewrite accepts_app. cbn. repeat split. lia.
  - destruct (return_connection_info_pull_mode connection_file response_addr
                lower_port upper_port kernel_id public_key w Hpull) as (msg & Hr).
    unfold server_listener, bind at 1. rewrite Hr.
    unfold bind at 1. cbn [listener_loop]. unfold bind at 1.
    rewrite get_server_request_None.
    eexists. split; [reflexivity|].
    cbn [arrivals trace emit open_sockets].
    rewrite <- app_assoc, accepts_app, delivered_app. cbn.
    rewrite app_nil_r. repeat split. lia.
Qed.

End Listener.

(** ** The handshake *)

Lemma or_raise_cases {A} (ex : exn) (o : option A) (w : World) :
  or_raise ex o w = (match o with Some a => Ret a | None => Raise ex end, w).
Proof. destruct o; reflexivity. Qed.

Lemma bind_ask {A B} (f : Env -> A) (k : A -> M B) (w : World) :
  bind (ask f) k w = k (f (env w)) w.
Proof. reflexivity. Qed.

Lemma bind_returns {A B} (m : M A) (k : A -> M B) (a : A) (w w' : World) :
  m w = (Ret a, w') -> bind m k w = k a w'.
Proof. intros Hm. unfold bind. now rewrite Hm. Qed.

Lemma try_returns {A} (m : M A) (a : A) (w w' : World) :
  m w = (Ret a, w') -> try m w = (Ret (inr a), w').
Proof. intros Hm. unfold try. now rewrite Hm. Qed.

Section Handshake.
Context `{PyLib} `{CryptoLib}.

(** [_encrypt] reads the random bytes from where the world stands and
    moves on by as many as it used; nothing else of the world matters. *)
Lemma encrypt_run (content : list byte) (public_key : string) (w : World) :
  exists o n,
    o <> Blocked /\ o <> OutOfFuel
    /\ forall w',
        env w' = env w -> urandom_used w' = urandom_used w ->
        _encrypt content public_key w' = (o, set_urandom_used n w').
Proof.
  unfold _encrypt.
  destruct (AES_ECB_encrypt
              (map (urandom (env w)) (seq (urandom_used w) 16)) (pad content 16))
    as [encrypted|] eqn:Haes.
  2:{ exists (Raise ValueError), (urandom_used w + 16)%nat.
      split; [discriminate|]. split; [discriminate|].
      intros w' He Hu. unfold bind at 1, get_random_bytes. rewrite He, Hu.
      unfold bind at 1. rewrite or_raise_cases, Haes. reflexivity. }
  destruct (b64decode (list_byte_of_string public_key)) as [der|] eqn:Hder.
  2:{ exists (Raise binascii_Error), (urandom_used w + 16)%nat.
      split; [discriminate|]. split; [discriminate|].
      intros w' He Hu. unfold bind at 1, get_random_bytes. rewrite He, Hu.
      unfold bind at 1. rewrite or_raise_cases, Haes.
      unfold bind at 1. rewrite or_raise_cases. reflexivity. }
  destruct (RSA_importKey der) as [key|] eqn:Hkey.
  2:{ exists (Raise ValueError), (urandom_used w + 16)%nat.
      split; [discriminate|]. split; [discriminate|].
      intros w' He Hu. unfold bind at 1, get_random_bytes. rewrite He, Hu.
      unfold bind at 1. rewrite or_raise_cases, Haes.
      unfold bind at 1. rewrite or_raise_cases.
      unfold bind at 1. rewrite or_raise_cases, Hkey. reflexivity. }
  destruct (PKCS1_v1_5_encrypt key
              (map (urandom (env w)) (seq (urandom_used w) 16))
              (fun i => urandom (env w) (urandom_used w + 16 + i)))
    as [[wrapped used]|] eqn:Hwrap.
  - eexists (Ret _), (urandom_used w + 16 + used)%nat.
    split; [discriminate|]. split; [discriminate|].
    intros w' He Hu. unfold bind at 1, get_random_bytes. rewrite He, Hu.
    unfold bind at 1. rewrite or_raise_cases, Haes.
    unfold bind at 1. rewrite or_raise_cases.
    unfold bind at 1. rewrite or_raise_cases, Hkey.
    unfold bind at 1. cbn [env urandom_used set_urandom_used].
    rewrite ?He, ?Hu, Hwrap. reflexivity.
  - exists (Raise ValueError), (urandom_used w + 16)%nat.
    split; [discriminate|]. split; [discriminate|].
    intros w' He Hu. unfold bind at 1, get_random_bytes. rewrite He, Hu.
    unfold bind at 1. rewrite or_raise_cases, Haes.
    unfold bind at 1. rewrite or_raise_cases.
    unfold bind at 1. rewrite or_raise_cases, Hkey.
    unfold bind at 1. cbn [env urandom_used set_urandom_used].
    rewrite ?He, ?Hu, Hwrap. reflexivity.
Qed.

(** [prepare_comm_socket] returns a bound socket, or raises the
    [RuntimeError] of the port allocator. *)
Lemma prepare_comm_socket_spec (lower_port upper_port : Z) (w : World) :
  match prepare_comm_socket lower_port upper_port w with
  | (Ret sock, w') =>
      exists p,
        socket_entry (fileno sock) (open_sockets w') = Some (Some p)
        /\ port_in_use w p = false
        /\ env w' = env w
  | (Raise ex, w') =>
      ex = RuntimeError
             (port_range_message lower_port upper_port (max_port_range_retries (env w)))
  | _ => False
  end.
Proof.
  unfold prepare_comm_socket, bind at 1.
  pose proof (select_socket_spec lower_port upper_port w) as Hsel.
  destruct (_select_socket lower_port upper_port w) as [[sock|ex| |] w1];
    try exact Hsel.
  - destruct Hsel as (port & p & Hfree & Hs & _ & He & _).
    unfold bind at 1, sock_getsockname_port. rewrite Hs.
    rewrite bind_logger. unfold sock_listen, sock_settimeout.
    rewrite !bind_record. unfold ret. exists p. now repeat split.
  - apply Hsel.
Qed.

(** On an address [host:port], with the connection file in place, a port
    for the control socket, a server that accepts and a key that
    encrypts, [return_connection_info] connects to [host:port], sends the
    encrypted descriptor and returns the control socket. *)
Lemma return_connection_info_pushes (connection_file response_addr : string)
    (lower_port upper_port : Z) (kernel_id public_key : string)
    (host port_text text : string) (port : Z) (d : pydict)
    (comm_sock : socket) (w w1 : World) :
  split ":" response_addr = [host; port_text] ->
  int_of_str port_text = Some port ->
  files (env w) connection_file = Some text ->
  json_loads text = Some (JDict d) ->
  prepare_comm_socket lower_port upper_port w = (Ret comm_sock, w1) ->
  connect_outcome (env w) host port = None ->
  (forall content w0, exists payload, fst (_encrypt content public_key w0) = Ret payload) ->
  (forall payload, send_outcome (env w) payload = None) ->
  exists comm_port payload w2,
    return_connection_info connection_file response_addr lower_port upper_port
      kernel_id public_key w
    = (Ret (Some comm_sock), w2)
    /\ socket_entry (fileno comm_sock) (open_sockets w1) = Some (Some comm_port)
    /\ fst (_encrypt
              (list_byte_of_string
                 (json_dumps
                    (JDict (add_launcher_fields d (own_pid (env w)) (own_pgid (env w))
                              comm_port kernel_id))))
              public_key w1)
       = Ret payload
    /\ trace w2
       = trace w1
         ++ [EvSocket (next_fileno w1);
             EvConnect (next_fileno w1) host port None;
             EvLog DEBUG "JSON Payload";
             EvLog DEBUG "Encrypted Payload";
             EvSend (next_fileno w1) payload;
             EvClose (next_fileno w1)].
Proof.
  intros Hsplit Hport Hfile Hjson Hprep Hconn Henc Hsend.
  pose proof (prepare_comm_socket_spec lower_port upper_port w) as Hspec.
  rewrite Hprep in Hspec. destruct Hspec as (comm_port & Hentry & _ & He1).
  set (content := list_byte_of_string
                    (json_dumps
                       (JDict (add_launcher_fields d (own_pid (env w)) (own_pgid (env w))
                                 comm_port kernel_id)))).
  destruct (Henc content w1) as (payload & Hpay).
  destruct (encrypt_run content public_key w1) as (o & n & _ & _ & Hrun).
  rewrite (Hrun w1 eq_refl eq_refl) in Hpay. cbn [fst] in Hpay. subst o.
  exists comm_port, payload.
  unfold return_connection_info. rewrite Hsplit. cbn [List.length Nat.eqb negb nth].
  rewrite Hport. unfold load_connection_file.
  rewrite bind_bind. unfold bind at 1. rewrite Hfile.
  unfold bind at 1. rewrite or_raise_cases, Hjson.
  cbv beta iota. rewrite bind_ask. cbn [setitem]. rewrite bind_ret_l.
  rewrite bind_ask. cbn [setitem]. rewrite bind_ret_l.
  unfold bind at 1. rewrite Hprep.
  unfold bind at 1, sock_getsockname_port. rewrite Hentry.
  do 2 (cbn [setitem]; rewrite bind_ret_l; cbv beta).
  fold (add_launcher_fields d (own_pid (env w)) (own_pgid (env w)) comm_port kernel_id).
  fold content.
  unfold with_socket. rewrite ?bind_bind.
  unfold bind at 1, socket_socket. cbv beta iota.
  set (w2 := emit (EvSocket (next_fileno w1)) _).
  assert (He2 : env w2 = env w) by exact He1.
  assert (Hu2 : urandom_used w2 = urandom_used w1) by reflexivity.
  assert (Ht2 : trace w2 = trace w1 ++ [EvSocket (next_fileno w1)]) by reflexivity.
  clearbody w2.
  set (s := {| fileno := next_fileno w1 |}).
  assert (Hbody :
            (sock_connect s host port ;;;
             logger DEBUG "JSON Payload" ;;;
             payload0 <- _encrypt content public_key ;;
             logger DEBUG "Encrypted Payload" ;;;
             sock_send s payload0) w2
            = (Ret tt,
               emit (EvSend (next_fileno w1) payload)
                 (emit (EvLog DEBUG "Encrypted Payload")
                    (set_urandom_used n
                       (emit (EvLog DEBUG "JSON Payload")
                          (emit (EvConnect (next_fileno w1) host port None) w2)))))).
  { erewrite bind_returns
      by (unfold sock_connect; rewrite He2, Hconn; reflexivity).
    rewrite bind_logger.
    erewrite bind_returns by (apply Hrun; [exact (eq_trans He2 (eq_sym He1))|exact Hu2]).
    rewrite bind_logger. unfold sock_send.
    cbn [env emit set_urandom_used]. now rewrite He2, Hsend. }
  rewrite ?bind_bind. erewrite bind_returns by (apply try_returns; exact Hbody).
  unfold bind, close_fileno, ret. cbn [fileno].
  eexists. split; [reflexivity|]. split; [reflexivity|].
  split; [now rewrite (Hrun w1 eq_refl eq_refl)|].
  cbn [trace emit set_urandom_used set_open_sockets set_next_fileno]. rewrite Ht2.
  now rewrite <- !app_assoc.
Qed.


Lemma not_pull_mode (response_addr : string) :
  ~ pull_mode response_addr ->
  exists host port_text port,
    split ":" response_addr = [host; port_text]
    /\ int_of_str port_text = Some port.
Proof.
  unfold pull_mode. intros Hn.
  destruct (split ":" response_addr) as [|host [|port_text [|x l]]] eqn:Hs;
    try (exfalso; apply Hn; left; cbn; lia).
  cbn [nth] in Hn. destruct (int_of_str port_text) as [port|] eqn:Hp.
  - now exists host, port_text, port.
  - exfalso. apply Hn. now right.
Qed.

(** C4. On an address that is not made of two parts around one colon, or
    whose port is not a number, [return_connection_info] returns [None]
    without raising and without touching a socket: it only logs.  On any
    other address it goes on to the push: with the descriptor read and
    the control socket prepared, it connects to the host and port of the
    address and sends the encrypted descriptor. *)
Theorem handshake_pushes_unless_pull_mode (connection_file response_addr : string)
    (lower_port upper_port : Z) (kernel_id public_key : string) (w : World) :
  (pull_mode response_addr ->
   exists msg,
     return_connection_info connection_file response_addr lower_port upper_port
       kernel_id public_key w
     = (Ret None, emit (EvLog ERROR msg) w)
     /\ connects (trace (emit (EvLog ERROR msg) w)) = connects (trace w)
     /\ open_sockets (emit (EvLog ERROR msg) w) = open_sockets w)
  /\ (~ pull_mode response_addr ->
      exists host port_text port,
        split ":" response_addr = [host; port_text]
        /\ int_of_str port_text = Some port
        /\ forall text d comm_sock w1,
            files (env w) connection_file = Some text ->
            json_loads text = Some (JDict d) ->
            prepare_comm_socket lower_port upper_port w = (Ret comm_sock, w1) ->
            connect_outcome (env w) host port = None ->
            (forall content w0,
                exists payload, fst (_encrypt content public_key w0) = Ret payload) ->
            (forall payload, send_outcome (env w) payload = None) ->
            exists comm_port payload w2,
              return_connection_info connection_file response_addr lower_port
                upper_port kernel_id public_key w
              = (Ret (Some comm_sock), w2)
              /\ socket_entry (fileno comm_sock) (open_sockets w1)
                 = Some (Some comm_port)
              /\ fst (_encrypt
                        (list_byte_of_string
                           (json_dumps
                              (JDict (add_launcher_fields d (own_pid (env w))
                                        (own_pgid (env w)) comm_port kernel_id))))
                        public_key w1)
                 = Ret payload
              /\ trace w2
                 = trace w1
                   ++ [EvSocket (next_fileno w1);
                       EvConnect (next_fileno w1) host port None;
                       EvLog DEBUG "JSON Payload";
                       EvLog DEBUG "Encrypted Payload";
                       EvSend (next_fileno w1) payload;
                       EvClose (next_fileno w1)]).
Proof.
  split.
  - intros Hpull.
    destruct (return_connection_info_pull_mode connection_file response_addr
                lower_port upper_port kernel_id public_key w Hpull) as (msg & Hr).
    exists msg. split; [exact Hr|]. cbn [trace emit open_sockets].
    split; [|reflexivity].
    induction (trace w) as [|e t IH]; [reflexivity|]. destruct e; cbn; now rewrite ?IH.
  - intros Hn. destruct (not_pull_mode response_addr Hn)
      as (host & port_text & port & Hs & Hp).
    exists host, port_text, port. split; [exact Hs|]. split; [exact Hp|].
    intros text d comm_sock w1 Hfile Hjson Hprep Hconn Henc Hsend.
    exact (return_connection_info_pushes connection_file response_addr lower_port
             upper_port kernel_id public_key host port_text text port d comm_sock
             w w1 Hs Hp Hfile Hjson Hprep Hconn Henc Hsend).
Qed.

End Handshake.

(** ** The connection descriptor *)

Lemma dict_get_set_same (key : string) (value : pyval) (d : pydict) :
  dict_get key (dict_set key value d) = Some value.
Proof.
  induction d as [|[k v] d IH]; cbn.
  - now rewrite String.eqb_refl.
  - destruct (String.eqb k key) eqn:Hk; cbn; now rewrite Hk.
Qed.

Lemma dict_get_set_other (key key' : string) (value : pyval) (d : pydict) :
  key' <> key -> dict_get key' (dict_set key value d) = dict_get key' d.
Proof.
  intros Hne. induction d as [|[k v] d IH]; cbn.
  - destruct (String.eqb key key') eqn:Hk; [|reflexivity].
    apply String.eqb_eq in Hk. congruence.
  - destruct (String.eqb k key) eqn:Hk; cbn.
    + apply String.eqb_eq in Hk. subst k.
      destruct (String.eqb key key') eqn:Hk'; [|reflexivity].
      apply String.eqb_eq in Hk'. congruence.
    + now rewrite IH.
Qed.

Lemma dict_set_fresh (key : string) (value : pyval) (d : pydict) :
  dict_get key d = None -> dict_set key value d = d ++ [(key, value)].
Proof.
  induction d as [|[k v] d IH]; cbn; [reflexivity|].
  destruct (String.eqb k key); [discriminate|]. intros Hd. now rewrite IH.
Qed.

Lemma dict_keys_set (key key' : string) (value : pyval) (d : pydict) :
  In key' (dict_keys (dict_set key value d)) <-> key' = key \/ In key' (dict_keys d).
Proof.
  unfold dict_keys. induction d as [|[k v] d IH]; cbn.
  - intuition congruence.
  - destruct (String.eqb k key) eqn:Hk; cbn.
    + apply String.eqb_eq in Hk. subst k. intuition congruence.
    + rewrite IH. intuition congruence.
Qed.

(** Four assignments in a row, of [pid], [pgid], [comm_port] and
    [kernel_id]: every other key keeps its value, the keys of the result
    are those of the dictionary and these four, and a dictionary that has
    none of the four comes out with the four fields appended and all its
    pairs as they were, in their order. *)
Lemma launcher_fields_frame (cf_json : pydict) (pid pgid comm_port : Z)
    (kernel_id : string) :
  let augmented := add_launcher_fields cf_json pid pgid comm_port kernel_id in
  (forall key, ~ In key launcher_fields ->
               dict_get key augmented = dict_get key cf_json)
  /\ dict_get "pid" augmented = Some (JInt pid)
  /\ dict_get "pgid" augmented = Some (JInt pgid)
  /\ dict_get "comm_port" augmented = Some (JInt comm_port)
  /\ dict_get "kernel_id" augmented = Some (JStr kernel_id)
  /\ (forall key, In key (dict_keys augmented)
                  <-> In key (dict_keys cf_json) \/ In key launcher_fields)
  /\ ((forall key, In key launcher_fields -> dict_get key cf_json = None) ->
      augmented
      = cf_json ++ [("pid", JInt pid); ("pgid", JInt pgid);
                    ("comm_port", JInt comm_port); ("kernel_id", JStr kernel_id)]%string).
Proof.
  cbv zeta. unfold add_launcher_fields, launcher_fields.
  split; [|split; [|split; [|split; [|split; [|split]]]]].
  - intros key Hn. cbn [In] in Hn.
    rewrite !dict_get_set_other by (intros Heq; apply Hn; subst; tauto).
    reflexivity.
  - rewrite !dict_get_set_other by discriminate. apply dict_get_set_same.
  - rewrite !dict_get_set_other by discriminate. apply dict_get_set_same.
  - rewrite !dict_get_set_other by discriminate. apply dict_get_set_same.
  - apply dict_get_set_same.
  - intros key. rewrite !dict_keys_set. cbn [In]. intuition congruence.
  - intros Hfresh.
    rewrite (dict_set_fresh "kernel_id")
      by (rewrite !dict_get_set_other by discriminate; apply Hfresh; cbn; tauto).
    rewrite (dict_set_fresh "comm_port")
      by (rewrite !dict_get_set_other by discriminate; apply Hfresh; cbn; tauto).
    rewrite (dict_set_fresh "pgid")
      by (rewrite !dict_get_set_other by discriminate; apply Hfresh; cbn; tauto).
    rewrite (dict_set_fresh "pid") by (apply Hfresh; cbn; tauto).
    now rewrite <- !app_assoc.
Qed.

(** ** The bounds of the loops *)

Lemma ends_quietly_ret {A} (a : A) : ends_quietly (ret a).
Proof. intros w. cbn. repeat split; discriminate. Qed.

Lemma ends_quietly_raise {A} (ex : exn) : ends_quietly (@raise A ex).
Proof. intros w. cbn. repeat split; discriminate. Qed.

Lemma ends_quietly_record (e : event) : ends_quietly (record e).
Proof. intros w. cbn. repeat split; discriminate. Qed.

Lemma ends_quietly_os_kill (pid signum : Z) : ends_quietly (os_kill pid signum).
Proof.
  intros w. unfold os_kill. destruct (kill_outcome (env w) pid signum); cbn;
    repeat split; discriminate.
Qed.

Lemma ends_quietly_lift {A} (r : exn + A) : ends_quietly (lift r).
Proof. destruct r; [apply ends_quietly_raise|apply ends_quietly_ret]. Qed.

Lemma ends_quietly_bind {A B} (m : M A) (k : A -> M B) :
  ends_quietly m -> (forall a, ends_quietly (k a)) -> ends_quietly (bind m k).
Proof.
  intros Hm Hk w. unfold bind. destruct (Hm w) as (Hb & Hf & Ha).
  destruct (m w) as [[a|ex| |] w']; cbn in *; try congruence.
  - destruct (Hk a w') as (Hb' & Hf' & Ha'). repeat split; congruence.
  - repeat split; (discriminate || assumption).
Qed.

Create HintDb quiet.
#[local] Hint Resolve ends_quietly_ret ends_quietly_raise ends_quietly_record
  ends_quietly_os_kill ends_quietly_lift ends_quietly_bind : quiet.

Section Fuel.
Context `{PyLib}.

Lemma ends_quietly_request_get (request : pyval) (key : string) :
  ends_quietly (request_get request key).
Proof. destruct request; cbn; auto with quiet. Qed.

Lemma process_request_ends (request : pyval) (parent_pid : Z)
    (cluster_type : option string) :
  ends_quietly (process_request request parent_pid cluster_type).
Proof.
  pose proof ends_quietly_request_get as Hget.
  unfold process_request, logger.
  apply ends_quietly_bind; [apply Hget|]. intros f1.
  apply ends_quietly_bind.
  - destruct (negb (is_None f1)); [|auto with quiet].
    apply ends_quietly_bind; [apply Hget|]. intros f2.
    apply ends_quietly_bind; [auto with quiet|]. intros signum.
    apply ends_quietly_bind; [auto with quiet|]. intros _.
    apply ends_quietly_bind; [|auto with quiet].
    destruct ((signum =? 2) && _); auto with quiet.
  - intros signum.
    apply ends_quietly_bind; [apply Hget|]. intros f3.
    apply ends_quietly_bind.
    + destruct (negb (is_None f3)); [|auto with quiet].
      apply ends_quietly_bind; [apply Hget|]. auto with quiet.
    + intros shutdown. apply ends_quietly_bind; [|auto with quiet].
      destruct (negb (signum =? 0)); auto with quiet.
Qed.

(** One call of [get_server_request] on a socket takes one arrival, or
    waits because there is none. *)
Lemma get_server_request_takes_one (sock : socket) (w : World) :
  fst (get_server_request (Some sock) w) <> OutOfFuel
  /\ (fst (get_server_request (Some sock) w) <> Blocked ->
      S (List.length (arrivals (snd (get_server_request (Some sock) w))))
      = List.length (arrivals w)).
Proof.
  destruct (arrivals w) as [|[|received|ex] rest] eqn:Ha.
  - rewrite (get_server_request_waits sock w Ha). cbn.
    split; [discriminate|congruence].
  - rewrite (get_server_request_timeout sock rest w Ha). cbn.
    split; [discriminate|reflexivity].
  - destruct (accepted_connection_closed sock received rest w Ha)
      as (o & events & w' & Hg & Hb & Hf & _ & _ & Har).
    rewrite Hg. cbn. split; [exact Hf|]. intros _. now rewrite Har.
  - unfold get_server_request. rewrite bind_logger.
    unfold bind, try, sock_accept. cbn [arrivals emit]. rewrite Ha.
    unfold except_clause. destruct (is_socket_timeout ex); cbn;
      (split; [discriminate|reflexivity]).
Qed.

(** With more passes than there are arrivals the loop of the listener
    never stops for lack of passes. *)
Lemma listener_loop_fuel (fuel : nat) (sock : option socket) (parent_pid : Z)
    (cluster_type : option string) :
  forall w,
    (List.length (arrivals w) < fuel)%nat ->
    fst (listener_loop fuel sock parent_pid cluster_type w) <> OutOfFuel.
Proof.
  induction fuel as [|fuel IH]; intros w Hlen; [lia|].
  cbn [listener_loop]. destruct sock as [sock|].
  - unfold bind at 1.
    destruct (get_server_request_takes_one sock w) as (Hf & Htake).
    destruct (get_server_request (Some sock) w) as [[request|ex| |] w1];
      cbn [fst snd] in *; try discriminate; try congruence.
    assert (Hlen1 : S (List.length (arrivals w1)) = List.length (arrivals w))
      by (apply Htake; discriminate).
    unfold bind at 1.
    assert (Hproc : forall m : M bool, ends_quietly m ->
               fst (match m w1 with
                    | (Ret a, w') =>
                        (if a then ret tt
                         else listener_loop fuel (Some sock) parent_pid cluster_type) w'
                    | (Raise ex, w') => (Raise ex, w')
                    | (Blocked, w') => (Blocked, w')
                    | (OutOfFuel, w') => (OutOfFuel, w')
                    end) <> OutOfFuel).
    { intros m Hm. destruct (Hm w1) as (Hb' & Hf' & Ha').
      destruct (m w1) as [[[]|ex| |] w2]; cbn [fst snd] in *;
        try discriminate; try congruence.
      apply IH. rewrite Ha'. lia. }
    destruct (truthy request).
    + apply Hproc, process_request_ends.
    + apply Hproc. auto with quiet.
  - unfold bind at 1. rewrite get_server_request_None. discriminate.
Qed.

End Fuel.

Lemma ends_quietly_ends {A} (m : M A) : ends_quietly m -> ends m.
Proof. intros Hm w. destruct (Hm w) as (Hb & Hf & _). now split. Qed.

Lemma ends_bind {A B} (m : M A) (k : A -> M B) :
  ends m -> (forall a, ends (k a)) -> ends (bind m k).
Proof.
  intros Hm Hk w. unfold bind. destruct (Hm w) as (Hb & Hf).
  destruct (m w) as [[a|ex| |] w']; cbn in *; try congruence.
  - apply Hk.
  - split; discriminate.
Qed.

Lemma ends_try {A} (m : M A) : ends m -> ends (try m).
Proof.
  intros Hm w. unfold try. destruct (Hm w) as (Hb & Hf).
  destruct (m w) as [[a|ex| |] w']; cbn in *; try congruence; split; discriminate.
Qed.

Lemma ends_or_raise {A} (ex : exn) (o : option A) : ends (or_raise ex o).
Proof. destruct o; intros w; cbn; split; discriminate. Qed.

Lemma ends_ask {A} (f : Env -> A) : ends (ask f).
Proof. intros w; cbn; split; discriminate. Qed.

Lemma ends_select_socket (lower_port upper_port : Z) :
  ends (_select_socket lower_port upper_port).
Proof.
  intros w. pose proof (select_socket_spec lower_port upper_port w) as Hs.
  destruct (_select_socket lower_port upper_port w) as [[s|ex| |] w']; cbn;
    try contradiction; split; discriminate.
Qed.

Lemma ends_getsockname (sock : socket) : ends (sock_getsockname_port sock).
Proof.
  intros w. unfold sock_getsockname_port.
  destruct (socket_entry (fileno sock) (open_sockets w)) as [[p|]|]; cbn;
    split; discriminate.
Qed.

Section Totality.
Context `{PyLib} `{CryptoLib}.

Lemma ends_encrypt (content : list byte) (public_key : string) :
  ends (_encrypt content public_key).
Proof.
  unfold _encrypt.
  apply ends_bind; [intros w; cbn; split; discriminate|]. intros aes_key.
  apply ends_bind; [apply ends_or_raise|]. intros encrypted.
  apply ends_bind; [apply ends_or_raise|]. intros der.
  apply ends_bind; [apply ends_or_raise|]. intros key.
  apply ends_bind.
  - intros w. destruct (PKCS1_v1_5_encrypt key aes_key _) as [[c used]|]; cbn;
      split; discriminate.
  - intros wrapped w. cbn. split; discriminate.
Qed.

Lemma ends_return_connection_info (connection_file response_addr : string)
    (lower_port upper_port : Z) (kernel_id public_key : string) :
  ends (return_connection_info connection_file response_addr lower_port upper_port
          kernel_id public_key).
Proof.
  assert (Hrec : forall e, ends (record e))
    by (intros e; apply ends_quietly_ends, ends_quietly_record).
  assert (Hret : forall A (a : A), ends (ret a))
    by (intros A a; apply ends_quietly_ends, ends_quietly_ret).
  assert (Hset : forall v k x, ends (setitem v k x))
    by (intros v k x w; destruct v; cbn; split; discriminate).
  unfold return_connection_info, logger.
  destruct (negb _); [apply ends_bind; auto|].
  destruct (int_of_str _) as [response_port|]; [|apply ends_bind; auto].
  apply ends_bind.
  { unfold load_connection_file. apply ends_bind; [|intros; apply ends_or_raise].
    intros w. destruct (files (env w) connection_file); cbn; split; discriminate. }
  intros cf. apply ends_bind; [apply ends_ask|]. intros pid.
  apply ends_bind; [apply Hset|]. intros cf1.
  apply ends_bind; [apply ends_ask|]. intros pgid.
  apply ends_bind; [apply Hset|]. intros cf2.
  apply ends_bind.
  { unfold prepare_comm_socket, logger, sock_listen, sock_settimeout.
    apply ends_bind; [apply ends_select_socket|]. intros sock.
    apply ends_bind; [apply ends_getsockname|]. intros port.
    repeat (apply ends_bind; [apply Hrec|intros _]). apply Hret. }
  intros comm_sock. apply ends_bind; [apply ends_getsockname|]. intros comm_port.
  apply ends_bind; [apply Hset|]. intros cf3.
  apply ends_bind; [apply Hset|]. intros cf4.
  apply ends_bind; [|intros; apply Hret].
  unfold with_socket.
  apply ends_bind; [intros w; cbn; split; discriminate|]. intros s.
  apply ends_bind.
  - apply ends_try.
    apply ends_bind.
    { intros w. unfold sock_connect. destruct (connect_outcome _ _ _); cbn;
        split; discriminate. }
    intros _. apply ends_bind; [apply Hrec|]. intros _.
    apply ends_bind; [apply ends_encrypt|]. intros payload.
    apply ends_bind; [apply Hrec|]. intros _.
    intros w. unfold sock_send. destruct (send_outcome _ _); cbn; split; discriminate.
  - intros r. apply ends_bind; [intros w; cbn; split; discriminate|].
    intros _. destruct r; intros w; cbn; split; discriminate.
Qed.

(** [server_listener] never stops for lack of passes: the bounds that the
    model gives its loops are enough. *)
Lemma server_listener_fuel (connection_file response_addr : string)
    (lower_port upper_port : Z) (kernel_id public_key : string) (parent_pid : Z)
    (cluster_type : option string) (w : World) :
  fst (server_listener connection_file response_addr lower_port upper_port
         kernel_id public_key parent_pid cluster_type w) <> OutOfFuel.
Proof.
  unfold server_listener, bind at 1.
  destruct (ends_return_connection_info connection_file response_addr lower_port
              upper_port kernel_id public_key w) as (_ & Hf).
  destruct (return_connection_info _ _ _ _ _ _ w) as [[sock|ex| |] w1];
    cbn [fst] in *; try discriminate; try congruence.
  unfold bind.
  pose proof (listener_loop_fuel (S (List.length (arrivals w1))) sock parent_pid
                cluster_type w1 (Nat.lt_succ_diag_r _)) as Hloop.
  destruct (listener_loop _ sock parent_pid cluster_type w1) as [[[]|ex| |] w2];
    cbn [fst] in *; try discriminate; try congruence.
  destruct sock; discriminate.
Qed.

End Totality.

(** ** The payload codec *)

Lemma list_ind3 {A} (P : list A -> Prop) :
  P [] -> (forall a, P [a]) -> (forall a b, P [a; b]) ->
  (forall a b c l, P l -> P (a :: b :: c :: l)) ->
  forall l, P l.
Proof.
  intros H0 H1 H2 H3.
  assert (Hall : forall l, P l /\ (forall a, P (a :: l)) /\ (forall a b, P (a :: b :: l))).
  { induction l as [|x l (IHa & IHb & IHc)]; repeat split; auto. }
  intros l. apply Hall.
Qed.

Lemma byte_of_to_N (b : byte) : byte_of_N (Byte.to_N b) = b.
Proof. unfold byte_of_N. now rewrite Byte.of_to_N. Qed.

Lemma to_N_byte_of_N (n : N) : (n <= 255)%N -> Byte.to_N (byte_of_N n) = n.
Proof.
  intros Hn. unfold byte_of_N.
  pose proof (Byte.to_of_N_option_map n) as Hm.
  destruct (n <=? 255)%N eqn:Hle; [|apply N.leb_gt in Hle; lia].
  destruct (Byte.of_N n) as [b|]; [|discriminate]. cbn in Hm. now inversion Hm.
Qed.

(** Every sextet has its own character, which is not the padding. *)
Lemma b64_char_index (n : N) :
  (n < 64)%N ->
  Byte.eqb (b64_char n) b64_pad = false /\ b64_index (b64_char n) = Some n.
Proof.
  intros Hn.
  assert (Hall : forallb
                   (fun i => negb (Byte.eqb (b64_char i) b64_pad)
                             && match b64_index (b64_char i) with
                                | Some j => N.eqb j i
                                | None => false
                                end)
                   (map N.of_nat (seq 0 64)) = true) by (vm_compute; reflexivity).
  rewrite forallb_forall in Hall.
  assert (Hin : In n (map N.of_nat (seq 0 64))).
  { apply in_map_iff. exists (N.to_nat n). split; [lia|]. apply in_seq. lia. }
  specialize (Hall n Hin). apply andb_prop in Hall. destruct Hall as [H1 H2].
  split; [now apply negb_true_iff|].
  destruct (b64_index (b64_char n)) as [j|]; [|discriminate].
  apply N.eqb_eq in H2. now subst.
Qed.

Ltac Zify.zify_post_hook ::= Z.to_euclidean_division_equations.

Lemma sextets_of_triple (a b c : N) :
  (a <= 255 -> b <= 255 -> c <= 255 ->
   a / 4 < 64 /\ a mod 4 * 16 + b / 16 < 64
   /\ b mod 16 * 4 + c / 64 < 64 /\ c mod 64 < 64
   /\ a / 4 * 4 + (a mod 4 * 16 + b / 16) / 16 = a
   /\ (a mod 4 * 16 + b / 16) mod 16 * 16 + (b mod 16 * 4 + c / 64) / 4 = b
   /\ (b mod 16 * 4 + c / 64) mod 4 * 64 + c mod 64 = c)%N.
Proof. intros Ha Hb Hc. repeat split; lia. Qed.

Ltac Zify.zify_post_hook ::= idtac.

(** One step of the decoder on the character of a sextet. *)
Lemma a2b_base64_sextet (v : N) (rest : list byte) (quad_pos leftchar pads : N)
    (out : list byte) :
  (v < 64)%N ->
  a2b_base64 (b64_char v :: rest) quad_pos leftchar pads out
  = if (quad_pos =? 0)%N then a2b_base64 rest 1%N v 0%N out
    else if (quad_pos =? 1)%N then
      a2b_base64 rest 2%N (v mod 16)%N 0%N
        (out ++ [byte_of_N (leftchar * 4 + v / 16)%N])
    else if (quad_pos =? 2)%N then
      a2b_base64 rest 3%N (v mod 4)%N 0%N
        (out ++ [byte_of_N (leftchar * 16 + v / 4)%N])
    else
      a2b_base64 rest 0%N 0%N 0%N (out ++ [byte_of_N (leftchar * 64 + v)%N]).
Proof.
  intros Hv. destruct (b64_char_index v Hv) as [Hpad Hidx].
  cbn [a2b_base64]. now rewrite Hpad, Hidx.
Qed.

(** Decoding what [b64encode] gives returns the bytes. *)
Lemma a2b_base64_b64encode (data : list byte) :
  forall out, a2b_base64 (b64encode data) 0%N 0%N 0%N out = Some (out ++ data).
Proof.
  induction data as [|a|a b|a b c rest IH] using list_ind3; intros out.
  - cbn. now rewrite app_nil_r.
  - pose proof (Byte.to_N_bounded a) as Ha.
    destruct (sextets_of_triple (Byte.to_N a) 0 0 Ha) as (H1 & H2 & _ & _ & E1 & _);
      [lia|lia|].
    cbn [b64encode]. rewrite N.Div0.div_0_l, N.add_0_r in * by lia.
    rewrite !a2b_base64_sextet by assumption. cbn [N.eqb Pos.eqb].
    rewrite E1, byte_of_to_N. reflexivity.
  - pose proof (Byte.to_N_bounded a) as Ha. pose proof (Byte.to_N_bounded b) as Hb.
    destruct (sextets_of_triple (Byte.to_N a) (Byte.to_N b) 0 Ha Hb)
      as (H1 & H2 & H3 & _ & E1 & E2 & _); [lia|].
    cbn [b64encode]. rewrite N.Div0.div_0_l, N.add_0_r in * by lia.
    rewrite !a2b_base64_sextet by assumption. cbn [N.eqb Pos.eqb].
    rewrite E1, E2, !byte_of_to_N, <- app_assoc. reflexivity.
  - pose proof (Byte.to_N_bounded a) as Ha. pose proof (Byte.to_N_bounded b) as Hb.
    pose proof (Byte.to_N_bounded c) as Hc.
    destruct (sextets_of_triple (Byte.to_N a) (Byte.to_N b) (Byte.to_N c) Ha Hb Hc)
      as (H1 & H2 & H3 & H4 & E1 & E2 & E3).
    cbn [b64encode]. rewrite !a2b_base64_sextet by assumption. cbn [N.eqb Pos.eqb].
    rewrite E1, E2, E3, !byte_of_to_N, IH, <- !app_assoc. reflexivity.
Qed.

Lemma b64decode_b64encode (data : list byte) : b64decode (b64encode data) = Some data.
Proof. unfold b64decode. now rewrite a2b_base64_b64encode. Qed.

Lemma pad_length (data : list byte) :
  (List.length (pad data 16) mod 16 = 0)%nat /\ (0 < List.length (pad data 16))%nat.
Proof.
  unfold pad. rewrite length_app, repeat_length.
  pose proof (Nat.mod_upper_bound (List.length data) 16).
  pose proof (Nat.div_mod_eq (List.length data) 16).
  split; [|lia].
  replace (List.length data + (16 - List.length data mod 16))%nat
    with ((List.length data / 16 + 1) * 16)%nat by lia.
  apply Nat.Div0.mod_mul.
Qed.

Lemma forallb_repeat (b : byte) (n : nat) : forallb (Byte.eqb b) (repeat b n) = true.
Proof.
  induction n as [|n IH]; cbn; [reflexivity|].
  rewrite IH, andb_true_r. now apply Byte.byte_dec_lb.
Qed.

Lemma last_repeat (data : list byte) (b d : byte) (n : nat) :
  (0 < n)%nat -> last (data ++ repeat b n) d = b.
Proof.
  intros Hn. destruct n as [|n]; [lia|].
  replace (repeat b (S n)) with (repeat b n ++ [b]).
  - rewrite app_assoc. apply last_last.
  - clear. induction n as [|n IH]; cbn; [reflexivity|]. now rewrite IH.
Qed.

(** Removing the padding returns the data. *)
Lemma unpad_pad (data : list byte) : unpad (pad data 16) 16 = Some data.
Proof.
  destruct (pad_length data) as [Hmod Hpos].
  unfold unpad. rewrite Hmod.
  destruct (List.length (pad data 16) =? 0)%nat eqn:Hz;
    [apply Nat.eqb_eq in Hz; lia|].
  cbn [negb Nat.eqb].
  unfold pad in *. set (p := (16 - List.length data mod 16)%nat) in *.
  pose proof (Nat.mod_upper_bound (List.length data) 16).
  assert (Hp : (1 <= p <= 16)%nat) by (unfold p; lia).
  rewrite last_repeat by lia.
  assert (Hto : Byte.to_nat (byte_of_N (N.of_nat p)) = p).
  { rewrite Byte.to_nat_via_N, to_N_byte_of_N by lia. lia. }
  rewrite Hto, length_app, repeat_length.
  destruct (p <? 1)%nat eqn:H1; [apply Nat.ltb_lt in H1; lia|].
  destruct (Nat.min 16 (List.length data + p) <? p)%nat eqn:H2;
    [apply Nat.ltb_lt in H2; lia|].
  cbn [orb].
  replace (List.length data + p - p)%nat with (List.length data + 0)%nat by lia.
  rewrite skipn_app, firstn_app. 
  replace (List.length data + 0 - List.length data)%nat with 0%nat by lia.
  rewrite Nat.add_0_r, skipn_all, firstn_all. cbn [skipn firstn app].
  rewrite forallb_repeat, app_nil_r. reflexivity.
Qed.

Lemma firstn_exact {A} (l r : list A) (n : nat) :
  List.length l = n -> firstn n (l ++ r) = l.
Proof.
  intros Hn. subst n. rewrite firstn_app, Nat.sub_diag, firstn_all. cbn.
  apply app_nil_r.
Qed.

Lemma skipn_exact {A} (l r : list A) (n : nat) :
  List.length l = n -> skipn n (l ++ r) = r.
Proof. intros Hn. subst n. now rewrite skipn_app, Nat.sub_diag, skipn_all. Qed.

Section BlockCipher.
Variables enc dec : list byte -> list byte.
Hypothesis enc_length : forall block, List.length block = 16%nat ->
                                      List.length (enc block) = 16%nat.
Hypothesis dec_enc : forall block, List.length block = 16%nat -> dec (enc block) = block.

Lemma ecb_blocks_length (n : nat) :
  forall data, List.length data = (16 * n)%nat ->
               List.length (ecb_blocks enc n data) = (16 * n)%nat.
Proof.
  induction n as [|n IH]; intros data Hlen; cbn [ecb_blocks]; [reflexivity|].
  rewrite length_app, enc_length, IH; try lia.
  - rewrite length_skipn. lia.
  - rewrite length_firstn. lia.
Qed.

Lemma ecb_blocks_inverse (n : nat) :
  forall data, List.length data = (16 * n)%nat ->
               ecb_blocks dec n (ecb_blocks enc n data) = data.
Proof.
  induction n as [|n IH]; intros data Hlen; cbn [ecb_blocks].
  - destruct data; [reflexivity|cbn in Hlen; lia].
  - assert (Hf : List.length (firstn 16 data) = 16%nat) by (rewrite length_firstn; lia).
    assert (Hs : List.length (skipn 16 data) = (16 * n)%nat)
      by (rewrite length_skipn; lia).
    rewrite (firstn_exact _ _ 16), (skipn_exact _ _ 16) by (now apply enc_length).
    rewrite dec_enc, IH by assumption.
    apply firstn_skipn.
Qed.

End BlockCipher.

Section Codec.
Context `{PyLib} `{CryptoLib}.

(** [_encrypt] returns the envelope, encoded, once the public key imports
    and wraps the AES key. *)
Lemma encrypt_returns (connection_info_bytes der wrapped : list byte)
    (public_key : string) (imported : public_key_t) (used : nat) (w : World) :
  let aes_key := map (urandom (env w)) (seq (urandom_used w) 16) in
  let padded := pad connection_info_bytes 16 in
  let encrypted :=
    ecb_blocks (AES_encrypt_block aes_key) (List.length padded / 16) padded in
  b64decode (list_byte_of_string public_key) = Some der ->
  RSA_importKey der = Some imported ->
  PKCS1_v1_5_encrypt imported aes_key (fun i => urandom (env w) (urandom_used w + 16 + i))
  = Some (wrapped, used) ->
  _encrypt connection_info_bytes public_key w
  = (Ret (b64encode
            (list_byte_of_string
               (json_dumps (envelope (b64encode wrapped) (b64encode encrypted))))),
     set_urandom_used (urandom_used w + 16 + used) w).
Proof.
  intros aes_key padded encrypted Hder Himport Hwrap.
  destruct (pad_length connection_info_bytes) as [Hmod _].
  unfold _encrypt, bind at 1, get_random_bytes. fold aes_key.
  unfold bind at 1, AES_ECB_encrypt. fold padded. unfold padded at 1. rewrite Hmod.
  cbn [Nat.eqb or_raise]. unfold ret at 1. fold encrypted.
  unfold bind at 1. rewrite Hder. cbn [or_raise]. unfold ret at 1.
  unfold bind at 1. rewrite Himport. cbn [or_raise]. unfold ret at 1.
  unfold bind at 1. cbn [env urandom_used set_urandom_used]. rewrite Hwrap.
  reflexivity.
Qed.

(** C7. With a block cipher whose decryption undoes its encryption, a
    public key that imports and a private key that matches it, and a
    JSON library that reads back the envelope it wrote, decrypting what
    [_encrypt] returns gives the very bytes that were encrypted, whatever
    their length. *)
Theorem decrypt_encrypt (connection_info_bytes der : list byte)
    (public_key : string) (imported : public_key_t) (private_key : private_key_t)
    (w : World) :
  (forall key block,
      List.length block = 16%nat ->
      List.length (AES_encrypt_block key block) = 16%nat
      /\ AES_decrypt_block key (AES_encrypt_block key block) = block) ->
  b64decode (list_byte_of_string public_key) = Some der ->
  RSA_importKey der = Some imported ->
  (forall message random,
      List.length message = 16%nat ->
      exists ciphertext used,
        PKCS1_v1_5_encrypt imported message random = Some (ciphertext, used)
        /\ PKCS1_v1_5_decrypt private_key ciphertext = Some message) ->
  (forall key conn_info,
      json_loads (json_dumps (envelope (b64encode key) (b64encode conn_info)))
      = Some (envelope (b64encode key) (b64encode conn_info))) ->
  exists payload w',
    _encrypt connection_info_bytes public_key w = (Ret payload, w')
    /\ decrypt payload private_key = Some connection_info_bytes.
Proof.
  intros Haes Hder Himport Hpair Hjson.
  set (aes_key := map (urandom (env w)) (seq (urandom_used w) 16)).
  assert (Hkey : List.length aes_key = 16%nat)
    by (unfold aes_key; now rewrite length_map, length_seq).
  destruct (pad_length connection_info_bytes) as [Hmod Hpos].
  set (padded := pad connection_info_bytes 16) in *.
  assert (Hlen : List.length padded = (16 * (List.length padded / 16))%nat).
  { pose proof (Nat.div_mod_eq (List.length padded) 16). lia. }
  set (encrypted := ecb_blocks (AES_encrypt_block aes_key) (List.length padded / 16) padded).
  destruct (Hpair aes_key (fun i => urandom (env w) (urandom_used w + 16 + i)) Hkey)
    as (wrapped & used & Hwrap & Hunwrap).
  eexists _, _. split.
  - exact (encrypt_returns connection_info_bytes der wrapped public_key imported used w
             Hder Himport Hwrap).
  - fold aes_key padded encrypted.
    unfold decrypt. rewrite b64decode_b64encode. cbn [obind].
    rewrite string_of_list_byte_of_string, Hjson. cbn [obind envelope dict_get].
    cbn [String.eqb Ascii.eqb Bool.eqb].
    rewrite !list_byte_of_string_of_list_byte, !b64decode_b64encode. cbn [obind].
    rewrite Hunwrap. cbn [obind].
    assert (Henc_len : List.length encrypted = (16 * (List.length padded / 16))%nat).
    { apply ecb_blocks_length; [|exact Hlen]. intros block Hb. now apply Haes. }
    unfold AES_ECB_decrypt. rewrite Henc_len.
    replace (16 * (List.length padded / 16))%nat
      with ((List.length padded / 16) * 16)%nat by lia.
    rewrite Nat.Div0.mod_mul, Nat.div_mul by lia. cbn [Nat.eqb obind].
    unfold encrypted. rewrite ecb_blocks_inverse.
    + apply unpad_pad.
    + intros block Hb. now apply Haes.
    + intros block Hb. now apply Haes.
    + exact Hlen.
Qed.

End Codec.

(** ** The sample libraries satisfy what the codec needs *)

Lemma log2_byte (n : N) : (n <= 255)%N -> (N.log2 n < 8)%N.
Proof.
  intros Hn. destruct (N.eq_dec n 0) as [->|Hz]; [reflexivity|].
  apply N.log2_lt_pow2; [lia|]. change (2 ^ 8)%N with 256%N. lia.
Qed.

Lemma lxor_byte (a b : N) : (a <= 255)%N -> (b <= 255)%N -> (N.lxor a b <= 255)%N.
Proof.
  intros Ha Hb. destruct (N.eq_dec (N.lxor a b) 0) as [->|Hz]; [lia|].
  assert (Hlog : (N.log2 (N.lxor a b) < 8)%N).
  { pose proof (N.log2_lxor a b). pose proof (log2_byte a Ha). pose proof (log2_byte b Hb).
    lia. }
  apply N.log2_lt_pow2 in Hlog; [|lia]. change (2 ^ 8)%N with 256%N in Hlog. lia.
Qed.

Lemma xor_byte_involutive (a k : byte) : Sample.xor_byte (Sample.xor_byte a k) k = a.
Proof.
  unfold Sample.xor_byte.
  rewrite to_N_byte_of_N
    by (apply lxor_byte; apply Byte.to_N_bounded).
  rewrite N.lxor_assoc, N.lxor_nilpotent, N.lxor_0_r. apply byte_of_to_N.
Qed.

Lemma xor_bytes_length (key : list byte) :
  forall block, List.length (Sample.xor_bytes block key) = List.length block.
Proof.
  induction key as [|k key IH]; intros [|b block]; cbn; auto.
Qed.

Lemma xor_bytes_involutive (key : list byte) :
  forall block, Sample.xor_bytes (Sample.xor_bytes block key) key = block.
Proof.
  induction key as [|k key IH]; intros [|b block]; cbn; auto.
  now rewrite xor_byte_involutive, IH.
Qed.

Lemma sample_unwrap (key message : list byte) :
  @PKCS1_v1_5_decrypt Sample.crypto key (key ++ message) = Some message.
Proof.
  cbn. rewrite (firstn_exact key message _ eq_refl), (skipn_exact key message _ eq_refl).
  rewrite length_app.
  assert (Heq : forallb (fun p => Byte.eqb (fst p) (snd p)) (combine key key) = true).
  { induction key as [|k key IH]; cbn; [reflexivity|].
    rewrite IH, andb_true_r. now apply Byte.byte_dec_lb. }
  rewrite Heq. cbn [andb].
  destruct (List.length key <=? List.length key + List.length message)%nat eqn:Hle;
    [reflexivity|]. apply Nat.leb_gt in Hle. lia.
Qed.


Lemma scan_string_plain (s rest : string) :
  Sample.plain s = true ->
  Sample.scan_string (s ++ String Sample.dquote rest) = Some (s, rest).
Proof.
  induction s as [|c s IH]; cbn [append Sample.plain Sample.scan_string].
  - intros _. now rewrite Ascii.eqb_refl.
  - intros [Hc Hs]%andb_prop. unfold Sample.plain_char in Hc.
    apply andb_prop in Hc. destruct Hc as [H1 H2].
    apply negb_true_iff in H1, H2. rewrite H1, H2, (IH Hs). reflexivity.
Qed.

Lemma plain_b64_char (n : N) : Sample.plain_char (ascii_of_byte (b64_char n)) = true.
Proof.
  assert (Hall : forallb (fun b => Sample.plain_char (ascii_of_byte b)) (b64_pad :: b64_alphabet)
                 = true) by (vm_compute; reflexivity).
  rewrite forallb_forall in Hall. apply Hall. unfold b64_char.
  destruct (nth_in_or_default (N.to_nat n) b64_alphabet b64_pad) as [Hin|Hd].
  - now right.
  - left. now rewrite Hd.
Qed.

Lemma plain_b64encode (data : list byte) :
  Sample.plain (string_of_list_byte (b64encode data)) = true.
Proof.
  assert (Hpad : Sample.plain_char (ascii_of_byte b64_pad) = true) by reflexivity.
  induction data as [|a|a b|a b c rest IH] using list_ind3;
    unfold string_of_list_byte in *; cbn [b64encode map string_of_list_ascii Sample.plain];
    rewrite ?plain_b64_char, ?Hpad, ?IH; reflexivity.
Qed.

Lemma sample_json_envelope_plain (K C : string) :
  Sample.plain K = true -> Sample.plain C = true ->
  Sample.json_loads
    (Sample.json_dumps
       (JDict [("version"%string, JInt LAUNCHER_VERSION); ("key"%string, JStr K);
               ("conn_info"%string, JStr C)]))
  = Some (JDict [("version"%string, JInt LAUNCHER_VERSION); ("key"%string, JStr K);
                 ("conn_info"%string, JStr C)]).
Proof.
  intros HK HC.
  unfold Sample.json_dumps, Sample.dumps_members, Sample.dumps_scalar, Sample.quote.
  change (decimal LAUNCHER_VERSION) with "1"%string.
  repeat (rewrite ?append_assoc; cbn [append]).
  unfold Sample.json_loads, Sample.scan_value. cbn.
  rewrite (scan_string_plain K _ HK). cbn.
  rewrite (scan_string_plain C _ HC). cbn.
  reflexivity.
Qed.

Lemma sample_json_envelope (key conn_info : list byte) :
  Sample.json_loads
    (Sample.json_dumps (envelope (b64encode key) (b64encode conn_info)))
  = Some (envelope (b64encode key) (b64encode conn_info)).
Proof. apply sample_json_envelope_plain; apply plain_b64encode. Qed.

(** * Further properties *)

(** ** Descriptors *)

Lemma closes_app (t u : list event) : closes (t ++ u) = (closes t + closes u)%nat.
Proof.
  induction t as [|e t IH]; simpl; [reflexivity|].
  destruct e; simpl; rewrite IH; reflexivity.
Qed.

Lemma socket_entry_unallocated (n : nat) (l : list (nat * option Z)) :
  Forall (fun s => (fst s < n)%nat) l -> socket_entry n l = None.
Proof.
  induction 1 as [|[fd e] l Hlt _ IH]; simpl; [reflexivity|].
  simpl in Hlt. destruct (Nat.eqb_spec fd n); [lia|exact IH].
Qed.

Lemma socket_entry_app_new (n : nat) (e : option Z) (l : list (nat * option Z)) :
  socket_entry n l = None -> socket_entry n (l ++ [(n, e)]) = Some e.
Proof.
  induction l as [|[fd e'] l IH]; simpl; intros Hn.
  - now rewrite Nat.eqb_refl.
  - destruct (Nat.eqb fd n); [discriminate|auto].
Qed.

Lemma set_socket_port_app_new (n : nat) (p : Z) (l : list (nat * option Z)) :
  socket_entry n l = None ->
  set_socket_port n p (l ++ [(n, None)]) = l ++ [(n, Some p)].
Proof.
  induction l as [|[fd e'] l IH]; simpl; intros Hn.
  - now rewrite Nat.eqb_refl.
  - destruct (Nat.eqb fd n); [discriminate|]. now rewrite IH.
Qed.

Lemma drop_socket_unallocated (n : nat) (l : list (nat * option Z)) :
  socket_entry n l = None -> drop_socket n l = l.
Proof.
  unfold drop_socket. induction l as [|[fd e'] l IH]; simpl; intros Hn; [reflexivity|].
  destruct (Nat.eqb fd n); [discriminate|]. simpl. now rewrite IH.
Qed.

Lemma drop_socket_app (n : nat) (l1 l2 : list (nat * option Z)) :
  drop_socket n (l1 ++ l2) = drop_socket n l1 ++ drop_socket n l2.
Proof. unfold drop_socket. apply filter_app. Qed.

Lemma drop_socket_app_new (n : nat) (e : option Z) (l : list (nat * option Z)) :
  socket_entry n l = None -> drop_socket n (l ++ [(n, e)]) = l.
Proof.
  intros Hn. rewrite drop_socket_app, (drop_socket_unallocated n l Hn).
  unfold drop_socket. simpl. rewrite Nat.eqb_refl. simpl. apply app_nil_r.
Qed.

(** ** The attempts of [_select_socket] *)

Lemma unbindable_granted (w : World) (port : Z) :
  unbindable w port = false ->
  (port <? 0) || (65535 <? port) = false /\ exists p, grant_port w port = Some p.
Proof.
  unfold unbindable. intros Hu. apply orb_false_iff in Hu. destruct Hu as (Hr & Hg).
  split; [exact Hr|]. destruct (grant_port w port) as [p|]; [now exists p|discriminate].
Qed.

Lemma drawn_port_in_range (w : World) (lower upper : Z) (i : nat) :
  lower < upper -> lower <= drawn_port w lower upper i <= upper.
Proof.
  intros Hlt. unfold drawn_port.
  pose proof (Z.mod_pos_bound (randint_draws (env w) (draws_used w + i)) (upper - lower + 1)).
  lia.
Qed.

(** One pass of the loop on a range of more than one port: the candidate
    is drawn and the socket is bound to it, or the bind fails. *)
Lemma attempt_on_drawn_port (sock : socket) (lower upper : Z) (w : World) :
  lower < upper ->
  let port := drawn_port w lower upper 0 in
  let w1 := set_draws_used (S (draws_used w)) w in
  try (port <- _get_candidate_port lower upper ;; sock_bind sock port) w
  = match sock_bind sock port w1 with
    | (Ret a, w') => (Ret (inr a), w')
    | (Raise ex, w') => (Ret (inl ex), w')
    | (Blocked, w') => (Blocked, w')
    | (OutOfFuel, w') => (OutOfFuel, w')
    end.
Proof.
  intros Hlt port w1. unfold try, bind, _get_candidate_port, random_randint.
  destruct (Z.eqb_spec (upper - lower) 0) as [Hz|_]; [lia|].
  destruct (Z.ltb_spec upper lower) as [Hu|_]; [lia|].
  unfold port, w1, drawn_port. now rewrite Nat.add_0_r.
Qed.

Lemma select_socket_loop_first_free (sock : socket) (lower upper : Z) (k : nat) :
  forall (fuel : nat) (retries : Z) (w : World),
    0 < lower -> lower < upper ->
    socket_entry (fileno sock) (open_sockets w) = Some None ->
    retries + Z.of_nat k <= max_port_range_retries (env w) ->
    (k < fuel)%nat ->
    (forall i, (i < k)%nat -> unbindable w (drawn_port w lower upper i) = true) ->
    unbindable w (drawn_port w lower upper k) = false ->
    exists w',
      _select_socket_loop fuel sock retries lower upper w = (Ret tt, w')
      /\ open_sockets w'
         = set_socket_port (fileno sock) (drawn_port w lower upper k) (open_sockets w)
      /\ bind_attempts (trace w') = (bind_attempts (trace w) + S k)%nat
      /\ closes (trace w') = closes (trace w)
      /\ draws_used w' = (draws_used w + S k)%nat
      /\ env w' = env w
      /\ next_fileno w' = next_fileno w
      /\ arrivals w' = arrivals w.
Proof.
  induction k as [|k IH]; intros fuel retries w Hpos Hlt Hs Hmax Hfuel Hbusy Hfree;
    (destruct fuel as [|fuel]; [lia|]); cbn [_select_socket_loop]; unfold bind at 1;
    rewrite (attempt_on_drawn_port sock lower upper w Hlt); cbv zeta.
  - set (port := drawn_port w lower upper 0) in *.
    pose proof (drawn_port_in_range w lower upper 0 Hlt) as Hr. fold port in Hr.
    assert (Hfree1 : unbindable (set_draws_used (S (draws_used w)) w) port = false)
      by (rewrite <- Hfree; now apply unbindable_ext).
    destruct (unbindable_granted _ _ Hfree1) as (Hrange & p & Hg).
    assert (p = port) by (apply (grant_port_nonzero _ _ _ Hg); lia). subst p.
    unfold sock_bind. rewrite Hrange. cbn [open_sockets set_draws_used].
    rewrite Hs, Hg. eexists. split; [reflexivity|].
    cbn. rewrite bind_attempts_app, closes_app. cbn. repeat split; lia.
  - set (port := drawn_port w lower upper 0) in *.
    set (w1 := set_draws_used (S (draws_used w)) w).
    assert (Hbusy1 : unbindable w1 port = true).
    { rewrite <- (Hbusy 0%nat) by lia. now apply unbindable_ext. }
    destruct (sock_bind_unbindable sock port w1 Hbusy1) as (ex & Hb). rewrite Hb.
    set (w2 := emit (EvBind (fileno sock) port None) w1).
    unfold bind at 1, ask. cbn [fst snd].
    change (env w2) with (env w).
    destruct (Z.gtb_spec (retries + 1) (max_port_range_retries (env w))) as [Hgt|_]; [lia|].
    assert (Hd : forall i, drawn_port w2 lower upper i = drawn_port w lower upper (S i)).
    { intros i. unfold drawn_port. cbn. now rewrite Nat.add_succ_r. }
    assert (Hu : forall q, unbindable w2 q = unbindable w q)
      by (intros q; now apply unbindable_ext).
    destruct (IH fuel (retries + 1) w2 Hpos Hlt) as (w' & Hl & Ho & Hba & Hcl & Hdu & He & Hn & Ha).
    + exact Hs.
    + change (env w2) with (env w). lia.
    + lia.
    + intros i Hi. rewrite Hd, Hu. apply Hbusy. lia.
    + rewrite Hd, Hu. exact Hfree.
    + exists w'. split; [exact Hl|]. rewrite Ho, Hba, Hcl, Hdu, He, Hn, Ha, Hd.
      cbn. rewrite bind_attempts_app, closes_app. cbn. repeat split; lia.
Qed.

(** X1. The first candidate that can be bound is the port of the socket:
    [_select_socket] binds the candidates of its draws one after the other
    and stops at the first success. *)
Theorem select_socket_first_free (lower_port upper_port : Z) (k : nat) (w : World) :
  0 < lower_port -> lower_port < upper_port ->
  descriptors_allocated w ->
  Z.of_nat k <= max_port_range_retries (env w) ->
  (forall i, (i < k)%nat ->
     unbindable w (drawn_port w lower_port upper_port i) = true) ->
  unbindable w (drawn_port w lower_port upper_port k) = false ->
  exists w',
    _select_socket lower_port upper_port w = (Ret {| fileno := next_fileno w |}, w')
    /\ open_sockets w'
       = open_sockets w
         ++ [(next_fileno w, Some (drawn_port w lower_port upper_port k))]
    /\ lower_port <= drawn_port w lower_port upper_port k <= upper_port
    /\ bind_attempts (trace w') = (bind_attempts (trace w) + S k)%nat
    /\ draws_used w' = (draws_used w + S k)%nat.
Proof.
  intros Hpos Hlt Hwf Hmax Hbusy Hfree.
  pose proof (socket_entry_unallocated _ _ Hwf) as Hnew.
  unfold _select_socket, bind at 1, socket_socket.
  set (w0 := emit _ _). unfold bind at 1, ask. unfold bind at 1.
  assert (Hu : forall q, unbindable w0 q = unbindable w q).
  { intros q. apply unbindable_ext; [reflexivity|]. intros r. apply port_in_use_new_socket. }
  assert (Hd : forall i, drawn_port w0 lower_port upper_port i
                         = drawn_port w lower_port upper_port i) by reflexivity.
  destruct (select_socket_loop_first_free {| fileno := next_fileno w |} lower_port
              upper_port k (S (Z.to_nat (max_port_range_retries (env w0)))) 0 w0 Hpos Hlt)
    as (w' & Hl & Ho & Hba & _ & Hdu & _).
  - cbn. now apply socket_entry_app_new.
  - change (env w0) with (env w). lia.
  - change (env w0) with (env w). lia.
  - intros i Hi. rewrite Hd, Hu. now apply Hbusy.
  - now rewrite Hd, Hu.
  - rewrite Hl. exists w'. split; [reflexivity|].
    rewrite Ho, Hba, Hdu, Hd. cbn.
    rewrite (set_socket_port_app_new _ _ _ Hnew), bind_attempts_app. cbn.
    repeat split; try lia; apply (drawn_port_in_range w lower_port upper_port k Hlt).
Qed.

(** X2. A range of one port, [lower_port = upper_port]: the candidate is
    port 0 whatever the bound is, no number is drawn, and the system
    assigns the port.  With a free port in the system's order the socket
    is bound by the first attempt, to that port and not to the bound of
    the range. *)
Theorem select_socket_single_port_range (port p : Z) (w : World) :
  descriptors_allocated w ->
  find (fun q => negb (port_in_use w q)) (ephemeral_ports (env w)) = Some p ->
  exists w',
    _select_socket port port w = (Ret {| fileno := next_fileno w |}, w')
    /\ open_sockets w' = open_sockets w ++ [(next_fileno w, Some p)]
    /\ trace w'
       = trace w ++ [EvSocket (next_fileno w); EvBind (next_fileno w) 0 (Some p)]
    /\ draws_used w' = draws_used w.
Proof.
  intros Hwf Hfind.
  pose proof (socket_entry_unallocated _ _ Hwf) as Hnew.
  unfold _select_socket, bind at 1, socket_socket.
  set (w0 := emit _ _). unfold bind at 1, ask. unfold bind at 1.
  assert (Hg : grant_port w0 0 = Some p).
  { rewrite (grant_port_ext w w0 0); [exact Hfind|reflexivity|].
    intros q. apply port_in_use_new_socket. }
  cbn [_select_socket_loop]. unfold bind at 1, try, bind at 1, _get_candidate_port.
  rewrite Z.sub_diag. cbn [Z.eqb ret]. unfold sock_bind. cbn [Z.ltb Z.compare orb fileno].
  assert (Hs : socket_entry (next_fileno w) (open_sockets w0) = Some None)
    by (cbn; now apply socket_entry_app_new).
  rewrite Hs, Hg. cbn. eexists. split; [reflexivity|]. cbn.
  rewrite (set_socket_port_app_new _ _ _ Hnew), <- app_assoc. now repeat split.
Qed.

Lemma select_socket_loop_inverted_range (sock : socket) (lower upper : Z) :
  forall (fuel : nat) (retries : Z) (w : World),
    upper < lower ->
    max_port_range_retries (env w) - retries < Z.of_nat fuel ->
    (0 < fuel)%nat ->
    _select_socket_loop fuel sock retries lower upper w
    = (Raise (RuntimeError
                (port_range_message lower upper (max_port_range_retries (env w)))), w).
Proof.
  induction fuel as [|fuel IH]; intros retries w Hlt Hfuel Hpos; [lia|].
  cbn [_select_socket_loop]. unfold bind at 1, try, bind at 1, _get_candidate_port.
  destruct (Z.eqb_spec (upper - lower) 0) as [Hz|_]; [lia|].
  unfold random_randint. destruct (Z.ltb_spec upper lower) as [_|Hge]; [|lia].
  unfold bind at 1, ask. cbn [fst snd].
  destruct (Z.gtb_spec (retries + 1) (max_port_range_retries (env w))) as [Hgt|Hle];
    [reflexivity|].
  apply IH; [exact Hlt|lia|lia].
Qed.

(** X3. A range whose bounds are in the wrong order: every draw raises, which
    the loop takes for a failed bind.  [_select_socket] raises the
    [RuntimeError] of an exhausted range without one call of [bind], and
    the socket it created has not been closed. *)
Theorem select_socket_inverted_range (lower_port upper_port : Z) (w : World) :
  upper_port < lower_port ->
  _select_socket lower_port upper_port w
  = (Raise (RuntimeError
              (port_range_message lower_port upper_port
                 (max_port_range_retries (env w)))),
     emit (EvSocket (next_fileno w))
       (set_next_fileno (S (next_fileno w))
          (set_open_sockets (open_sockets w ++ [(next_fileno w, None)]) w)))
  /\ bind_attempts (trace (snd (_select_socket lower_port upper_port w)))
     = bind_attempts (trace w).
Proof.
  intros Hlt.
  assert (Hrun : _select_socket lower_port upper_port w
                 = (Raise (RuntimeError
                             (port_range_message lower_port upper_port
                                (max_port_range_retries (env w)))),
                    emit (EvSocket (next_fileno w))
                      (set_next_fileno (S (next_fileno w))
                         (set_open_sockets (open_sockets w ++ [(next_fileno w, None)]) w)))).
  { unfold _select_socket, bind at 1, socket_socket.
    set (w0 := emit _ _). unfold bind at 1, ask. unfold bind at 1.
    rewrite select_socket_loop_inverted_range; [reflexivity|exact Hlt| |lia].
    change (env w0) with (env w). lia. }
  split; [exact Hrun|]. rewrite Hrun. cbn. rewrite bind_attempts_app. cbn. lia.
Qed.

(** ** The sockets of [_select_ports] *)

Lemma attempt_frame (sock : socket) (lower upper : Z) (w : World) :
  exists r w',
    try (port <- _get_candidate_port lower upper ;; sock_bind sock port) w = (Ret r, w')
    /\ env w' = env w
    /\ next_fileno w' = next_fileno w
    /\ arrivals w' = arrivals w
    /\ closes (trace w') = closes (trace w)
    /\ match r with
       | inl _ => open_sockets w' = open_sockets w
       | inr _ =>
           exists p,
             socket_entry (fileno sock) (open_sockets w) = Some None
             /\ port_in_use w p = false
             /\ open_sockets w' = set_socket_port (fileno sock) p (open_sockets w)
       end.
Proof.
  assert (Hbind : forall port w1,
             env w1 = env w -> open_sockets w1 = open_sockets w ->
             next_fileno w1 = next_fileno w -> arrivals w1 = arrivals w ->
             trace w1 = trace w ->
             exists r w',
               match sock_bind sock port w1 with
               | (Ret a, w') => (Ret (inr a), w')
               | (Raise ex, w') => (Ret (inl ex), w')
               | (Blocked, w') => (Blocked, w')
               | (OutOfFuel, w') => (OutOfFuel, w')
               end = (Ret r, w')
               /\ env w' = env w
               /\ next_fileno w' = next_fileno w
               /\ arrivals w' = arrivals w
               /\ closes (trace w') = closes (trace w)
               /\ match r with
                  | inl _ => open_sockets w' = open_sockets w
                  | inr _ =>
                      exists p,
                        socket_entry (fileno sock) (open_sockets w) = Some None
                        /\ port_in_use w p = false
                        /\ open_sockets w'
                           = set_socket_port (fileno sock) p (open_sockets w)
                  end).
  { intros port w1 He Ho Hn Ha Ht. unfold sock_bind.
    assert (Hg : grant_port w1 port = grant_port w port).
    { apply grant_port_ext; [exact He|]. intros q. unfold port_in_use. now rewrite He, Ho. }
    assert (Hc : closes (trace (emit (EvBind (fileno sock) port None) w1))
                 = closes (trace w)).
    { cbn. rewrite closes_app, Ht. cbn. lia. }
    destruct ((port <? 0) || (65535 <? port)).
    { eexists (inl _), _. split; [reflexivity|]. now repeat split. }
    rewrite Ho. destruct (socket_entry (fileno sock) (open_sockets w)) as [[q|]|] eqn:Hs;
      try (eexists (inl _), _; split; [reflexivity|]; now repeat split).
    rewrite Hg. destruct (grant_port w port) as [p|] eqn:Hp;
      try (eexists (inl _), _; split; [reflexivity|]; now repeat split).
    eexists (inr _), _. split; [reflexivity|]. cbn.
    rewrite closes_app, Ht. cbn. repeat split; auto; try lia.
    exists p. repeat split. apply (grant_port_free _ _ _ Hp). }
  unfold try, bind, _get_candidate_port.
  destruct (upper - lower =? 0).
  - unfold ret. apply Hbind; reflexivity.
  - unfold random_randint. destruct (upper <? lower).
    + eexists (inl _), _. split; [reflexivity|]. now repeat split.
    + apply Hbind; reflexivity.
Qed.

Lemma select_socket_loop_frame (sock : socket) (lower upper : Z) :
  forall (fuel : nat) (retries : Z) (w : World),
  exists o w',
    _select_socket_loop fuel sock retries lower upper w = (o, w')
    /\ env w' = env w
    /\ next_fileno w' = next_fileno w
    /\ arrivals w' = arrivals w
    /\ closes (trace w') = closes (trace w)
    /\ match o with
       | Ret _ =>
           exists p,
             socket_entry (fileno sock) (open_sockets w) = Some None
             /\ port_in_use w p = false
             /\ open_sockets w' = set_socket_port (fileno sock) p (open_sockets w)
       | _ => open_sockets w' = open_sockets w
       end.
Proof.
  induction fuel as [|fuel IH]; intros retries w.
  - eexists _, _. split; [reflexivity|]. now repeat split.
  - cbn [_select_socket_loop]. unfold bind at 1.
    destruct (attempt_frame sock lower upper w)
      as (r & w1 & Hr & He & Hn & Ha & Hc & Ho).
    rewrite Hr. destruct r as [ex|[]].
    + unfold bind at 1, ask. cbn [fst snd].
      destruct (retries + 1 >? max_port_range_retries (env w1)).
      * eexists _, _. split; [reflexivity|]. now repeat split.
      * destruct (IH (retries + 1) w1) as (o & w' & Hl & He' & Hn' & Ha' & Hc' & Ho').
        exists o, w'. split; [exact Hl|].
        rewrite He', Hn', Ha', Hc', He, Hn, Ha, Hc. repeat split.
        destruct o as [[]| | |]; rewrite ?Ho' , ?Ho; try reflexivity.
        destruct Ho' as (p & Hs & Hf & Hop). exists p.
        rewrite Ho in Hs, Hop. repeat split; auto.
        rewrite <- Hf. unfold port_in_use. now rewrite He, Ho.
    + eexists _, _. split; [reflexivity|]. now repeat split.
Qed.

(** What [_select_socket] does to the sockets: it opens one, and leaves it
    bound when it returns and unbound when it raises; it closes none. *)
Lemma select_socket_frame (lower upper : Z) (w : World) :
  descriptors_allocated w ->
  exists o w',
    _select_socket lower upper w = (o, w')
    /\ env w' = env w
    /\ next_fileno w' = S (next_fileno w)
    /\ arrivals w' = arrivals w
    /\ closes (trace w') = closes (trace w)
    /\ match o with
       | Ret sock =>
           fileno sock = next_fileno w
           /\ exists p,
               port_in_use w p = false
               /\ open_sockets w' = open_sockets w ++ [(next_fileno w, Some p)]
       | _ => open_sockets w' = open_sockets w ++ [(next_fileno w, None)]
       end.
Proof.
  intros Hwf. pose proof (socket_entry_unallocated _ _ Hwf) as Hnew.
  unfold _select_socket, bind at 1, socket_socket.
  set (w0 := emit _ _). unfold bind at 1, ask. unfold bind at 1.
  destruct (select_socket_loop_frame {| fileno := next_fileno w |} lower upper
              (S (Z.to_nat (max_port_range_retries (env w0)))) 0 w0)
    as (o & w' & Hl & He & Hn & Ha & Hc & Ho).
  rewrite Hl.
  assert (Hc0 : closes (trace w0) = closes (trace w)).
  { unfold w0. cbn. rewrite closes_app. cbn. lia. }
  destruct o as [[]|ex| |]; eexists _, _; (split; [reflexivity|]);
    rewrite ?He, ?Hn, ?Ha, ?Hc, ?Hc0; repeat split; try exact Ho.
  destruct Ho as (p & _ & Hf & Hop). exists p. split.
  - rewrite <- Hf. symmetry. apply port_in_use_new_socket.
  - rewrite Hop. cbn. now apply set_socket_port_app_new.
Qed.

Lemma descriptors_allocated_grow (w w' : World) (new : list (nat * option Z)) (n : nat) :
  descriptors_allocated w ->
  open_sockets w' = open_sockets w ++ new ->
  next_fileno w' = (next_fileno w + n)%nat ->
  Forall (fun s => (fst s < next_fileno w + n)%nat) new ->
  descriptors_allocated w'.
Proof.
  unfold descriptors_allocated. intros Hwf Ho Hn Hnew. rewrite Ho, Hn.
  apply Forall_app. split; [|exact Hnew].
  eapply Forall_impl; [|exact Hwf]. cbn. intros s Hs. lia.
Qed.

Lemma port_in_use_more (w w' : World) (new : list (nat * option Z)) (p : Z) :
  env w' = env w -> open_sockets w' = open_sockets w ++ new ->
  port_in_use w' p = false -> port_in_use w p = false.
Proof.
  unfold port_in_use. intros He Ho. rewrite He, Ho, existsb_app.
  intros H. apply orb_false_iff in H. destruct H as (H1 & H2).
  apply orb_false_iff in H2. destruct H2 as (H2 & _). now rewrite H1, H2.
Qed.

(** The loop of [_select_ports] on the sockets: the sockets it has opened
    are all open, after those that were, and none has been closed. *)
Lemma select_ports_loop_frame (lower upper : Z) (n : nat) :
  forall (ports : list Z) (sockets : list socket) (w : World),
    descriptors_allocated w ->
    exists o w' new,
      _select_ports_loop n lower upper ports sockets w = (o, w')
      /\ env w' = env w
      /\ arrivals w' = arrivals w
      /\ closes (trace w') = closes (trace w)
      /\ open_sockets w' = open_sockets w ++ new
      /\ Forall (fun s => (next_fileno w <= fst s)%nat) new
      /\ match o with
         | Ret r =>
             exists new_ports,
               fst r = ports ++ new_ports
               /\ snd r = sockets ++ map (fun s => {| fileno := fst s |}) new
               /\ Forall (fun p => port_in_use w p = false) new_ports
               /\ List.length new = n
         | Raise _ => new <> []
         | _ => True
         end.
Proof.
  induction n as [|n IH]; intros ports sockets w Hwf.
  - exists (Ret (ports, sockets)), w, []. cbn. rewrite !app_nil_r.
    repeat split; auto. exists []. rewrite app_nil_r. now repeat split.
  - cbn [_select_ports_loop]. unfold bind at 1.
    destruct (select_socket_frame lower upper w Hwf)
      as (o & w1 & Hs & He & Hn & Ha & Hc & Ho).
    assert (Hone : Forall (fun s : nat * option Z => (next_fileno w <= fst s)%nat)
                     [(next_fileno w, @None Z)])
      by (constructor; [cbn; lia|constructor]).
    rewrite Hs. destruct o as [sock|ex| |];
      [|exists (Raise ex), w1, [(next_fileno w, None)]; repeat split; auto; discriminate
       |exists Blocked, w1, [(next_fileno w, None)]; repeat split; auto
       |exists OutOfFuel, w1, [(next_fileno w, None)]; repeat split; auto].
    destruct Ho as (Hfd & p & Hfree & Hop).
    unfold bind at 1, sock_getsockname_port. rewrite Hfd, Hop.
    rewrite (socket_entry_app_new _ _ _ (socket_entry_unallocated _ _ Hwf)).
    assert (Hwf1 : descriptors_allocated w1).
    { apply (descriptors_allocated_grow w w1 [(next_fileno w, Some p)] 1 Hwf Hop).
      - rewrite Hn. lia.
      - constructor; [cbn; lia|constructor]. }
    destruct (IH (ports ++ [p]) (sockets ++ [sock]) w1 Hwf1)
      as (o & w' & new & Hl & He' & Ha' & Hc' & Hop' & Hnew & Hres).
    exists o, w', ((next_fileno w, Some p) :: new). split; [exact Hl|].
    rewrite He', Ha', Hc', He, Ha, Hc, Hop', Hop, <- app_assoc. cbn [app].
    repeat split.
    + constructor; [cbn; lia|]. eapply Forall_impl; [|exact Hnew].
      cbn. intros s Hs'. lia.
    + destruct o as [r|ex| |]; auto; [|discriminate].
      destruct Hres as (new_ports & Hp & Hso & Hfr & Hlen).
      exists (p :: new_ports). rewrite Hp, Hso, <- !app_assoc. cbn.
      destruct sock as [fd]. cbn in Hfd. subst fd. repeat split; auto.
      constructor; [exact Hfree|].
      eapply Forall_impl; [|exact Hfr]. cbn. intros q Hq.
      apply (port_in_use_more w w1 [(next_fileno w, Some p)] q He Hop Hq).
Qed.

Lemma filter_filter {A} (f g : A -> bool) (l : list A) :
  filter f (filter g l) = filter (fun x => g x && f x) l.
Proof.
  induction l as [|x l IH]; simpl; [reflexivity|].
  destruct (g x); simpl; [destruct (f x)|]; now rewrite IH.
Qed.

Lemma filter_none {A} (f : A -> bool) (l : list A) :
  (forall x, In x l -> f x = false) -> filter f l = [].
Proof.
  induction l as [|x l IH]; intros Hall; cbn; [reflexivity|].
  rewrite (Hall x (or_introl eq_refl)). apply IH. intros y Hy. apply Hall. now right.
Qed.

(** [close_all] closes the sockets in order and removes them from the open
    ones. *)
Lemma close_all_drops (sockets : list socket) :
  forall w,
  exists w',
    close_all sockets w = (Ret tt, w')
    /\ env w' = env w
    /\ arrivals w' = arrivals w
    /\ trace w' = trace w ++ map (fun s => EvClose (fileno s)) sockets
    /\ open_sockets w'
       = filter (fun s => negb (existsb (Nat.eqb (fst s)) (map fileno sockets)))
           (open_sockets w).
Proof.
  induction sockets as [|sock sockets IH]; intros w.
  - exists w. cbn. rewrite app_nil_r. repeat split.
    induction (open_sockets w) as [|s l IHl]; cbn; [reflexivity|now rewrite <- IHl].
  - cbn [close_all]. unfold bind at 1, close_fileno.
    destruct (IH (emit (EvClose (fileno sock))
                    (set_open_sockets (drop_socket (fileno sock) (open_sockets w)) w)))
      as (w' & Hc & He & Ha & Ht & Ho).
    exists w'. split; [exact Hc|]. rewrite He, Ha, Ht, Ho. cbn.
    rewrite <- app_assoc. repeat split.
    unfold drop_socket. rewrite filter_filter. apply filter_ext.
    intros s. rewrite (Nat.eqb_sym (fst s)). now rewrite negb_orb.
Qed.

Lemma closes_close_events (sockets : list socket) :
  closes (map (fun s => EvClose (fileno s)) sockets) = List.length sockets.
Proof. induction sockets as [|s l IH]; cbn; [reflexivity|now rewrite IH]. Qed.

Lemma filter_closed_new (n : nat) (base new : list (nat * option Z)) :
  Forall (fun s => (fst s < n)%nat) base ->
  Forall (fun s => (n <= fst s)%nat) new ->
  filter (fun s => negb (existsb (Nat.eqb (fst s))
                           (map fileno (map (fun s => {| fileno := fst s |}) new))))
    (base ++ new)
  = base.
Proof.
  intros Hb Hn.
  assert (Hm : map fileno (map (fun s : nat * option Z => {| fileno := fst s |}) new)
               = map fst new) by (rewrite map_map; now apply map_ext).
  rewrite Hm, filter_app.
  assert (H1 : filter (fun s => negb (existsb (Nat.eqb (fst s)) (map fst new))) base = base).
  { induction Hb as [|s l Hs _ IH]; cbn; [reflexivity|].
    assert (Hx : existsb (Nat.eqb (fst s)) (map fst new) = false).
    { apply not_true_is_false. intros Hx. apply existsb_exists in Hx.
      destruct Hx as (fd & Hin & Heq). apply Nat.eqb_eq in Heq. subst fd.
      apply in_map_iff in Hin. destruct Hin as (t & Ht & Hin).
      rewrite Forall_forall in Hn. specialize (Hn t Hin). lia. }
    now rewrite Hx, IH. }
  assert (H2 : filter (fun s => negb (existsb (Nat.eqb (fst s)) (map fst new))) new = []).
  { assert (Hall : forall s, In s new ->
               negb (existsb (Nat.eqb (fst s)) (map fst new)) = false).
    { intros s Hin. apply negb_false_iff, existsb_exists. exists (fst s).
      split; [now apply in_map|apply Nat.eqb_refl]. }
    now apply filter_none. }
  now rewrite H1, H2, app_nil_r.
Qed.

(** X4. When [_select_ports] returns, every socket it opened is closed again:
    the open sockets are those of before the call, so each port of the
    list is free once more, for the kernel that is given the list or for
    anyone else. *)
Theorem select_ports_releases_sockets (count lower_port upper_port : Z)
    (ports : list Z) (w w' : World) :
  descriptors_allocated w ->
  _select_ports count lower_port upper_port w = (Ret ports, w') ->
  open_sockets w' = open_sockets w
  /\ closes (trace w') = (closes (trace w) + Z.to_nat count)%nat
  /\ Forall (fun port => port_in_use w' port = false) ports.
Proof.
  intros Hwf. unfold _select_ports, bind at 1.
  destruct (select_ports_loop_frame lower_port upper_port (Z.to_nat count) [] [] w Hwf)
    as (o & w1 & new & Hl & He & Ha & Hc & Ho & Hnew & Hres).
  rewrite Hl. destruct o as [[ps socks]|ex| |]; try discriminate.
  destruct Hres as (new_ports & Hp & Hs & Hfree & Hlen). cbn [fst snd app] in *. subst.
  unfold bind at 1.
  destruct (close_all_drops (map (fun s => {| fileno := fst s |}) new) w1)
    as (w2 & Hcl & He2 & _ & Ht2 & Ho2).
  rewrite Hcl. unfold ret. intros Hret. injection Hret as <- <-.
  assert (Hopen : open_sockets w2 = open_sockets w).
  { rewrite Ho2, Ho. now apply (filter_closed_new (next_fileno w)). }
  split; [exact Hopen|]. split.
  - rewrite Ht2, closes_app, closes_close_events, Hc, length_map, Hlen. reflexivity.
  - eapply Forall_impl; [|exact Hfree]. cbn. intros p Hp.
    rewrite <- Hp. unfold port_in_use. now rewrite He2, He, Hopen.
Qed.

(** X5. When [_select_ports] raises, it has closed nothing: the socket that
    found no port and those bound before it are still open when the
    exception leaves the function. *)
Theorem select_ports_failure_leaves_sockets_open (count lower_port upper_port : Z)
    (ex : exn) (w w' : World) :
  descriptors_allocated w ->
  _select_ports count lower_port upper_port w = (Raise ex, w') ->
  closes (trace w') = closes (trace w)
  /\ exists new, new <> [] /\ open_sockets w' = open_sockets w ++ new.
Proof.
  intros Hwf. unfold _select_ports, bind at 1.
  destruct (select_ports_loop_frame lower_port upper_port (Z.to_nat count) [] [] w Hwf)
    as (o & w1 & new & Hl & He & Ha & Hc & Ho & Hnew & Hres).
  rewrite Hl. destruct o as [[ps socks]|ex1| |]; try discriminate.
  - unfold bind at 1.
    destruct (close_all_drops (snd (ps, socks)) w1) as (w2 & Hcl & _).
    rewrite Hcl. discriminate.
  - intros Hret. injection Hret as <- <-. split; [exact Hc|]. now exists new.
Qed.

(** ** More on the listener *)

Lemma logged_requests_app (t u : list event) :
  logged_requests (t ++ u) = (logged_requests t + logged_requests u)%nat.
Proof.
  induction t as [|e t IH]; simpl; [reflexivity|].
  destruct e as [[] msg| | | | | | | | | |]; simpl; rewrite ?IH; try reflexivity.
  destruct (String.eqb msg "server_listener got request"); simpl; now rewrite ?IH.
Qed.

Lemma closes_received_buffer_events (conn : nat) (chunks : list (list byte)) :
  closes (received_buffer_events conn chunks) = 0%nat
  /\ logged_requests (received_buffer_events conn chunks) = 0%nat.
Proof. induction chunks as [|b l IH]; simpl; auto. Qed.

Section ListenerMore.
Context `{PyLib}.

(** What [get_server_request] makes of the way the draining ends: the
    connection is closed; a timeout gives [None], another exception is
    raised again. *)
Lemma get_server_request_drained (sock : socket) (received : list recv_outcome)
    (rest : list accept_event) (o : outcome pyval) (events : list event) (w : World) :
  arrivals w = AcceptConnection received :: rest ->
  (forall w0, drain_connection (next_fileno w) received EmptyString w0
              = (o, emit_all events w0)) ->
  o <> Blocked -> o <> OutOfFuel ->
  exists w',
    get_server_request (Some sock) w
    = (match o with
       | Raise ex => if is_socket_timeout ex then Ret JNull else Raise ex
       | _ => o
       end, w')
    /\ env w' = env w
    /\ arrivals w' = rest
    /\ next_fileno w' = S (next_fileno w)
    /\ open_sockets w'
       = drop_socket (next_fileno w) (open_sockets w ++ [(next_fileno w, None)])
    /\ trace w'
       = trace w
         ++ [EvLog INFO "DEBUG: get_server_request: waiting for socket accept";
             EvAccept (fileno sock) (next_fileno w);
             EvLog INFO "DEBUG: get_server_request: socket accepted"]
         ++ events ++ [EvClose (next_fileno w)].
Proof.
  intros Ha Hd Hb Hf. unfold get_server_request. rewrite bind_logger.
  unfold bind at 1, try at 1, sock_accept. cbn [arrivals emit]. rewrite Ha.
  cbn beta iota. cbn [conn_fileno incoming].
  unfold bind at 1, try at 1. rewrite bind_logger.
  change (next_fileno (emit (EvLog INFO
            "DEBUG: get_server_request: waiting for socket accept") w))
    with (next_fileno w).
  rewrite Hd.
  set (w0 := emit (EvLog INFO "DEBUG: get_server_request: socket accepted") _).
  destruct (emit_all_frame events w0) as (He & Har & Hos & Hn & _).
  assert (Ht : trace (emit_all events w0)
               = trace w
                 ++ [EvLog INFO "DEBUG: get_server_request: waiting for socket accept";
                     EvAccept (fileno sock) (next_fileno w);
                     EvLog INFO "DEBUG: get_server_request: socket accepted"] ++ events).
  { rewrite trace_emit_all. unfold w0. cbn. now rewrite <- !app_assoc. }
  assert (Hw0 : env w0 = env w /\ arrivals w0 = rest
                /\ next_fileno w0 = S (next_fileno w)
                /\ open_sockets w0 = open_sockets w ++ [(next_fileno w, None)])
    by (now repeat split).
  destruct Hw0 as (He0 & Har0 & Hn0 & Ho0). clearbody w0.
  destruct o as [v|ex| |]; try congruence; cbn beta iota;
    unfold bind, close_fileno, except_clause, ret, raise;
    [|destruct (is_socket_timeout ex); cbn [negb]];
    (eexists; split; [reflexivity|];
     cbn [env trace emit open_sockets arrivals next_fileno set_open_sockets];
     rewrite Ht, Har, He, Hos, Hn, He0, Har0, Hn0, Ho0;
     repeat split; now rewrite <- !app_assoc).
Qed.

Lemma drain_connection_silent (conn : nat) (received : list recv_outcome) (w : World) :
  idle (AcceptConnection received) = true ->
  drain_connection conn received EmptyString w
  = (Ret JNull,
     emit_all [EvRecv conn (RecvBytes []);
               EvLog INFO "DEBUG: get_server_request: no data received - returning None"]
       w).
Proof.
  destruct received as [|[[|b0 b]|ex] more]; cbn [idle]; intros Hi;
    try discriminate; reflexivity.
Qed.

(** One pass of the loop on an idle arrival: nothing is asked of the
    process and the loop goes on. *)
Lemma listener_loop_idle (fuel : nat) (sock : socket) (parent_pid : Z)
    (cluster_type : option string) (a : accept_event) (rest : list accept_event)
    (w : World) :
  idle a = true ->
  arrivals w = a :: rest ->
  exists w1,
    listener_loop (S fuel) (Some sock) parent_pid cluster_type w
    = listener_loop fuel (Some sock) parent_pid cluster_type w1
    /\ env w1 = env w
    /\ arrivals w1 = rest
    /\ delivered (trace w1) = delivered (trace w)
    /\ undelivered (trace w1) = undelivered (trace w)
    /\ logged_requests (trace w1) = logged_requests (trace w).
Proof.
  intros Hi Ha. cbn [listener_loop]. unfold bind at 1.
  destruct a as [|received|ex]; [| |discriminate].
  - rewrite (get_server_request_timeout sock rest w Ha). cbn [truthy].
    rewrite bind_ret_l. eexists. split; [reflexivity|]. cbn.
    rewrite delivered_app, undelivered_app, logged_requests_app. cbn.
    rewrite !app_nil_r. repeat split. lia.
  - destruct (get_server_request_drained sock received rest (Ret JNull) _ w Ha
                (fun w0 => drain_connection_silent (next_fileno w) received w0 Hi))
      as (w1 & Hg & He & Har & _ & _ & Ht); try discriminate.
    rewrite Hg. cbn [truthy]. rewrite bind_ret_l. exists w1. split; [reflexivity|].
    rewrite Ht, !delivered_app, !undelivered_app, !logged_requests_app. cbn.
    rewrite !app_nil_r. repeat split; auto.
Qed.

(** X6. The listener passes over the arrivals that bring no request, the
    timeouts of [accept] and the peers that send nothing: it sends no
    signal for them, logs no request and goes on with the arrivals that
    follow; when none follows it waits in [accept]. *)
Theorem listener_skips_idle_arrivals (idles rest : list accept_event) (fuel : nat)
    (sock : socket) (parent_pid : Z) (cluster_type : option string) (w : World) :
  forallb idle idles = true ->
  arrivals w = idles ++ rest ->
  (exists w1,
      listener_loop (List.length idles + fuel) (Some sock) parent_pid cluster_type w
      = listener_loop fuel (Some sock) parent_pid cluster_type w1
      /\ env w1 = env w
      /\ arrivals w1 = rest
      /\ delivered (trace w1) = delivered (trace w)
      /\ undelivered (trace w1) = undelivered (trace w)
      /\ logged_requests (trace w1) = logged_requests (trace w))
  /\ (rest = [] ->
      fst (listener_loop (List.length idles + S fuel) (Some sock) parent_pid
             cluster_type w)
      = Blocked).
Proof.
  intros Hi Ha.
  assert (Hskip : forall fuel0,
             exists w1,
               listener_loop (List.length idles + fuel0) (Some sock) parent_pid
                 cluster_type w
               = listener_loop fuel0 (Some sock) parent_pid cluster_type w1
               /\ env w1 = env w
               /\ arrivals w1 = rest
               /\ delivered (trace w1) = delivered (trace w)
               /\ undelivered (trace w1) = undelivered (trace w)
               /\ logged_requests (trace w1) = logged_requests (trace w)).
  { intros fuel0. revert w Hi Ha.
    induction idles as [|a idles IH]; intros w Hi Ha.
    - exists w. now repeat split.
    - cbn [forallb] in Hi. apply andb_prop in Hi. destruct Hi as (Hia & Hi).
      destruct (listener_loop_idle (List.length idles + fuel0) sock parent_pid
                  cluster_type a (idles ++ rest) w Hia Ha)
        as (w1 & Hl & He & Har & Hd & Hu & Hlog).
      destruct (IH w1 Hi Har) as (w2 & Hl2 & He2 & Har2 & Hd2 & Hu2 & Hlog2).
      exists w2. cbn [List.length Nat.add]. rewrite Hl, Hl2.
      repeat split; congruence. }
  split; [apply Hskip|].
  intros Hrest. destruct (Hskip (S fuel)) as (w1 & Hl & _ & Har & _).
  rewrite Hl, listener_loop_waits; [reflexivity|congruence].
Qed.

(** Draining a connection does the same whatever the state: it only
    receives and logs. *)
Lemma drain_connection_quiet (conn : nat) (received : list recv_outcome) :
  forall (data : string),
  exists o events,
    (forall w, drain_connection conn received data w = (o, emit_all events w))
    /\ o <> Blocked /\ o <> OutOfFuel
    /\ closes events = 0%nat /\ accepts events = 0%nat
    /\ delivered events = [] /\ undelivered events = [].
Proof.
  assert (Hcomplete : forall data,
             exists o events,
               (forall w, send_is_complete data w = (o, emit_all events w))
               /\ o <> Blocked /\ o <> OutOfFuel
               /\ closes events = 0%nat /\ accepts events = 0%nat
               /\ delivered events = [] /\ undelivered events = []).
  { intros data. unfold send_is_complete.
    destruct (0 <? String.length data)%nat.
    - destruct (json_loads data) as [v|]; eexists _, []; cbn;
        (split; [reflexivity|]); repeat split; discriminate.
    - eexists _, [_]. split; [intros w; rewrite bind_logger; reflexivity|].
      cbn. repeat split; discriminate. }
  induction received as [|r l IH]; intros data.
  - destruct (Hcomplete data) as (o & events & Hs & Hb & Hf & Hc & Ha & Hd & Hu).
    exists o, (EvRecv conn (RecvBytes []) :: events). split.
    + intros w. cbn [drain_connection]. rewrite bind_record. apply Hs.
    + cbn. now repeat split.
  - destruct r as [buffer|ex].
    + destruct buffer as [|b0 b].
      * destruct (Hcomplete data) as (o & events & Hs & Hb & Hf & Hc & Ha & Hd & Hu).
        exists o, (EvRecv conn (RecvBytes []) :: events). split.
        -- intros w. cbn [drain_connection]. rewrite bind_record. apply Hs.
        -- cbn. now repeat split.
      * destruct (utf8_valid (b0 :: b)) eqn:Hv.
        -- destruct (IH (data ++ string_of_list_byte (b0 :: b))%string)
             as (o & events & Hs & Hb & Hf & Hc & Ha & Hd & Hu).
           exists o, (EvRecv conn (RecvBytes (b0 :: b))
                      :: EvLog INFO "DEBUG: get_server_request: received buffer"
                      :: events).
           split.
           ++ intros w. cbn [drain_connection]. rewrite bind_record, bind_logger.
              unfold bind at 1, decode_utf8. rewrite Hv. unfold ret at 1. apply Hs.
           ++ cbn. now repeat split.
        -- exists (Raise UnicodeDecodeError),
             [EvRecv conn (RecvBytes (b0 :: b));
              EvLog INFO "DEBUG: get_server_request: received buffer"].
           split.
           ++ intros w. cbn [drain_connection]. rewrite bind_record, bind_logger.
              unfold bind at 1, decode_utf8. now rewrite Hv.
           ++ cbn. repeat split; discriminate.
    + exists (Raise ex), [EvRecv conn (RecvRaises ex)]. split.
      * intros w. reflexivity.
      * cbn. repeat split; discriminate.
Qed.

(** X7. Whatever a peer sends and however the call ends, by a request, by
    [None] or by an exception, [get_server_request] accepts one connection
    and closes it: the open sockets are those of before the call. *)
Theorem accepted_connection_released (sock : socket) (received : list recv_outcome)
    (rest : list accept_event) (w : World) :
  descriptors_allocated w ->
  arrivals w = AcceptConnection received :: rest ->
  exists o w',
    get_server_request (Some sock) w = (o, w')
    /\ o <> Blocked
    /\ open_sockets w' = open_sockets w
    /\ descriptors_allocated w'
    /\ accepts (trace w') = S (accepts (trace w))
    /\ closes (trace w') = S (closes (trace w))
    /\ last (trace w') (EvAccept (fileno sock) (next_fileno w))
       = EvClose (next_fileno w)
    /\ arrivals w' = rest.
Proof.
  intros Hwf Ha.
  destruct (drain_connection_quiet (next_fileno w) received EmptyString)
    as (o & events & Hd & Hb & Hf & Hc & Hac & _).
  destruct (get_server_request_drained sock received rest o events w Ha Hd Hb Hf)
    as (w' & Hg & He & Har & Hn & Ho & Ht).
  assert (Hopen : open_sockets w' = open_sockets w).
  { rewrite Ho. apply drop_socket_app_new. now apply socket_entry_unallocated. }
  eexists _, w'. split; [exact Hg|]. split.
  { destruct o as [v|[]| |]; cbn; congruence. }
  split; [exact Hopen|]. split.
  { unfold descriptors_allocated. rewrite Hopen, Hn.
    eapply Forall_impl; [|exact Hwf]. cbn. intros s Hs. lia. }
  rewrite Ht. repeat split.
  - rewrite !accepts_app, Hac. cbn. lia.
  - rewrite !closes_app, Hc. cbn. lia.
  - rewrite !app_assoc. apply last_last.
  - exact Har.
Qed.

Lemma drain_connection_undecodable (conn : nat) (good : list (list byte))
    (bad : list byte) (more : list recv_outcome) :
  Forall sound_chunk good -> bad <> [] -> utf8_valid bad = false ->
  forall (data : string) (w : World),
    drain_connection conn (map RecvBytes good ++ RecvBytes bad :: more) data w
    = (Raise UnicodeDecodeError,
       emit_all (received_buffer_events conn good
                 ++ [EvRecv conn (RecvBytes bad);
                     EvLog INFO "DEBUG: get_server_request: received buffer"]) w).
Proof.
  intros Hgood Hne Hbad. induction Hgood as [|b l [Hb Hv] _ IH]; intros data w.
  - cbn [map app drain_connection received_buffer_events flat_map].
    rewrite bind_record. destruct bad as [|b0 b]; [congruence|].
    rewrite bind_logger. unfold bind at 1, decode_utf8. now rewrite Hbad.
  - cbn [map app drain_connection]. rewrite bind_record.
    destruct b as [|b0 b]; [congruence|].
    rewrite bind_logger. unfold bind at 1, decode_utf8. rewrite Hv.
    unfold ret at 1. cbn beta iota. rewrite IH. reflexivity.
Qed.

(** X8. A chunk that is not UTF-8 on its own ends the listener, even when the
    chunks together are: each buffer is decoded as it is received, so a
    character cut by the end of a buffer raises [UnicodeDecodeError].  The
    connection is closed, the text is never parsed and no signal is sent. *)
Theorem undecodable_chunk_ends_listener (fuel : nat) (sock : socket) (parent_pid : Z)
    (cluster_type : option string) (good : list (list byte)) (bad : list byte)
    (more : list recv_outcome) (rest : list accept_event) (w : World) :
  arrivals w = AcceptConnection (map RecvBytes good ++ RecvBytes bad :: more) :: rest ->
  Forall sound_chunk good -> bad <> [] -> utf8_valid bad = false ->
  exists w',
    get_server_request (Some sock) w = (Raise UnicodeDecodeError, w')
    /\ listener_loop (S fuel) (Some sock) parent_pid cluster_type w
       = (Raise UnicodeDecodeError, w')
    /\ arrivals w' = rest
    /\ closes (trace w') = S (closes (trace w))
    /\ delivered (trace w') = delivered (trace w).
Proof.
  intros Ha Hgood Hne Hbad.
  destruct (get_server_request_drained sock _ rest (Raise UnicodeDecodeError) _ w Ha
              (drain_connection_undecodable (next_fileno w) good bad more Hgood Hne Hbad
                 EmptyString))
    as (w' & Hg & _ & Har & _ & _ & Ht); try discriminate.
  cbn [is_socket_timeout] in Hg. exists w'. split; [exact Hg|]. split.
  { cbn [listener_loop]. unfold bind at 1. now rewrite Hg. }
  split; [exact Har|]. rewrite Ht.
  destruct (received_buffer_events_quiet (next_fileno w) good) as (Hd & _).
  destruct (closes_received_buffer_events (next_fileno w) good) as (Hc & _).
  rewrite !closes_app, !delivered_app, Hc, Hd. cbn. rewrite app_nil_r. split; [lia|reflexivity].
Qed.

(** One pass of the loop on a connection that delivers a text that
    parses: a value that is false in a test is passed over, any other
    goes to the body of [if request:]. *)
Lemma listener_loop_parsed (fuel : nat) (sock : socket) (parent_pid : Z)
    (cluster_type : option string) (chunks : list (list byte)) (v : pyval)
    (rest : list accept_event) (w : World) :
  arrivals w = AcceptConnection (map RecvBytes chunks) :: rest ->
  Forall sound_chunk chunks -> chunks <> [] ->
  json_loads (request_text chunks) = Some v ->
  exists w1,
    env w1 = env w
    /\ arrivals w1 = rest
    /\ trace w1 = trace w ++ connection_events (fileno sock) (next_fileno w) chunks
    /\ listener_loop (S fuel) (Some sock) parent_pid cluster_type w
       = if truthy v then
           match process_request v parent_pid cluster_type w1 with
           | (Ret true, w2) => (Ret tt, w2)
           | (Ret false, w2) => listener_loop fuel (Some sock) parent_pid cluster_type w2
           | (Raise ex, w2) => (Raise ex, w2)
           | (Blocked, w2) => (Blocked, w2)
           | (OutOfFuel, w2) => (OutOfFuel, w2)
           end
         else listener_loop fuel (Some sock) parent_pid cluster_type w1.
Proof.
  intros Ha Hc Hne Hj.
  destruct (get_server_request_connection sock chunks rest w Ha Hc)
    as (w1 & Hg & He & Har & Ht & _).
  exists w1. repeat (split; [assumption|]).
  cbn [listener_loop]. unfold bind at 1. rewrite Hg, (request_of_parsed chunks _ Hc Hne Hj).
  destruct (truthy v); [|now rewrite bind_ret_l].
  unfold bind at 1.
  destruct (process_request v parent_pid cluster_type w1) as [[[]|ex| |] w2];
    reflexivity.
Qed.

Lemma connection_events_unlogged (listener conn : nat) (chunks : list (list byte)) :
  logged_requests (connection_events listener conn chunks) = 0%nat.
Proof.
  unfold connection_events.
  destruct (closes_received_buffer_events conn chunks) as (_ & Hl).
  rewrite !logged_requests_app, Hl.
  destruct (0 <? String.length (request_text chunks))%nat; reflexivity.
Qed.

(** X9. A request that is false in a test, the empty object, an empty list or
    string, zero, [false] or [null], is passed over: the listener sends
    no signal, logs no request and goes on with the next arrival. *)
Theorem empty_request_is_passed_over (fuel : nat) (sock : socket) (parent_pid : Z)
    (cluster_type : option string) (chunks : list (list byte)) (v : pyval)
    (rest : list accept_event) (w : World) :
  arrivals w = AcceptConnection (map RecvBytes chunks) :: rest ->
  Forall sound_chunk chunks -> chunks <> [] ->
  json_loads (request_text chunks) = Some v ->
  truthy v = false ->
  exists w1,
    listener_loop (S fuel) (Some sock) parent_pid cluster_type w
    = listener_loop fuel (Some sock) parent_pid cluster_type w1
    /\ arrivals w1 = rest
    /\ delivered (trace w1) = delivered (trace w)
    /\ undelivered (trace w1) = undelivered (trace w)
    /\ logged_requests (trace w1) = logged_requests (trace w).
Proof.
  intros Ha Hc Hne Hj Hv.
  destruct (listener_loop_parsed fuel sock parent_pid cluster_type chunks v rest w
              Ha Hc Hne Hj) as (w1 & _ & Har & Ht & Hl).
  rewrite Hv in Hl. exists w1. split; [exact Hl|]. split; [exact Har|].
  destruct (connection_events_quiet (fileno sock) (next_fileno w) chunks) as (Hd & Hu & _).
  rewrite Ht, delivered_app, undelivered_app, logged_requests_app, Hd, Hu,
    connection_events_unlogged, !app_nil_r.
  repeat split. lia.
Qed.

(** X10. A request that is not an object and is true in a test, a number, a
    string, a list or [true], ends the listener: [request.get] raises
    [AttributeError], which nothing catches.  No signal is sent. *)
Theorem non_object_request_ends_listener (fuel : nat) (sock : socket) (parent_pid : Z)
    (cluster_type : option string) (chunks : list (list byte)) (v : pyval)
    (rest : list accept_event) (w : World) :
  arrivals w = AcceptConnection (map RecvBytes chunks) :: rest ->
  Forall sound_chunk chunks -> chunks <> [] ->
  json_loads (request_text chunks) = Some v ->
  truthy v = true ->
  (forall d, v <> JDict d) ->
  exists w',
    listener_loop (S fuel) (Some sock) parent_pid cluster_type w
    = (Raise AttributeError, w')
    /\ arrivals w' = rest
    /\ delivered (trace w') = delivered (trace w)
    /\ undelivered (trace w') = undelivered (trace w).
Proof.
  intros Ha Hc Hne Hj Hv Hobj.
  destruct (listener_loop_parsed fuel sock parent_pid cluster_type chunks v rest w
              Ha Hc Hne Hj) as (w1 & _ & Har & Ht & Hl).
  rewrite Hv in Hl.
  assert (Hp : process_request v parent_pid cluster_type w1 = (Raise AttributeError, w1)).
  { destruct v as [|b|n|x|s|items|d]; try reflexivity. now destruct (Hobj d). }
  rewrite Hp in Hl. exists w1. split; [exact Hl|]. split; [exact Har|].
  destruct (connection_events_quiet (fileno sock) (next_fileno w) chunks) as (Hd & Hu & _).
  now rewrite Ht, delivered_app, undelivered_app, Hd, Hu, !app_nil_r.
Qed.

Lemma process_request_bad_signum (d : pydict) (v : pyval) (parent_pid : Z)
    (cluster_type : option string) (ex : exn) (w : World) :
  dict_get "signum" d = Some v ->
  is_None v = false ->
  py_int v = inl ex ->
  process_request (JDict d) parent_pid cluster_type w = (Raise ex, w).
Proof.
  intros Hd Hn Hi. unfold process_request, request_get.
  rewrite !bind_ret_l, Hd, Hn. cbn [negb].
  rewrite bind_bind, bind_ret_l, bind_bind, Hi. reflexivity.
Qed.

(** X11. A request whose [signum] is not a number for [int], a text that is not
    a numeral, a list or an object, ends the listener with the exception
    of [int], before any signal is sent. *)
Theorem unconvertible_signum_ends_listener (fuel : nat) (sock : socket)
    (parent_pid : Z) (cluster_type : option string) (chunks : list (list byte))
    (d : pydict) (v : pyval) (ex : exn) (rest : list accept_event) (w : World) :
  arrivals w = AcceptConnection (map RecvBytes chunks) :: rest ->
  Forall sound_chunk chunks -> chunks <> [] ->
  json_loads (request_text chunks) = Some (JDict d) ->
  dict_get "signum" d = Some v ->
  is_None v = false ->
  py_int v = inl ex ->
  exists w',
    listener_loop (S fuel) (Some sock) parent_pid cluster_type w = (Raise ex, w')
    /\ arrivals w' = rest
    /\ delivered (trace w') = delivered (trace w)
    /\ undelivered (trace w') = undelivered (trace w).
Proof.
  intros Ha Hc Hne Hj Hd Hn Hi.
  destruct (listener_loop_parsed fuel sock parent_pid cluster_type chunks (JDict d) rest
              w Ha Hc Hne Hj) as (w1 & _ & Har & Ht & Hl).
  assert (Hv : truthy (JDict d) = true) by (destruct d; [discriminate|reflexivity]).
  rewrite Hv, (process_request_bad_signum d v parent_pid cluster_type ex w1 Hd Hn Hi) in Hl.
  exists w1. split; [exact Hl|]. split; [exact Har|].
  destruct (connection_events_quiet (fileno sock) (next_fileno w) chunks) as (Hq & Hu & _).
  now rewrite Ht, delivered_app, undelivered_app, Hq, Hu, !app_nil_r.
Qed.

(** X12. The listener ends on a request exactly when the value under
    [shutdown] is true in a test: a number other than zero or a text that
    is not empty (the text [false] among them) ends it like [true]; zero,
    the empty text and [false] leave it running. *)
Theorem shutdown_follows_truth_value (fuel : nat) (sock : socket) (parent_pid : Z)
    (cluster_type : option string) (chunks : list (list byte)) (d : pydict)
    (v : pyval) (rest : list accept_event) (w : World) :
  arrivals w = AcceptConnection (map RecvBytes chunks) :: rest ->
  Forall sound_chunk chunks -> chunks <> [] ->
  json_loads (request_text chunks) = Some (JDict d) ->
  field "signum" d = JNull ->
  dict_get "shutdown" d = Some v ->
  exists w2,
    listener_loop (S fuel) (Some sock) parent_pid cluster_type w
    = (if truthy v then (Ret tt, w2)
       else listener_loop fuel (Some sock) parent_pid cluster_type w2)
    /\ arrivals w2 = rest
    /\ delivered (trace w2) = delivered (trace w)
    /\ undelivered (trace w2) = undelivered (trace w).
Proof.
  intros Ha Hc Hne Hj Hs Hd.
  destruct (listener_loop_parsed fuel sock parent_pid cluster_type chunks (JDict d) rest
              w Ha Hc Hne Hj) as (w1 & _ & Har & Ht & Hl).
  assert (Hv : truthy (JDict d) = true) by (destruct d; [discriminate|reflexivity]).
  rewrite Hv, (process_request_no_signal d parent_pid cluster_type w1 Hs) in Hl.
  unfold field in Hl. rewrite Hd in Hl.
  exists (emit (EvLog INFO "server_listener got request") w1). split.
  { rewrite Hl. now destruct (truthy v). }
  split; [exact Har|]. cbn [trace emit].
  destruct (connection_events_quiet (fileno sock) (next_fileno w) chunks) as (Hq & Hu & _).
  rewrite Ht, !delivered_app, !undelivered_app, Hq, Hu. cbn. now rewrite !app_nil_r.
Qed.

Lemma delivered_relay_events (parent_pid signum : Z) (cluster_type : option string) :
  delivered ([EvKill parent_pid signum None]
             ++ (if (signum =? 2) && is_spark cluster_type
                 then [EvKill parent_pid SIGUSR2 None] else [])
             ++ (if negb (signum =? 0) then [EvLog INFO "server_listener got request"]
                 else []))
  = relayed parent_pid cluster_type [signum]
  /\ undelivered ([EvKill parent_pid signum None]
                  ++ (if (signum =? 2) && is_spark cluster_type
                      then [EvKill parent_pid SIGUSR2 None] else [])
                  ++ (if negb (signum =? 0)
                      then [EvLog INFO "server_listener got request"] else []))
     = []
  /\ logged_requests ([EvKill parent_pid signum None]
                      ++ (if (signum =? 2) && is_spark cluster_type
                          then [EvKill parent_pid SIGUSR2 None] else [])
                      ++ (if negb (signum =? 0)
                          then [EvLog INFO "server_listener got request"] else []))
     = if signum =? 0 then 0%nat else 1%nat.
Proof.
  unfold relayed. cbn [flat_map]. rewrite app_nil_r.
  destruct ((signum =? 2) && is_spark cluster_type); destruct (signum =? 0);
    repeat split.
Qed.

Lemma relayed_app (parent_pid : Z) (cluster_type : option string) (l1 l2 : list Z) :
  relayed parent_pid cluster_type (l1 ++ l2)
  = relayed parent_pid cluster_type l1 ++ relayed parent_pid cluster_type l2.
Proof. unfold relayed. apply flat_map_app. Qed.

(** One pass of the loop on a request to send a signal. *)
Lemma listener_loop_signal_request (fuel : nat) (sock : socket) (parent_pid : Z)
    (cluster_type : option string) (r : list (list byte) * Z)
    (rest : list accept_event) (w : World) :
  signal_request (env w) parent_pid cluster_type r ->
  arrivals w = AcceptConnection (map RecvBytes (fst r)) :: rest ->
  exists w1,
    listener_loop (S fuel) (Some sock) parent_pid cluster_type w
    = listener_loop fuel (Some sock) parent_pid cluster_type w1
    /\ env w1 = env w
    /\ arrivals w1 = rest
    /\ delivered (trace w1)
       = delivered (trace w) ++ relayed parent_pid cluster_type [snd r]
    /\ undelivered (trace w1) = undelivered (trace w)
    /\ logged_requests (trace w1)
       = (logged_requests (trace w) + if (snd r =? 0)%Z then 0 else 1)%nat.
Proof.
  intros (Hc & Hne & d & v & Hj & Hd & Hn & Hi & Hsh & Hk & Hk2) Ha.
  destruct (listener_loop_parsed fuel sock parent_pid cluster_type (fst r) (JDict d) rest
              w Ha Hc Hne Hj) as (w1 & He & Har & Ht & Hl).
  assert (Hv : truthy (JDict d) = true) by (destruct d; [discriminate|reflexivity]).
  rewrite Hv in Hl.
  rewrite (process_request_signal d v (snd r) parent_pid cluster_type w1 Hd Hn Hi) in Hl;
    [|now rewrite He|now rewrite He].
  rewrite Hsh in Hl.
  set (events := [EvKill parent_pid (snd r) None] ++ _) in Hl.
  destruct (emit_all_frame events w1) as (He' & Har' & _).
  exists (emit_all events w1). split; [exact Hl|].
  rewrite He', Har', He, Har, trace_emit_all, Ht.
  destruct (connection_events_quiet (fileno sock) (next_fileno w) (fst r))
    as (Hq & Hu & _).
  destruct (delivered_relay_events parent_pid (snd r) cluster_type) as (Hd1 & Hu1 & Hl1).
  fold events in Hd1, Hu1, Hl1.
  rewrite !delivered_app, !undelivered_app, !logged_requests_app, Hq, Hu, Hd1, Hu1, Hl1,
    connection_events_unlogged, !app_nil_r.
  repeat split. lia.
Qed.

Lemma listener_loop_signal_requests (reqs : list (list (list byte) * Z)) :
  forall (rest : list accept_event) (fuel : nat) (sock : socket) (parent_pid : Z)
         (cluster_type : option string) (w : World),
    Forall (signal_request (env w) parent_pid cluster_type) reqs ->
    arrivals w
    = map (fun r => AcceptConnection (map RecvBytes (fst r))) reqs ++ rest ->
    exists w1,
      listener_loop (List.length reqs + fuel) (Some sock) parent_pid cluster_type w
      = listener_loop fuel (Some sock) parent_pid cluster_type w1
      /\ env w1 = env w
      /\ arrivals w1 = rest
      /\ delivered (trace w1)
         = delivered (trace w) ++ relayed parent_pid cluster_type (map snd reqs)
      /\ undelivered (trace w1) = undelivered (trace w)
      /\ logged_requests (trace w1)
         = (logged_requests (trace w)
            + List.length (filter (fun signum => negb (signum =? 0)%Z) (map snd reqs)))%nat.
Proof.
  induction reqs as [|r reqs IH]; intros rest fuel sock parent_pid cluster_type w Hreqs Ha.
  - exists w. cbn. rewrite app_nil_r. repeat split; auto.
  - inversion Hreqs as [|? ? Hr Hreqs']; subst.
    destruct (listener_loop_signal_request (List.length reqs + fuel) sock parent_pid
                cluster_type r _ w Hr Ha)
      as (w1 & Hl & He & Har & Hd & Hu & Hlog).
    rewrite <- He in Hreqs'.
    destruct (IH rest fuel sock parent_pid cluster_type w1 Hreqs' Har)
      as (w2 & Hl2 & He2 & Har2 & Hd2 & Hu2 & Hlog2).
    exists w2. cbn [List.length Nat.add map]. rewrite Hl, Hl2.
    split; [reflexivity|]. split; [congruence|]. split; [exact Har2|].
    split; [|split; [congruence|]].
    + rewrite Hd2, Hd, <- app_assoc, <- relayed_app. reflexivity.
    + rewrite Hlog2, Hlog. cbn [filter]. destruct (snd r =? 0); cbn; lia.
Qed.

(** X13. The listener relays the signals in the order of the requests: after a
    run of requests to send a signal, the signals delivered are those
    requested, one for one and in that order (with [SIGUSR2] after each
    signal 2 under the spark profile), and the listener goes on with the
    arrivals that follow. *)
Theorem signals_relayed_in_order (reqs : list (list (list byte) * Z))
    (rest : list accept_event) (fuel : nat) (sock : socket) (parent_pid : Z)
    (cluster_type : option string) (w : World) :
  Forall (signal_request (env w) parent_pid cluster_type) reqs ->
  arrivals w = map (fun r => AcceptConnection (map RecvBytes (fst r))) reqs ++ rest ->
  exists w1,
    listener_loop (List.length reqs + fuel) (Some sock) parent_pid cluster_type w
    = listener_loop fuel (Some sock) parent_pid cluster_type w1
    /\ arrivals w1 = rest
    /\ delivered (trace w1)
       = delivered (trace w) ++ relayed parent_pid cluster_type (map snd reqs)
    /\ undelivered (trace w1) = undelivered (trace w).
Proof.
  intros Hreqs Ha.
  destruct (listener_loop_signal_requests reqs rest fuel sock parent_pid cluster_type w
              Hreqs Ha) as (w1 & Hl & _ & Har & Hd & Hu & _).
  exists w1. now repeat split.
Qed.

(** X14. The requests to send signal 0, by which the server asks whether the
    process is alive, are not logged; every other request to send a signal
    is logged once. *)
Theorem poll_requests_are_not_logged (reqs : list (list (list byte) * Z))
    (rest : list accept_event) (fuel : nat) (sock : socket) (parent_pid : Z)
    (cluster_type : option string) (w : World) :
  Forall (signal_request (env w) parent_pid cluster_type) reqs ->
  arrivals w = map (fun r => AcceptConnection (map RecvBytes (fst r))) reqs ++ rest ->
  exists w1,
    listener_loop (List.length reqs + fuel) (Some sock) parent_pid cluster_type w
    = listener_loop fuel (Some sock) parent_pid cluster_type w1
    /\ arrivals w1 = rest
    /\ logged_requests (trace w1)
       = (logged_requests (trace w)
          + List.length (filter (fun signum => negb (signum =? 0)%Z) (map snd reqs)))%nat.
Proof.
  intros Hreqs Ha.
  destruct (listener_loop_signal_requests reqs rest fuel sock parent_pid cluster_type w
              Hreqs Ha) as (w1 & Hl & _ & Har & _ & _ & Hlog).
  exists w1. now repeat split.
Qed.

End ListenerMore.

(** ** More on the handshake *)

Lemma split_not_nil (sep : ascii) (s : string) : split sep s <> [].
Proof.
  induction s as [|c s IH]; cbn; [discriminate|].
  destruct (Ascii.eqb c sep); [discriminate|].
  destruct (split sep s); discriminate.
Qed.

Lemma split_length (s : string) : List.length (split ":" s) = S (colons s).
Proof.
  induction s as [|c s IH]; cbn; [reflexivity|].
  destruct (Ascii.eqb c ":"); cbn; [now rewrite IH|].
  pose proof (split_not_nil ":" s) as Hne.
  destruct (split ":" s) as [|part parts]; [congruence|exact IH].
Qed.

Section HandshakeMore.
Context `{PyLib} `{CryptoLib}.

(** X15. An address is taken for [host:port] only if it holds exactly one
    colon: with none, or with more (an IPv6 address, a URL with its
    scheme), [return_connection_info] logs the invalid format and returns
    [None], and nothing else happens. *)
Theorem address_with_other_than_one_colon (connection_file response_addr : string)
    (lower_port upper_port : Z) (kernel_id public_key : string) (w : World) :
  colons response_addr <> 1%nat ->
  return_connection_info connection_file response_addr lower_port upper_port
    kernel_id public_key w
  = (Ret None,
     emit (EvLog ERROR
             ("Invalid format for response address '" ++ response_addr
                ++ "'. Assuming 'pull' mode..."))
       w).
Proof.
  intros Hc. unfold return_connection_info. rewrite split_length.
  destruct (Nat.eqb_spec (S (colons response_addr)) 2) as [Heq|_]; [lia|].
  cbn [negb]. now rewrite bind_logger.
Qed.

(** X16. When the connection file cannot be read, or does not hold a JSON
    object, [return_connection_info] raises before it has opened any
    socket: the state is the one of before the call. *)
Theorem unusable_connection_file_opens_no_socket (connection_file response_addr : string)
    (lower_port upper_port : Z) (kernel_id public_key : string) (w : World) :
  ~ pull_mode response_addr ->
  let run :=
    return_connection_info connection_file response_addr lower_port upper_port
      kernel_id public_key w in
  (files (env w) connection_file = None -> run = (Raise FileNotFoundError, w))
  /\ (forall text,
         files (env w) connection_file = Some text ->
         json_loads text = None -> run = (Raise JSONDecodeError, w))
  /\ (forall text v,
         files (env w) connection_file = Some text ->
         json_loads text = Some v ->
         (forall d, v <> JDict d) -> run = (Raise TypeError, w)).
Proof.
  intros Hn run. destruct (not_pull_mode response_addr Hn)
    as (host & port_text & port & Hs & Hp).
  assert (Hrun : run
                 = bind (load_connection_file connection_file)
                     (fun cf_json =>
                        pid <- ask own_pid ;;
                        cf_json <- setitem cf_json "pid" (JInt pid) ;;
                        pgid <- ask own_pgid ;;
                        cf_json <- setitem cf_json "pgid" (JInt pgid) ;;
                        comm_sock <- prepare_comm_socket lower_port upper_port ;;
                        comm_port <- sock_getsockname_port comm_sock ;;
                        cf_json <- setitem cf_json "comm_port" (JInt comm_port) ;;
                        cf_json <- setitem cf_json "kernel_id" (JStr kernel_id) ;;
                        with_socket (fun s =>
                          sock_connect s host port ;;;
                          let json_content := list_byte_of_string (json_dumps cf_json) in
                          logger DEBUG "JSON Payload" ;;;
                          payload <- _encrypt json_content public_key ;;
                          logger DEBUG "Encrypted Payload" ;;;
                          sock_send s payload) ;;;
                        ret (Some comm_sock)) w).
  { unfold run, return_connection_info. rewrite Hs. cbn [List.length Nat.eqb negb nth].
    now rewrite Hp. }
  rewrite Hrun. unfold load_connection_file. split; [|split].
  - intros Hf. rewrite bind_bind. unfold bind at 1. now rewrite Hf.
  - intros text Hf Hj. rewrite bind_bind. unfold bind at 1. rewrite Hf.
    unfold bind at 1. now rewrite or_raise_cases, Hj.
  - intros text v Hf Hj Hobj. rewrite bind_bind. unfold bind at 1. rewrite Hf.
    unfold bind at 1. rewrite or_raise_cases, Hj. cbv beta iota. rewrite bind_ask.
    destruct v as [|b|n|x|s|items|d]; try reflexivity. now destruct (Hobj d).
Qed.

(** What [prepare_comm_socket] does to the sockets when it returns. *)
Lemma prepare_comm_socket_frame (lower_port upper_port : Z) (comm_sock : socket)
    (w w1 : World) :
  descriptors_allocated w ->
  prepare_comm_socket lower_port upper_port w = (Ret comm_sock, w1) ->
  exists p,
    fileno comm_sock = next_fileno w
    /\ open_sockets w1 = open_sockets w ++ [(next_fileno w, Some p)]
    /\ next_fileno w1 = S (next_fileno w)
    /\ env w1 = env w.
Proof.
  intros Hwf. unfold prepare_comm_socket, bind at 1.
  destruct (select_socket_frame lower_port upper_port w Hwf)
    as (o & w0 & Hs & He & Hn & _ & _ & Ho).
  rewrite Hs. destruct o as [sock|ex| |]; try discriminate.
  destruct Ho as (Hfd & p & _ & Hop).
  unfold bind at 1, sock_getsockname_port. rewrite Hfd, Hop.
  rewrite (socket_entry_app_new _ _ _ (socket_entry_unallocated _ _ Hwf)).
  rewrite bind_logger. unfold sock_listen, sock_settimeout. rewrite !bind_record.
  unfold ret. intros Hret. injection Hret as <- <-. exists p. cbn.
  now repeat split.
Qed.

(** X17. When the server refuses the connection, the exception leaves
    [return_connection_info] after the socket of the push has been closed;
    nothing has been sent, and the control socket that was prepared stays
    open and bound, with no listener to serve it. *)
Theorem refused_push_leaves_control_socket (connection_file response_addr : string)
    (lower_port upper_port : Z) (kernel_id public_key : string)
    (host port_text text : string) (port : Z) (d : pydict) (ex : exn)
    (comm_sock : socket) (w w1 : World) :
  descriptors_allocated w ->
  split ":" response_addr = [host; port_text] ->
  int_of_str port_text = Some port ->
  files (env w) connection_file = Some text ->
  json_loads text = Some (JDict d) ->
  prepare_comm_socket lower_port upper_port w = (Ret comm_sock, w1) ->
  connect_outcome (env w) host port = Some ex ->
  exists comm_port w2,
    return_connection_info connection_file response_addr lower_port upper_port
      kernel_id public_key w
    = (Raise ex, w2)
    /\ trace w2
       = trace w1
         ++ [EvSocket (next_fileno w1);
             EvConnect (next_fileno w1) host port (Some ex);
             EvClose (next_fileno w1)]
    /\ open_sockets w2 = open_sockets w ++ [(fileno comm_sock, Some comm_port)]
    /\ port_in_use w2 comm_port = true.
Proof.
  intros Hwf Hsplit Hport Hfile Hjson Hprep Hconn.
  destruct (prepare_comm_socket_frame lower_port upper_port comm_sock w w1 Hwf Hprep)
    as (comm_port & Hfd & Hop & Hn & He1).
  assert (Hnew1 : socket_entry (next_fileno w1) (open_sockets w1) = None).
  { apply socket_entry_unallocated. rewrite Hop, Hn. apply Forall_app. split.
    - eapply Forall_impl; [|exact Hwf]. cbn. intros s Hs. lia.
    - constructor; [cbn; lia|constructor]. }
  assert (Hentry : socket_entry (fileno comm_sock) (open_sockets w1)
                   = Some (Some comm_port)).
  { rewrite Hfd, Hop. apply socket_entry_app_new. now apply socket_entry_unallocated. }
  exists comm_port.
  unfold return_connection_info. rewrite Hsplit. cbn [List.length Nat.eqb negb nth].
  rewrite Hport. unfold load_connection_file.
  rewrite bind_bind. unfold bind at 1. rewrite Hfile.
  unfold bind at 1. rewrite or_raise_cases, Hjson.
  cbv beta iota. rewrite bind_ask. cbn [setitem]. rewrite bind_ret_l.
  rewrite bind_ask. cbn [setitem]. rewrite bind_ret_l.
  unfold bind at 1. rewrite Hprep.
  unfold bind at 1, sock_getsockname_port. rewrite Hentry.
  do 2 (cbn [setitem]; rewrite bind_ret_l; cbv beta).
  unfold with_socket. rewrite ?bind_bind.
  unfold bind at 1, socket_socket. cbv beta iota.
  set (w2 := emit (EvSocket (next_fileno w1)) _).
  assert (Htry : forall B (k : unit -> M B),
             try (bind (sock_connect {| fileno := next_fileno w1 |} host port) k) w2
             = (Ret (inl ex),
                emit (EvConnect (next_fileno w1) host port (Some ex)) w2)).
  { intros B k. unfold try, bind, sock_connect.
    change (env w2) with (env w1). now rewrite He1, Hconn. }
  rewrite ?bind_bind. unfold bind at 1. rewrite Htry.
  unfold bind, close_fileno, raise, w2. cbn [fileno].
  eexists. split; [reflexivity|].
  cbn [trace emit open_sockets set_open_sockets set_next_fileno].
  rewrite (drop_socket_app_new _ _ _ Hnew1), <- !app_assoc.
  split; [reflexivity|]. rewrite Hop, Hfd. split; [reflexivity|].
  unfold port_in_use. cbn [open_sockets emit set_open_sockets set_next_fileno].
  rewrite ?Hop, existsb_app. cbn.
  rewrite Z.eqb_refl. now rewrite !orb_true_r.
Qed.

End HandshakeMore.

(** ** More on the payload codec *)

Lemma pad_two_blocks (block tail : list byte) :
  List.length block = 16%nat ->
  pad (block ++ block ++ tail) 16 = block ++ block ++ pad tail 16.
Proof.
  intros Hb. unfold pad. rewrite !length_app, Hb.
  replace (16 + (16 + List.length tail))%nat with (List.length tail + 2 * 16)%nat by lia.
  rewrite Nat.Div0.mod_add. now rewrite <- !app_assoc.
Qed.

Section CodecMore.
Context `{PyLib} `{CryptoLib}.

(** [_encrypt] in closed form: only the key can make it fail. *)
Lemma encrypt_outcome (connection_info_bytes : list byte) (public_key : string)
    (w : World) :
  let aes_key := map (urandom (env w)) (seq (urandom_used w) 16) in
  let padded := pad connection_info_bytes 16 in
  let encrypted :=
    ecb_blocks (AES_encrypt_block aes_key) (List.length padded / 16) padded in
  _encrypt connection_info_bytes public_key w
  = match b64decode (list_byte_of_string public_key) with
    | None => (Raise binascii_Error, set_urandom_used (urandom_used w + 16) w)
    | Some der =>
        match RSA_importKey der with
        | None => (Raise ValueError, set_urandom_used (urandom_used w + 16) w)
        | Some imported =>
            match PKCS1_v1_5_encrypt imported aes_key
                    (fun i => urandom (env w) (urandom_used w + 16 + i)) with
            | None => (Raise ValueError, set_urandom_used (urandom_used w + 16) w)
            | Some (wrapped, used) =>
                (Ret (b64encode
                        (list_byte_of_string
                           (json_dumps
                              (envelope (b64encode wrapped) (b64encode encrypted))))),
                 set_urandom_used (urandom_used w + 16 + used) w)
            end
        end
    end.
Proof.
  intros aes_key padded encrypted.
  destruct (pad_length connection_info_bytes) as [Hmod _].
  unfold _encrypt, bind at 1, get_random_bytes. fold aes_key.
  unfold bind at 1, AES_ECB_encrypt. fold padded. unfold padded at 1. rewrite Hmod.
  cbn [Nat.eqb or_raise]. unfold ret at 1. fold encrypted.
  unfold bind at 1.
  destruct (b64decode (list_byte_of_string public_key)) as [der|]; [|reflexivity].
  cbn [or_raise]. unfold ret at 1. unfold bind at 1.
  destruct (RSA_importKey der) as [imported|]; [|reflexivity].
  cbn [or_raise]. unfold ret at 1.
  unfold bind at 1. cbn [env urandom_used set_urandom_used].
  destruct (PKCS1_v1_5_encrypt imported aes_key _) as [[wrapped used]|]; reflexivity.
Qed.

(** X18. Whether [_encrypt] returns, the exception it raises and the random
    bytes it uses depend on the key alone, never on what is encrypted: a
    descriptor of any length and content is encrypted once the key is
    good. *)
Theorem encrypt_fails_for_the_key_alone (content1 content2 : list byte)
    (public_key : string) (w : World) :
  match _encrypt content1 public_key w, _encrypt content2 public_key w with
  | (Ret _, w1), (Ret _, w2) => w1 = w2
  | (Raise ex1, w1), (Raise ex2, w2) =>
      ex1 = ex2 /\ w1 = w2 /\ (ex1 = binascii_Error \/ ex1 = ValueError)
  | _, _ => False
  end.
Proof.
  rewrite (encrypt_outcome content1), (encrypt_outcome content2).
  destruct (b64decode (list_byte_of_string public_key)) as [der|]; [|now auto].
  destruct (RSA_importKey der) as [imported|]; [|now auto].
  destruct (PKCS1_v1_5_encrypt imported _ _) as [[wrapped used]|]; now auto.
Qed.

(** X19. The cipher works block by block under one key (ECB): two blocks of
    the descriptor that are equal give two blocks of cipher text that are
    equal. *)
Theorem equal_blocks_encrypt_alike (block tail : list byte) (public_key : string)
    (payload : list byte) (w w' : World) :
  List.length block = 16%nat ->
  _encrypt (block ++ block ++ tail) public_key w = (Ret payload, w') ->
  let aes_key := map (urandom (env w)) (seq (urandom_used w) 16) in
  exists wrapped more,
    payload
    = b64encode
        (list_byte_of_string
           (json_dumps
              (envelope (b64encode wrapped)
                 (b64encode (AES_encrypt_block aes_key block
                             ++ AES_encrypt_block aes_key block ++ more))))).
Proof.
  intros Hb Henc aes_key. rewrite encrypt_outcome in Henc. fold aes_key in Henc.
  destruct (b64decode (list_byte_of_string public_key)) as [der|]; [|discriminate].
  destruct (RSA_importKey der) as [imported|]; [|discriminate].
  destruct (PKCS1_v1_5_encrypt imported _ _) as [[wrapped used]|]; [|discriminate].
  injection Henc as <- _. exists wrapped.
  rewrite (pad_two_blocks block tail Hb).
  destruct (pad_length tail) as [Hmod Hpos].
  set (rest := pad tail 16) in *.
  assert (Hlen : (List.length (block ++ block ++ rest) / 16
                  = S (S (List.length rest / 16)))%nat).
  { rewrite !length_app, Hb.
    replace (16 + (16 + List.length rest))%nat with (List.length rest + 2 * 16)%nat by lia.
    rewrite Nat.div_add by lia. lia. }
  change (fst (Nat.divmod (List.length (block ++ block ++ rest)) 15 0 15))
    with (List.length (block ++ block ++ rest) / 16)%nat.
  rewrite Hlen. cbn [ecb_blocks].
  rewrite (firstn_exact block (block ++ rest) 16 Hb),
    (skipn_exact block (block ++ rest) 16 Hb),
    (firstn_exact block rest 16 Hb), (skipn_exact block rest 16 Hb).
  eexists. reflexivity.
Qed.

End CodecMore.

(** ** The chunks of a request *)

Section ListenerChunks.
Context `{PyLib}.

(** X20. A request is the text of its chunks put together: however the
    bytes of a text are divided among the buffers received, as long as
    each buffer is UTF-8 on its own, [get_server_request] gives the same
    result. *)
Theorem request_is_the_joined_chunks (sock1 sock2 : socket)
    (chunks1 chunks2 : list (list byte)) (rest1 rest2 : list accept_event)
    (w1 w2 : World) :
  arrivals w1 = AcceptConnection (map RecvBytes chunks1) :: rest1 ->
  arrivals w2 = AcceptConnection (map RecvBytes chunks2) :: rest2 ->
  Forall sound_chunk chunks1 ->
  Forall sound_chunk chunks2 ->
  request_text chunks1 = request_text chunks2 ->
  fst (get_server_request (Some sock1) w1) = fst (get_server_request (Some sock2) w2)
  /\ fst (get_server_request (Some sock1) w1) = request_of (request_text chunks1).
Proof.
  intros Ha1 Ha2 Hc1 Hc2 Ht.
  destruct (get_server_request_connection sock1 chunks1 rest1 w1 Ha1 Hc1) as (w1' & Hg1 & _).
  destruct (get_server_request_connection sock2 chunks2 rest2 w2 Ha2 Hc2) as (w2' & Hg2 & _).
  rewrite Hg1, Hg2, Ht. now split.
Qed.

Lemma drain_connection_recv_raises (conn : nat) (good : list (list byte)) (ex : exn)
    (more : list recv_outcome) :
  Forall sound_chunk good ->
  forall (data : string) (w : World),
    drain_connection conn (map RecvBytes good ++ RecvRaises ex :: more) data w
    = (Raise ex,
       emit_all (received_buffer_events conn good ++ [EvRecv conn (RecvRaises ex)]) w).
Proof.
  intros Hgood. induction Hgood as [|b l [Hb Hv] _ IH]; intros data w.
  - reflexivity.
  - cbn [map app drain_connection]. rewrite bind_record.
    destruct b as [|b0 b]; [congruence|].
    rewrite bind_logger. unfold bind at 1, decode_utf8. rewrite Hv.
    unfold ret at 1. cbn beta iota. rewrite IH. reflexivity.
Qed.

(** X21. When [recv] raises, what was received before is dropped without
    being parsed and the connection is closed.  A timeout is taken like
    the timeout of [accept]: the call returns [None] and the listener goes
    on; any other exception ends the listener. *)
Theorem recv_failure_drops_the_request (fuel : nat) (sock : socket) (parent_pid : Z)
    (cluster_type : option string) (good : list (list byte)) (ex : exn)
    (more : list recv_outcome) (rest : list accept_event) (w : World) :
  arrivals w = AcceptConnection (map RecvBytes good ++ RecvRaises ex :: more) :: rest ->
  Forall sound_chunk good ->
  exists w',
    get_server_request (Some sock) w
    = (if is_socket_timeout ex then Ret JNull else Raise ex, w')
    /\ listener_loop (S fuel) (Some sock) parent_pid cluster_type w
       = (if is_socket_timeout ex
          then listener_loop fuel (Some sock) parent_pid cluster_type w'
          else (Raise ex, w'))
    /\ arrivals w' = rest
    /\ closes (trace w') = S (closes (trace w))
    /\ delivered (trace w') = delivered (trace w).
Proof.
  intros Ha Hgood.
  destruct (get_server_request_drained sock _ rest (Raise ex) _ w Ha
              (drain_connection_recv_raises (next_fileno w) good ex more Hgood
                 EmptyString))
    as (w' & Hg & _ & Har & _ & _ & Ht); try discriminate.
  exists w'. split; [exact Hg|]. split.
  { cbn [listener_loop]. unfold bind at 1. rewrite Hg.
    destruct (is_socket_timeout ex); [cbn [truthy]; now rewrite bind_ret_l|reflexivity]. }
  split; [exact Har|]. rewrite Ht.
  destruct (received_buffer_events_quiet (next_fileno w) good) as (Hd & _).
  destruct (closes_received_buffer_events (next_fileno w) good) as (Hc & _).
  rewrite !closes_app, !delivered_app, Hc, Hd. cbn. rewrite app_nil_r.
  split; [lia|reflexivity].
Qed.

End ListenerChunks.

(** ** The sockets of the listener *)

Lemma only_emits_ret {A} (a : A) : only_emits (ret a).
Proof. intros w. now exists (Ret a), []. Qed.

Lemma only_emits_raise {A} (ex : exn) : only_emits (@raise A ex).
Proof. intros w. now exists (Raise ex), []. Qed.

Lemma only_emits_record (e : event) : only_emits (record e).
Proof. intros w. now exists (Ret tt), [e]. Qed.

Lemma only_emits_os_kill (pid signum : Z) : only_emits (os_kill pid signum).
Proof. intros w. unfold os_kill. now eexists _, [_]. Qed.

Lemma only_emits_lift {A} (r : exn + A) : only_emits (lift r).
Proof. destruct r; [apply only_emits_raise|apply only_emits_ret]. Qed.

Lemma only_emits_request_get (request : pyval) (key : string) :
  only_emits (request_get request key).
Proof. destruct request; cbn; (apply only_emits_raise || apply only_emits_ret). Qed.

Lemma only_emits_bind {A B} (m : M A) (k : A -> M B) :
  only_emits m -> (forall a, only_emits (k a)) -> only_emits (bind m k).
Proof.
  intros Hm Hk w. unfold bind. destruct (Hm w) as (o & e1 & Hr). rewrite Hr.
  destruct o as [a|ex| |]; try (now eexists _, e1).
  destruct (Hk a (emit_all e1 w)) as (o2 & e2 & Hr2). rewrite Hr2.
  exists o2, (e1 ++ e2). now rewrite emit_all_app.
Qed.

Create HintDb emits.
#[local] Hint Resolve only_emits_ret only_emits_raise only_emits_record
  only_emits_os_kill only_emits_lift only_emits_request_get only_emits_bind : emits.

Lemma descriptors_allocated_later (w w' : World) :
  open_sockets w' = open_sockets w ->
  (next_fileno w <= next_fileno w')%nat ->
  descriptors_allocated w -> descriptors_allocated w'.
Proof.
  unfold descriptors_allocated. intros Ho Hn Hwf. rewrite Ho.
  eapply Forall_impl; [|exact Hwf]. cbn. intros s Hs. lia.
Qed.

Section ListenerSockets.
Context `{PyLib}.

Lemma only_emits_process_request (request : pyval) (parent_pid : Z)
    (cluster_type : option string) :
  only_emits (process_request request parent_pid cluster_type).
Proof.
  unfold process_request, logger.
  apply only_emits_bind; [auto with emits|]. intros f1.
  apply only_emits_bind.
  - destruct (negb (is_None f1)); [|auto with emits].
    apply only_emits_bind; [auto with emits|]. intros f2.
    apply only_emits_bind; [auto with emits|]. intros signum.
    apply only_emits_bind; [auto with emits|]. intros _.
    apply only_emits_bind; [|auto with emits].
    destruct ((signum =? 2) && _); auto with emits.
  - intros signum.
    apply only_emits_bind; [auto with emits|]. intros f3.
    apply only_emits_bind.
    + destruct (negb (is_None f3)); [|auto with emits].
      apply only_emits_bind; auto with emits.
    + intros shutdown. apply only_emits_bind; [|auto with emits].
      destruct (negb (signum =? 0)); auto with emits.
Qed.

(** [get_server_request] leaves the open sockets as they were. *)
Lemma get_server_request_sockets (sock : socket) (w : World) :
  descriptors_allocated w ->
  open_sockets (snd (get_server_request (Some sock) w)) = open_sockets w
  /\ descriptors_allocated (snd (get_server_request (Some sock) w))
  /\ env (snd (get_server_request (Some sock) w)) = env w.
Proof.
  intros Hwf. destruct (arrivals w) as [|[|received|ex] rest] eqn:Ha.
  - rewrite (get_server_request_waits sock w Ha). cbn. now repeat split.
  - rewrite (get_server_request_timeout sock rest w Ha). cbn. now repeat split.
  - destruct (drain_connection_quiet (next_fileno w) received EmptyString)
      as (o & events & Hd & Hb & Hf & _).
    destruct (get_server_request_drained sock received rest o events w Ha Hd Hb Hf)
      as (w' & Hg & He & _ & Hn & Ho & _).
    rewrite Hg. cbn [snd].
    assert (Hopen : open_sockets w' = open_sockets w).
    { rewrite Ho. apply drop_socket_app_new. now apply socket_entry_unallocated. }
    split; [exact Hopen|]. split; [|exact He].
    apply (descriptors_allocated_later w w' Hopen); [lia|exact Hwf].
  - unfold get_server_request. rewrite bind_logger.
    unfold bind, try, sock_accept. cbn [arrivals emit]. rewrite Ha.
    unfold except_clause. destruct (is_socket_timeout ex); cbn; now repeat split.
Qed.

(** The loop of the listener leaves the open sockets as they were, however
    many connections it has accepted and however it ends. *)
Lemma listener_loop_sockets (sock : socket) (parent_pid : Z)
    (cluster_type : option string) (fuel : nat) :
  forall w,
    descriptors_allocated w ->
    open_sockets (snd (listener_loop fuel (Some sock) parent_pid cluster_type w))
    = open_sockets w
    /\ descriptors_allocated
         (snd (listener_loop fuel (Some sock) parent_pid cluster_type w))
    /\ env (snd (listener_loop fuel (Some sock) parent_pid cluster_type w)) = env w.
Proof.
  induction fuel as [|fuel IH]; intros w Hwf; [cbn; now repeat split|].
  cbn [listener_loop]. unfold bind.
  destruct (get_server_request_sockets sock w Hwf) as (Ho & Hwf1 & He).
  destruct (get_server_request (Some sock) w) as [[request|ex| |] w1];
    cbn [snd] in *; try (now repeat split).
  set (step := fun m : M bool =>
                 match m w1 with
                 | (Ret a, w') =>
                     (if a then ret tt
                      else listener_loop fuel (Some sock) parent_pid cluster_type) w'
                 | (Raise ex, w') => (Raise ex, w')
                 | (Blocked, w') => (Blocked, w')
                 | (OutOfFuel, w') => (OutOfFuel, w')
                 end).
  assert (Hstep : forall m : M bool, only_emits m ->
             open_sockets (snd (step m)) = open_sockets w
             /\ descriptors_allocated (snd (step m)) /\ env (snd (step m)) = env w).
  { intros m Hm. unfold step. destruct (Hm w1) as (o & events & Hr). rewrite Hr.
    destruct (emit_all_frame events w1) as (He2 & _ & Ho2 & Hn2 & _).
    assert (Hwf2 : descriptors_allocated (emit_all events w1))
      by (apply (descriptors_allocated_later w1); [exact Ho2|lia|exact Hwf1]).
    destruct o as [[]|ex| |]; cbn [snd ret];
      try (rewrite Ho2, He2; now repeat split).
    destruct (IH (emit_all events w1) Hwf2) as (Ho3 & Hwf3 & He3).
    rewrite Ho3, He3, Ho2, He2. now repeat split. }
  destruct (truthy request).
  - exact (Hstep (process_request request parent_pid cluster_type)
             (only_emits_process_request request parent_pid cluster_type)).
  - exact (Hstep (ret false) (only_emits_ret false)).
Qed.

Context `{CryptoLib}.


End ListenerSockets.

(** ** The descriptor that is sent *)

Section Descriptor.
Context `{PyLib} `{CryptoLib}.

(** C8. The descriptor that [return_connection_info] serializes, encrypts
    and sends is the dictionary of the connection file with the fields
    [pid], [pgid], [comm_port] and [kernel_id] set, and nothing else
    changed: every other key keeps its value, the keys are those of the
    connection file and these four, and a connection file that has none of
    the four is sent with the four fields appended to its pairs, which are
    as they were and in their order. *)
Theorem descriptor_keeps_base_fields (connection_file response_addr : string)
    (lower_port upper_port : Z) (kernel_id public_key : string)
    (host port_text text : string) (port : Z) (d : pydict)
    (comm_sock : socket) (w w1 : World) :
  split ":" response_addr = [host; port_text] ->
  int_of_str port_text = Some port ->
  files (env w) connection_file = Some text ->
  json_loads text = Some (JDict d) ->
  prepare_comm_socket lower_port upper_port w = (Ret comm_sock, w1) ->
  connect_outcome (env w) host port = None ->
  (forall content w0, exists payload, fst (_encrypt content public_key w0) = Ret payload) ->
  (forall payload, send_outcome (env w) payload = None) ->
  exists augmented comm_port payload w2,
    return_connection_info connection_file response_addr lower_port upper_port
      kernel_id public_key w
    = (Ret (Some comm_sock), w2)
    /\ fst (_encrypt (list_byte_of_string (json_dumps (JDict augmented))) public_key w1)
       = Ret payload
    /\ In (EvSend (next_fileno w1) payload) (trace w2)
    /\ socket_entry (fileno comm_sock) (open_sockets w1) = Some (Some comm_port)
    /\ (forall key, ~ In key launcher_fields -> dict_get key augmented = dict_get key d)
    /\ dict_get "pid" augmented = Some (JInt (own_pid (env w)))
    /\ dict_get "pgid" augmented = Some (JInt (own_pgid (env w)))
    /\ dict_get "comm_port" augmented = Some (JInt comm_port)
    /\ dict_get "kernel_id" augmented = Some (JStr kernel_id)
    /\ (forall key, In key (dict_keys augmented)
                    <-> In key (dict_keys d) \/ In key launcher_fields)
    /\ ((forall key, In key launcher_fields -> dict_get key d = None) ->
        augmented
        = d ++ [("pid", JInt (own_pid (env w))); ("pgid", JInt (own_pgid (env w)));
                ("comm_port", JInt comm_port); ("kernel_id", JStr kernel_id)]%string).
Proof.
  intros Hsplit Hport Hfile Hjson Hprep Hconn Henc Hsend.
  destruct (return_connection_info_pushes connection_file response_addr lower_port
              upper_port kernel_id public_key host port_text text port d comm_sock
              w w1 Hsplit Hport Hfile Hjson Hprep Hconn Henc Hsend)
    as (comm_port & payload & w2 & Hr & Hentry & Hpay & Ht).
  exists (add_launcher_fields d (own_pid (env w)) (own_pgid (env w)) comm_port kernel_id),
    comm_port, payload, w2.
  split; [exact Hr|]. split; [exact Hpay|]. split.
  { rewrite Ht. apply in_or_app. right. cbn. tauto. }
  split; [exact Hentry|].
  apply (launcher_fields_frame d (own_pid (env w)) (own_pgid (env w)) comm_port kernel_id).
Qed.

End Descriptor.

(** * Scenarios *)

(** ** The properties on the scenarios *)

Import Scenario.

Lemma sound_request (text : string) :
  text <> EmptyString ->
  utf8_valid (list_byte_of_string text) = true ->
  Forall sound_chunk [list_byte_of_string text].
Proof.
  intros Hne Hv. constructor; [|constructor]. split; [|exact Hv].
  destruct text; [congruence|discriminate].
Qed.

(** The stand-in key always encrypts. *)
Lemma sample_encrypt_returns (content : list byte) (w0 : World) :
  exists payload,
    fst (@_encrypt Sample.python Sample.crypto content public_key w0) = Ret payload.
Proof.
  eexists.
  erewrite (@encrypt_returns Sample.python Sample.crypto content
              (list_byte_of_string "secret-key")).
  - reflexivity.
  - vm_compute. reflexivity.
  - reflexivity.
  - reflexivity.
Qed.

(** An example of C5: on a host whose ports are free and whose draws differ,
    two ports of the range 5000..5001 are selected. *)
Example select_ports_returns :
  fst (_select_ports 2 5000 5001 (fresh (host [] Z.of_nat alive) [])) = Ret [5000; 5001].
Proof. vm_compute. reflexivity. Qed.

(** C5, refuted as stated.  With every port free and [count] no larger than
    the range, the draws can fall on the port already taken until the
    attempts are used up: no ports are returned.  And for a range of one
    port the candidate is port 0: the port returned is the one the system
    assigns, outside the range. *)
Lemma select_ports_counterexample :
  2 <= 5001 - 5000 + 1
  /\ fst (_select_ports 2 5000 5001 (fresh (host [] (fun _ => 0) alive) []))
     = Raise (RuntimeError
                "Failed to locate port within range 5000..5001 after 5 retries!")
  /\ 1 <= 5000 - 5000 + 1
  /\ fst (_select_ports 1 5000 5000 (fresh (host [] Z.of_nat alive) [])) = Ret [49152].
Proof. repeat split; try lia; vm_compute; reflexivity. Qed.

(** C6 on a host where ports 5000 and 5001 are both taken: six attempts,
    then the error. *)
Lemma select_socket_exhausted_witness :
  exists w',
    _select_socket 5000 5001 (fresh (host [5000; 5001] Z.of_nat alive) [])
    = (Raise (RuntimeError
                "Failed to locate port within range 5000..5001 after 5 retries!"), w')
    /\ bind_attempts (trace w') = 6%nat.
Proof.
  destruct (select_socket_exhausted 5000 5001
              (fresh (host [5000; 5001] Z.of_nat alive) [])) as [Hraise _].
  - lia.
  - cbn. lia.
  - intros port Hc. unfold candidate in Hc. cbn in Hc.
    assert (Hp : port = 5000 \/ port = 5001) by lia.
    destruct Hp; subst; reflexivity.
  - exact Hraise.
Defined.

(** C1, refuted as stated.  The server sends a text that is not JSON and
    then a request to send signal 15 to the supervised process, which is
    alive: the listener ends with [JSONDecodeError], the second connection
    is never accepted and no signal is delivered. *)
Lemma malformed_request_counterexample :
  let run :=
    serve "10.0.0.5:8877" (Some "none"%string)
      (fresh (host [] Z.of_nat alive)
         [connection malformed_request; connection terminate_request]) in
  fst run = Raise JSONDecodeError
  /\ arrivals (snd run) = [connection terminate_request]
  /\ accepts (trace (snd run)) = 1%nat
  /\ delivered (trace (snd run)) = [].
Proof. vm_compute. repeat split. Qed.

(** C1 (as amended) on the listening socket of the scenario. *)
Lemma malformed_request_ends_listener_witness :
  exists w',
    @get_server_request Sample.python (Some control_socket)
      (listening (host [] Z.of_nat alive)
         [connection malformed_request; connection terminate_request])
    = (Raise JSONDecodeError, w')
    /\ @listener_loop Sample.python 3 (Some control_socket) supervised
         (Some "none"%string)
         (listening (host [] Z.of_nat alive)
            [connection malformed_request; connection terminate_request])
       = (Raise JSONDecodeError, w')
    /\ last (trace w') (EvClose 3) = EvClose 4
    /\ socket_entry 4 (open_sockets w') = None
    /\ arrivals w' = [connection terminate_request].
Proof.
  destruct (@malformed_request_ends_listener Sample.python 2 control_socket supervised
              (Some "none"%string) [list_byte_of_string malformed_request]
              [connection terminate_request]
              (listening (host [] Z.of_nat alive)
                 [connection malformed_request; connection terminate_request]))
    as (w' & Hg & Hl & _ & Hlast & Hs & Ha).
  - reflexivity.
  - apply sound_request; [discriminate|reflexivity].
  - discriminate.
  - reflexivity.
  - exists w'. repeat split; assumption.
Defined.

(** C2, refuted as stated.  The supervised process does not exist and the
    server sends signal 15 twice: the listener ends with
    [ProcessLookupError] on the first request; one failure is recorded and
    the second connection is never accepted. *)
Lemma failed_signal_counterexample :
  let run :=
    serve "10.0.0.5:8877" (Some "none"%string)
      (fresh (host [] Z.of_nat gone)
         [connection terminate_request; connection terminate_request]) in
  fst run = Raise ProcessLookupError
  /\ undelivered (trace (snd run)) = [(supervised, 15, ProcessLookupError)]
  /\ accepts (trace (snd run)) = 1%nat
  /\ arrivals (snd run) = [connection terminate_request].
Proof. vm_compute. repeat split. Qed.

(** C2 (as amended) on the listening socket of the scenario. *)
Lemma failed_signal_ends_listener_witness :
  exists w',
    @listener_loop Sample.python 3 (Some control_socket) supervised (Some "none"%string)
      (listening (host [] Z.of_nat gone)
         [connection terminate_request; connection terminate_request])
    = (Raise ProcessLookupError, w')
    /\ undelivered (trace w') = [(supervised, 15, ProcessLookupError)]
    /\ accepts (trace w') = 1%nat
    /\ arrivals w' = [connection terminate_request].
Proof.
  destruct (@failed_signal_ends_listener Sample.python 2 control_socket supervised
              (Some "none"%string) [list_byte_of_string terminate_request]
              [("signum"%string, JInt 15)] (JInt 15) 15 ProcessLookupError
              [connection terminate_request]
              (listening (host [] Z.of_nat gone)
                 [connection terminate_request; connection terminate_request]))
    as (w' & Hl & Hu & _ & Hacc & Ha).
  - reflexivity.
  - apply sound_request; [discriminate|reflexivity].
  - discriminate.
  - reflexivity.
  - reflexivity.
  - reflexivity.
  - reflexivity.
  - reflexivity.
  - exists w'. repeat split; assumption.
Defined.

(** C3 on the scenario: signals 2 and 12 under the spark profile, signal 2
    alone under the profile [none] and with no profile. *)
Lemma interrupt_signal_deliveries_witness :
  let run cluster_type :=
    @listener_loop Sample.python 2 (Some control_socket) supervised cluster_type
      (listening (host [] Z.of_nat alive) [connection interrupt_request]) in
  delivered (trace (snd (run (Some "spark"%string)))) = [(supervised, 2); (supervised, 12)]
  /\ delivered (trace (snd (run (Some "none"%string)))) = [(supervised, 2)]
  /\ delivered (trace (snd (run None))) = [(supervised, 2)].
Proof.
  destruct (@interrupt_signal_deliveries Sample.python control_socket supervised
              [list_byte_of_string interrupt_request] [("signum"%string, JInt 2)]
              (listening (host [] Z.of_nat alive) [connection interrupt_request]))
    as (Hspark & Hother).
  - reflexivity.
  - apply sound_request; [discriminate|reflexivity].
  - discriminate.
  - reflexivity.
  - reflexivity.
  - reflexivity.
  - reflexivity.
  - split; [exact Hspark|]. split; apply Hother; reflexivity.
Defined.


(** C10 on the scenario: the address has no port, and the listener ends
    at once although two requests are waiting. *)
Lemma pull_mode_listener_inoperative_witness :
  exists w',
    serve "10.0.0.5" (Some "none"%string)
      (fresh (host [] Z.of_nat alive)
         [connection interrupt_request; connection shutdown_request])
    = (Raise AttributeError, w')
    /\ arrivals w' = [connection interrupt_request; connection shutdown_request]
    /\ accepts (trace w') = 0%nat
    /\ delivered (trace w') = []
    /\ open_sockets w' = [].
Proof.
  destruct (@pull_mode_listener_inoperative Sample.python Sample.crypto
              "/tmp/kernel.json" "10.0.0.5" 5000 5001 "kernel-1" public_key supervised
              (Some "none"%string)
              (fresh (host [] Z.of_nat alive)
                 [connection interrupt_request; connection shutdown_request]))
    as (_ & w' & Hrun & Ha & Hacc & Hd & Ho).
  - left. cbn. discriminate.
  - exists w'. repeat split; assumption.
Defined.

(** C4 on the scenario: an address without a port and one whose port is
    not a number fall back to pull mode; [10.0.0.5:8877] is connected to
    and sent the payload. *)
Lemma handshake_pushes_unless_pull_mode_witness :
  let push response_addr :=
    @return_connection_info Sample.python Sample.crypto "/tmp/kernel.json"
      response_addr 5000 5001 "kernel-1" public_key
      (fresh (host [] Z.of_nat alive) []) in
  (exists msg,
      push "10.0.0.5"%string
      = (Ret None, emit (EvLog ERROR msg) (fresh (host [] Z.of_nat alive) [])))
  /\ (exists msg,
         push "10.0.0.5:http"%string
         = (Ret None, emit (EvLog ERROR msg) (fresh (host [] Z.of_nat alive) [])))
  /\ exists payload w2,
      push "10.0.0.5:8877"%string = (Ret (Some control_socket), w2)
      /\ In (EvConnect 4 "10.0.0.5" 8877 None) (trace w2)
      /\ In (EvSend 4 payload) (trace w2).
Proof.
  cbv zeta. split; [|split].
  - destruct (@handshake_pushes_unless_pull_mode Sample.python Sample.crypto
                "/tmp/kernel.json" "10.0.0.5" 5000 5001 "kernel-1" public_key
                (fresh (host [] Z.of_nat alive) [])) as [Hpull _].
    destruct Hpull as (msg & Hr & _); [left; cbn; discriminate|].
    now exists msg.
  - destruct (@handshake_pushes_unless_pull_mode Sample.python Sample.crypto
                "/tmp/kernel.json" "10.0.0.5:http" 5000 5001 "kernel-1" public_key
                (fresh (host [] Z.of_nat alive) [])) as [Hpull _].
    destruct Hpull as (msg & Hr & _); [right; reflexivity|].
    now exists msg.
  - destruct (@handshake_pushes_unless_pull_mode Sample.python Sample.crypto
                "/tmp/kernel.json" "10.0.0.5:8877" 5000 5001 "kernel-1" public_key
                (fresh (host [] Z.of_nat alive) [])) as [_ Hpush].
    destruct Hpush as (h & port_text & port & Hs & Hp & Hgo).
    { intros [Hlen|Hport]; [now apply Hlen|discriminate Hport]. }
    change (split ":" "10.0.0.5:8877") with ["10.0.0.5"%string; "8877"%string] in Hs.
    injection Hs as <- <-.
    change (@int_of_str Sample.python "8877") with (Some 8877) in Hp.
    injection Hp as <-.
    destruct (Hgo connection_file_text
                [("shell_port"%string, JInt 51001); ("iopub_port"%string, JInt 51002);
                 ("stdin_port"%string, JInt 51003); ("hb_port"%string, JInt 51004);
                 ("control_port"%string, JInt 51005); ("ip"%string, JStr "0.0.0.0");
                 ("key"%string, JStr "5c1f7d2e-9a4b")]
                control_socket
                (snd (prepare_comm_socket 5000 5001 (fresh (host [] Z.of_nat alive) []))))
      as (comm_port & payload & w2 & Hr & _ & _ & Ht).
    + reflexivity.
    + vm_compute. reflexivity.
    + vm_compute. reflexivity.
    + reflexivity.
    + apply sample_encrypt_returns.
    + reflexivity.
    + exists payload, w2. split; [exact Hr|]. rewrite Ht.
      split; apply in_or_app; right; cbn; tauto.
Defined.

(** C7 on the scenario, for a text shorter than a block and for one longer
    than a block. *)
Lemma decrypt_encrypt_witness :
  let round_trip text :=
    exists payload w',
      @_encrypt Sample.python Sample.crypto (list_byte_of_string text) public_key
        (fresh (host [] Z.of_nat alive) [])
      = (Ret payload, w')
      /\ @decrypt Sample.python Sample.crypto payload (list_byte_of_string "secret-key")
         = Some (list_byte_of_string text) in
  round_trip "{}"%string /\ round_trip connection_file_text.
Proof.
  assert (Hany : forall content,
             exists payload w',
               @_encrypt Sample.python Sample.crypto content public_key
                 (fresh (host [] Z.of_nat alive) [])
               = (Ret payload, w')
               /\ @decrypt Sample.python Sample.crypto payload
                    (list_byte_of_string "secret-key")
                  = Some content).
  { intros content.
    apply (@decrypt_encrypt Sample.python Sample.crypto content
             (list_byte_of_string "secret-key") public_key
             (list_byte_of_string "secret-key")).
    - intros key block Hb. split.
      + cbn. now rewrite xor_bytes_length.
      + apply xor_bytes_involutive.
    - vm_compute. reflexivity.
    - reflexivity.
    - intros message random _. exists (list_byte_of_string "secret-key" ++ message), 0%nat.
      split; [reflexivity|]. apply sample_unwrap.
    - apply sample_json_envelope. }
  split; apply Hany.
Defined.

(** C8 on the scenario: the seven pairs of the connection file are sent as
    they were, followed by the four fields. *)
Lemma descriptor_keeps_base_fields_witness :
  exists payload w2,
    @return_connection_info Sample.python Sample.crypto "/tmp/kernel.json"
      "10.0.0.5:8877" 5000 5001 "kernel-1" public_key
      (fresh (host [] Z.of_nat alive) [])
    = (Ret (Some control_socket), w2)
    /\ fst (@_encrypt Sample.python Sample.crypto
              (list_byte_of_string
                 (@json_dumps Sample.python
                    (JDict
                       [("shell_port"%string, JInt 51001);
                        ("iopub_port"%string, JInt 51002);
                        ("stdin_port"%string, JInt 51003);
                        ("hb_port"%string, JInt 51004);
                        ("control_port"%string, JInt 51005);
                        ("ip"%string, JStr "0.0.0.0");
                        ("key"%string, JStr "5c1f7d2e-9a4b");
                        ("pid"%string, JInt 4242); ("pgid"%string, JInt 4200);
                        ("comm_port"%string, JInt 5000);
                        ("kernel_id"%string, JStr "kernel-1")])))
              public_key
              (snd (prepare_comm_socket 5000 5001 (fresh (host [] Z.of_nat alive) []))))
       = Ret payload
    /\ In (EvSend 4 payload) (trace w2).
Proof.
  destruct (@descriptor_keeps_base_fields Sample.python Sample.crypto
              "/tmp/kernel.json" "10.0.0.5:8877" 5000 5001 "kernel-1" public_key
              "10.0.0.5" "8877" connection_file_text 8877
              [("shell_port"%string, JInt 51001); ("iopub_port"%string, JInt 51002);
               ("stdin_port"%string, JInt 51003); ("hb_port"%string, JInt 51004);
               ("control_port"%string, JInt 51005); ("ip"%string, JStr "0.0.0.0");
               ("key"%string, JStr "5c1f7d2e-9a4b")]
              control_socket
              (fresh (host [] Z.of_nat alive) [])
              (snd (prepare_comm_socket 5000 5001 (fresh (host [] Z.of_nat alive) []))))
    as (augmented & comm_port & payload & w2 & Hr & Hpay & Hsent & Hentry & _ & _ & _
        & _ & _ & _ & Hfresh).
  - reflexivity.
  - reflexivity.
  - reflexivity.
  - vm_compute. reflexivity.
  - vm_compute. reflexivity.
  - reflexivity.
  - apply sample_encrypt_returns.
  - reflexivity.
  - assert (Hport : comm_port = 5000).
    { vm_compute in Hentry. now injection Hentry as <-. }
    subst comm_port.
    rewrite Hfresh in Hpay
      by (intros key [<-|[<-|[<-|[<-|[]]]]]; reflexivity).
    exists payload, w2. split; [exact Hr|]. split; [exact Hpay|exact Hsent].
Defined.

(** ** The further properties on the scenarios *)

Lemma descriptors_allocated_fresh (e : Env) (arrivals : list accept_event) :
  descriptors_allocated (fresh e arrivals).
Proof. constructor. Qed.

Lemma descriptors_allocated_listening (e : Env) (arrivals : list accept_event) :
  descriptors_allocated (listening e arrivals).
Proof. constructor; [cbn; lia|constructor]. Qed.

(** X1 on a host where port 5000 is taken: the first draw gives 5000, the
    second 5001, which is bound. *)
Lemma select_socket_first_free_witness :
  exists w',
    _select_socket 5000 5001 (fresh (host [5000] Z.of_nat alive) [])
    = (Ret {| fileno := 3 |}, w')
    /\ open_sockets w' = [(3%nat, Some 5001)]
    /\ bind_attempts (trace w') = 2%nat.
Proof.
  destruct (select_socket_first_free 5000 5001 1
              (fresh (host [5000] Z.of_nat alive) []))
    as (w' & Hs & Ho & _ & Hb & _).
  - lia.
  - lia.
  - apply descriptors_allocated_fresh.
  - cbn. lia.
  - intros i Hi. assert (i = 0%nat) by lia. subst i. reflexivity.
  - reflexivity.
  - exists w'. split; [exact Hs|]. split; [exact Ho|exact Hb].
Defined.

(** X2 on the range 5000..5000 of a host whose ports are free: the socket
    is bound to port 49152. *)
Lemma select_socket_single_port_range_witness :
  exists w',
    _select_socket 5000 5000 (fresh (host [] Z.of_nat alive) [])
    = (Ret {| fileno := 3 |}, w')
    /\ open_sockets w' = [(3%nat, Some 49152)]
    /\ draws_used w' = 0%nat.
Proof.
  destruct (select_socket_single_port_range 5000 49152
              (fresh (host [] Z.of_nat alive) []))
    as (w' & Hs & Ho & _ & Hd).
  - apply descriptors_allocated_fresh.
  - reflexivity.
  - exists w'. split; [exact Hs|]. split; [exact Ho|exact Hd].
Defined.

(** X3 on the range 5001..5000. *)
Lemma select_socket_inverted_range_witness :
  fst (_select_socket 5001 5000 (fresh (host [] Z.of_nat alive) []))
  = Raise (RuntimeError "Failed to locate port within range 5001..5000 after 5 retries!")
  /\ bind_attempts (trace (snd (_select_socket 5001 5000
                                   (fresh (host [] Z.of_nat alive) []))))
     = 0%nat.
Proof.
  destruct (select_socket_inverted_range 5001 5000 (fresh (host [] Z.of_nat alive) []))
    as (Hr & Hb).
  - lia.
  - split; [now rewrite Hr|exact Hb].
Defined.

(** X4 on two ports of the range 5000..5001. *)
Lemma select_ports_releases_sockets_witness :
  let run := _select_ports 2 5000 5001 (fresh (host [] Z.of_nat alive) []) in
  fst run = Ret [5000; 5001]
  /\ open_sockets (snd run) = []
  /\ closes (trace (snd run)) = 2%nat
  /\ Forall (fun port => port_in_use (snd run) port = false) [5000; 5001].
Proof.
  cbv zeta. split; [vm_compute; reflexivity|].
  apply (select_ports_releases_sockets 2 5000 5001 [5000; 5001]
           (fresh (host [] Z.of_nat alive) [])).
  - apply descriptors_allocated_fresh.
  - vm_compute. reflexivity.
Defined.

(** X5 on a host whose draws all give port 5000: the first socket holds
    it, the second finds no port, and both stay open. *)
Lemma select_ports_failure_leaves_sockets_open_witness :
  let run := _select_ports 2 5000 5001 (fresh (host [] (fun _ => 0) alive) []) in
  fst run
  = Raise (RuntimeError "Failed to locate port within range 5000..5001 after 5 retries!")
  /\ open_sockets (snd run) = [(3%nat, Some 5000); (4%nat, None)]
  /\ closes (trace (snd run)) = 0%nat
  /\ exists new, new <> [] /\ open_sockets (snd run) = new.
Proof.
  cbv zeta. split; [vm_compute; reflexivity|]. split; [vm_compute; reflexivity|].
  apply (select_ports_failure_leaves_sockets_open 2 5000 5001
           (RuntimeError "Failed to locate port within range 5000..5001 after 5 retries!")
           (fresh (host [] (fun _ => 0) alive) [])).
  - apply descriptors_allocated_fresh.
  - vm_compute. reflexivity.
Defined.

(** X6 on two timeouts around a peer that sends nothing: the listener
    waits for the next arrival. *)
Lemma listener_skips_idle_arrivals_witness :
  fst (@listener_loop Sample.python 4 (Some control_socket) supervised None
         (listening (host [] Z.of_nat alive)
            [AcceptTimeout; AcceptConnection []; AcceptTimeout]))
  = Blocked.
Proof.
  destruct (@listener_skips_idle_arrivals Sample.python
              [AcceptTimeout; AcceptConnection []; AcceptTimeout] [] 0 control_socket
              supervised None
              (listening (host [] Z.of_nat alive)
                 [AcceptTimeout; AcceptConnection []; AcceptTimeout]))
    as (_ & Hwait).
  - reflexivity.
  - reflexivity.
  - apply Hwait. reflexivity.
Defined.

(** X7 on a peer whose connection fails while the listener reads it. *)
Lemma accepted_connection_released_witness :
  exists o w',
    @get_server_request Sample.python (Some control_socket)
      (listening (host [] Z.of_nat alive) [AcceptConnection [RecvRaises OSError]])
    = (o, w')
    /\ open_sockets w' = [(3%nat, Some 5000)]
    /\ closes (trace w') = 1%nat.
Proof.
  destruct (@accepted_connection_released Sample.python control_socket
              [RecvRaises OSError] []
              (listening (host [] Z.of_nat alive) [AcceptConnection [RecvRaises OSError]]))
    as (o & w' & Hg & _ & Ho & _ & _ & Hc & _).
  - apply descriptors_allocated_listening.
  - reflexivity.
  - exists o, w'. split; [exact Hg|]. split; [exact Ho|exact Hc].
Defined.

(** X8 on the two bytes of one character received one by one. *)
Lemma undecodable_chunk_ends_listener_witness :
  utf8_valid ["195"%byte; "169"%byte] = true
  /\ exists w',
      @listener_loop Sample.python 2 (Some control_socket) supervised None
        (listening (host [] Z.of_nat alive)
           [AcceptConnection [RecvBytes ["195"%byte]; RecvBytes ["169"%byte]]])
      = (Raise UnicodeDecodeError, w')
      /\ arrivals w' = [].
Proof.
  split; [reflexivity|].
  destruct (@undecodable_chunk_ends_listener Sample.python 1 control_socket supervised
              None [] ["195"%byte] [RecvBytes ["169"%byte]] []
              (listening (host [] Z.of_nat alive)
                 [AcceptConnection [RecvBytes ["195"%byte]; RecvBytes ["169"%byte]]]))
    as (w' & _ & Hl & Ha & _).
  - reflexivity.
  - constructor.
  - discriminate.
  - reflexivity.
  - exists w'. split; [exact Hl|exact Ha].
Defined.

(** X9 on the empty object, followed by a request to terminate: the
    signal of the second request is the only one sent. *)
Lemma empty_request_is_passed_over_witness :
  exists w1,
    @listener_loop Sample.python 3 (Some control_socket) supervised None
      (listening (host [] Z.of_nat alive)
         [connection empty_request; connection terminate_request])
    = @listener_loop Sample.python 2 (Some control_socket) supervised None w1
    /\ arrivals w1 = [connection terminate_request]
    /\ delivered (trace w1) = [].
Proof.
  destruct (@empty_request_is_passed_over Sample.python 2 control_socket supervised None
              [list_byte_of_string empty_request] (JDict [])
              [connection terminate_request]
              (listening (host [] Z.of_nat alive)
                 [connection empty_request; connection terminate_request]))
    as (w1 & Hl & Ha & Hd & _).
  - reflexivity.
  - apply sound_request; [discriminate|reflexivity].
  - discriminate.
  - reflexivity.
  - reflexivity.
  - exists w1. split; [exact Hl|]. split; [exact Ha|exact Hd].
Defined.

(** X10 on the request [7]. *)
Lemma non_object_request_ends_listener_witness :
  exists w',
    @listener_loop Sample.python 3 (Some control_socket) supervised None
      (listening (host [] Z.of_nat alive)
         [connection number_request; connection terminate_request])
    = (Raise AttributeError, w')
    /\ arrivals w' = [connection terminate_request]
    /\ delivered (trace w') = [].
Proof.
  destruct (@non_object_request_ends_listener Sample.python 2 control_socket supervised
              None [list_byte_of_string number_request] (JInt 7)
              [connection terminate_request]
              (listening (host [] Z.of_nat alive)
                 [connection number_request; connection terminate_request]))
    as (w' & Hl & Ha & Hd & _).
  - reflexivity.
  - apply sound_request; [discriminate|reflexivity].
  - discriminate.
  - reflexivity.
  - reflexivity.
  - discriminate.
  - exists w'. split; [exact Hl|]. split; [exact Ha|exact Hd].
Defined.

(** X11 on a request whose signal is the text [abc]. *)
Lemma unconvertible_signum_ends_listener_witness :
  exists w',
    @listener_loop Sample.python 2 (Some control_socket) supervised None
      (listening (host [] Z.of_nat alive) [connection worded_signal_request])
    = (Raise ValueError, w')
    /\ delivered (trace w') = []
    /\ undelivered (trace w') = [].
Proof.
  destruct (@unconvertible_signum_ends_listener Sample.python 1 control_socket supervised
              None [list_byte_of_string worded_signal_request]
              [("signum"%string, JStr "abc")] (JStr "abc") ValueError []
              (listening (host [] Z.of_nat alive) [connection worded_signal_request]))
    as (w' & Hl & _ & Hd & Hu).
  - reflexivity.
  - apply sound_request; [discriminate|reflexivity].
  - discriminate.
  - reflexivity.
  - reflexivity.
  - reflexivity.
  - reflexivity.
  - exists w'. split; [exact Hl|]. split; [exact Hd|exact Hu].
Defined.

(** X12 on a request whose [shutdown] is the text [false]: the listener
    returns. *)
Lemma shutdown_follows_truth_value_witness :
  exists w2,
    @listener_loop Sample.python 3 (Some control_socket) supervised None
      (listening (host [] Z.of_nat alive)
         [connection worded_shutdown_request; connection terminate_request])
    = (Ret tt, w2)
    /\ arrivals w2 = [connection terminate_request].
Proof.
  destruct (@shutdown_follows_truth_value Sample.python 2 control_socket supervised None
              [list_byte_of_string worded_shutdown_request]
              [("shutdown"%string, JStr "false")] (JStr "false")
              [connection terminate_request]
              (listening (host [] Z.of_nat alive)
                 [connection worded_shutdown_request; connection terminate_request]))
    as (w2 & Hl & Ha & _).
  - reflexivity.
  - apply sound_request; [discriminate|reflexivity].
  - discriminate.
  - reflexivity.
  - reflexivity.
  - reflexivity.
  - exists w2. split; [exact Hl|exact Ha].
Defined.

Lemma signal_request_sample (cluster_type : option string) (text : string) (signum : Z) :
  text <> EmptyString ->
  utf8_valid (list_byte_of_string text) = true ->
  Sample.json_loads (string_of_list_byte (list_byte_of_string text) ++ "")
  = Some (JDict [("signum"%string, JInt signum)]) ->
  @signal_request Sample.python (host [] Z.of_nat alive) supervised cluster_type
    ([list_byte_of_string text], signum).
Proof.
  intros Hne Hv Hj. split; [now apply sound_request|]. split; [discriminate|].
  exists [("signum"%string, JInt signum)], (JInt signum).
  split; [exact Hj|]. repeat split.
Qed.

(** X13 on an interrupt, a poll and a request to terminate under the
    spark profile. *)
Lemma signals_relayed_in_order_witness :
  exists w1,
    @listener_loop Sample.python 4 (Some control_socket) supervised (Some "spark"%string)
      (listening (host [] Z.of_nat alive)
         [connection interrupt_request; connection poll_request;
          connection terminate_request])
    = @listener_loop Sample.python 1 (Some control_socket) supervised
        (Some "spark"%string) w1
    /\ arrivals w1 = []
    /\ delivered (trace w1)
       = [(supervised, 2); (supervised, 12); (supervised, 0); (supervised, 15)].
Proof.
  destruct (@signals_relayed_in_order Sample.python
              [([list_byte_of_string interrupt_request], 2);
               ([list_byte_of_string poll_request], 0);
               ([list_byte_of_string terminate_request], 15)]
              [] 1 control_socket supervised (Some "spark"%string)
              (listening (host [] Z.of_nat alive)
                 [connection interrupt_request; connection poll_request;
                  connection terminate_request]))
    as (w1 & Hl & Ha & Hd & _).
  - repeat (apply Forall_cons; [apply signal_request_sample;
                                  [discriminate|reflexivity|reflexivity]|]).
    apply Forall_nil.
  - reflexivity.
  - exists w1. split; [exact Hl|]. split; [exact Ha|exact Hd].
Defined.

(** X14 on the same requests: two of the three are logged. *)
Lemma poll_requests_are_not_logged_witness :
  exists w1,
    @listener_loop Sample.python 4 (Some control_socket) supervised (Some "spark"%string)
      (listening (host [] Z.of_nat alive)
         [connection interrupt_request; connection poll_request;
          connection terminate_request])
    = @listener_loop Sample.python 1 (Some control_socket) supervised
        (Some "spark"%string) w1
    /\ logged_requests (trace w1) = 2%nat.
Proof.
  destruct (@poll_requests_are_not_logged Sample.python
              [([list_byte_of_string interrupt_request], 2);
               ([list_byte_of_string poll_request], 0);
               ([list_byte_of_string terminate_request], 15)]
              [] 1 control_socket supervised (Some "spark"%string)
              (listening (host [] Z.of_nat alive)
                 [connection interrupt_request; connection poll_request;
                  connection terminate_request]))
    as (w1 & Hl & _ & Hlog).
  - repeat (apply Forall_cons; [apply signal_request_sample;
                                  [discriminate|reflexivity|reflexivity]|]).
    apply Forall_nil.
  - reflexivity.
  - exists w1. split; [exact Hl|exact Hlog].
Defined.

(** X15 on an IPv6 address with its port. *)
Lemma address_with_other_than_one_colon_witness :
  @return_connection_info Sample.python Sample.crypto "/tmp/kernel.json" "[::1]:8877"
    5000 5001 "kernel-1" public_key (fresh (host [] Z.of_nat alive) [])
  = (Ret None,
     emit (EvLog ERROR
             "Invalid format for response address '[::1]:8877'. Assuming 'pull' mode...")
       (fresh (host [] Z.of_nat alive) [])).
Proof.
  apply (@address_with_other_than_one_colon Sample.python Sample.crypto
           "/tmp/kernel.json" "[::1]:8877" 5000 5001 "kernel-1" public_key
           (fresh (host [] Z.of_nat alive) [])).
  cbn. lia.
Defined.

(** X16 on a connection file that does not exist. *)
Lemma unusable_connection_file_opens_no_socket_witness :
  @return_connection_info Sample.python Sample.crypto "/tmp/missing.json"
    "10.0.0.5:8877" 5000 5001 "kernel-1" public_key (fresh (host [] Z.of_nat alive) [])
  = (Raise FileNotFoundError, fresh (host [] Z.of_nat alive) []).
Proof.
  destruct (@unusable_connection_file_opens_no_socket Sample.python Sample.crypto
              "/tmp/missing.json" "10.0.0.5:8877" 5000 5001 "kernel-1" public_key
              (fresh (host [] Z.of_nat alive) []))
    as (Hmissing & _).
  - intros [Hlen|Hport]; [now apply Hlen|discriminate Hport].
  - apply Hmissing. reflexivity.
Defined.

(** X17 on a server that is not at the address. *)
Lemma refused_push_leaves_control_socket_witness :
  exists comm_port w2,
    @return_connection_info Sample.python Sample.crypto "/tmp/kernel.json"
      "10.0.0.6:8877" 5000 5001 "kernel-1" public_key (fresh (host [] Z.of_nat alive) [])
    = (Raise ConnectionRefusedError, w2)
    /\ open_sockets w2 = [(3%nat, Some comm_port)]
    /\ port_in_use w2 comm_port = true.
Proof.
  destruct (@refused_push_leaves_control_socket Sample.python Sample.crypto
              "/tmp/kernel.json" "10.0.0.6:8877" 5000 5001 "kernel-1" public_key
              "10.0.0.6" "8877" connection_file_text 8877
              [("shell_port"%string, JInt 51001); ("iopub_port"%string, JInt 51002);
               ("stdin_port"%string, JInt 51003); ("hb_port"%string, JInt 51004);
               ("control_port"%string, JInt 51005); ("ip"%string, JStr "0.0.0.0");
               ("key"%string, JStr "5c1f7d2e-9a4b")]
              ConnectionRefusedError control_socket
              (fresh (host [] Z.of_nat alive) [])
              (snd (prepare_comm_socket 5000 5001 (fresh (host [] Z.of_nat alive) []))))
    as (comm_port & w2 & Hr & _ & Ho & Hp).
  - apply descriptors_allocated_fresh.
  - reflexivity.
  - reflexivity.
  - reflexivity.
  - vm_compute. reflexivity.
  - vm_compute. reflexivity.
  - reflexivity.
  - exists comm_port, w2. split; [exact Hr|]. split; [exact Ho|exact Hp].
Defined.

(** X19 on a descriptor that begins with twice the same sixteen bytes. *)
Lemma equal_blocks_encrypt_alike_witness :
  let block := list_byte_of_string "0123456789abcdef" in
  let w := fresh (host [] Z.of_nat alive) [] in
  let aes_key := map (urandom (env w)) (seq 0 16) in
  exists payload wrapped more,
    fst (@_encrypt Sample.python Sample.crypto
           (block ++ block ++ list_byte_of_string "tail") public_key w)
    = Ret payload
    /\ payload
       = b64encode
           (list_byte_of_string
              (@json_dumps Sample.python
                 (envelope (b64encode wrapped)
                    (b64encode (Sample.xor_bytes block aes_key
                                ++ Sample.xor_bytes block aes_key ++ more))))).
Proof.
  cbv zeta.
  destruct (sample_encrypt_returns
              (list_byte_of_string "0123456789abcdef"
               ++ list_byte_of_string "0123456789abcdef" ++ list_byte_of_string "tail")
              (fresh (host [] Z.of_nat alive) [])) as (payload & Hp).
  destruct (@equal_blocks_encrypt_alike Sample.python Sample.crypto
              (list_byte_of_string "0123456789abcdef") (list_byte_of_string "tail")
              public_key payload (fresh (host [] Z.of_nat alive) [])
              (snd (@_encrypt Sample.python Sample.crypto
                      (list_byte_of_string "0123456789abcdef"
                       ++ list_byte_of_string "0123456789abcdef"
                       ++ list_byte_of_string "tail")
                      public_key (fresh (host [] Z.of_nat alive) []))))
    as (wrapped & more & Hpay).
  - reflexivity.
  - rewrite <- Hp. now destruct (_encrypt _ _ _).
  - exists payload, wrapped, more. split; [exact Hp|exact Hpay].
Defined.

(** X20 on the empty object, received at once and in two buffers. *)
Lemma request_is_the_joined_chunks_witness :
  let run arrival :=
    fst (@get_server_request Sample.python (Some control_socket)
           (listening (host [] Z.of_nat alive) [arrival])) in
  run (AcceptConnection
         [RecvBytes (list_byte_of_string "{"); RecvBytes (list_byte_of_string "}")])
  = run (connection empty_request)
  /\ run (connection empty_request) = Ret (JDict []).
Proof.
  cbv zeta.
  destruct (@request_is_the_joined_chunks Sample.python control_socket control_socket
              [list_byte_of_string "{"; list_byte_of_string "}"]
              [list_byte_of_string empty_request] [] []
              (listening (host [] Z.of_nat alive)
                 [AcceptConnection
                    [RecvBytes (list_byte_of_string "{");
                     RecvBytes (list_byte_of_string "}")]])
              (listening (host [] Z.of_nat alive) [connection empty_request]))
    as (Hsame & Hvalue).
  - reflexivity.
  - reflexivity.
  - repeat constructor; discriminate.
  - apply sound_request; [discriminate|reflexivity].
  - reflexivity.
  - split; [exact Hsame|]. rewrite <- Hsame. exact Hvalue.
Defined.

(** X21 on a peer whose connection is reset after the first bytes of a
    request, and on one that stops sending. *)
Lemma recv_failure_drops_the_request_witness :
  let run ex :=
    @listener_loop Sample.python 2 (Some control_socket) supervised None
      (listening (host [] Z.of_nat alive)
         [AcceptConnection [RecvBytes (list_byte_of_string "{"); RecvRaises ex]]) in
  fst (run OSError) = Raise OSError
  /\ fst (run socket_timeout) = Blocked
  /\ delivered (trace (snd (run socket_timeout))) = [].
Proof.
  cbv zeta.
  destruct (@recv_failure_drops_the_request Sample.python 1 control_socket supervised
              None [list_byte_of_string "{"] OSError [] []
              (listening (host [] Z.of_nat alive)
                 [AcceptConnection [RecvBytes (list_byte_of_string "{");
                                    RecvRaises OSError]]))
    as (w' & _ & Hl & _).
  - reflexivity.
  - repeat constructor; discriminate.
  - split; [now rewrite Hl|]. split; vm_compute; reflexivity.
Defined.
